(** * Afrione / hedera-services: retry, polling, chunked upload, audit codec

    A shallow embedding of the resilience layer of the repository
    ([utils/error-handler.ts], [utils/transaction-monitor.ts],
    [utils/cost-tracker.ts], [utils/gas-estimator.ts]) and of the service
    methods that drive it ([file.service.ts], [smart-contract.service.ts],
    [consensus.service.ts], [token.service.ts]), followed by the properties
    the specification states about them and by further properties of the
    same code. *)

From Stdlib Require Import ZArith QArith Qround List String Ascii Bool Lia.
From Stdlib Require Import PrimFloat.
From Stdlib Require Import FloatOps SpecFloat.
From Stdlib.Strings Require Byte.
Import ListNotations.

Set Implicit Arguments.
Set Warnings "-register-all,-inexact-float,-abstract-large-number".
Local Open Scope Z_scope.

(* ================================================================== *)
(** * Promises *)

(** What awaiting a promise yields: the value it resolves to, the value it
    rejects with (an exception at the [await]), or nothing at all when the
    computation never settles (a loop that ran out of fuel in the model). *)
Inductive promise (E T : Type) : Type :=
| Fulfilled (v : T)
| Rejected (e : E)
| Pending.
Arguments Fulfilled {E T} v.
Arguments Rejected {E T} e.
Arguments Pending {E T}.

(** An [async] function over a world [W]: it runs from one state of the world
    and leaves another, whatever the way it settles. *)
Definition Async (W E T : Type) : Type := W -> promise E T * W.

Definition settles {E T} (p : promise E T) : Prop := p <> Pending.

(* ================================================================== *)
(** * utils/error-handler.ts *)

Module ErrorHandler.

(** Line 12: [Math.pow(2, attempt) * 1000]. [attempt] is the loop counter, an
    integer that starts at 1; on such values (and far beyond any delay that
    can be waited for) the double-precision product is exact. *)
Definition backoff_delay (attempt : Z) : Z := 2 ^ attempt * 1000.

(** What [executeWithRetry] itself does to the outside, in program order: it
    calls its [operation] argument, writes a warning, and arms a timer. *)
Inductive retry_event : Type :=
| Invoke (attempt : Z)                               (* line 8: operation() *)
| Warn (attempt : Z) (message : string) (delay : Z)  (* line 13: console.warn *)
| Timeout (delay : Z).                               (* line 14: setTimeout *)

(** What the function can reject with: the two [throw] statements, and the
    TypeError of line 13 when the value caught is [null] or [undefined], of
    which no property can be read. A [new Error(...)] is a fresh object,
    never identical to a value the operation threw. *)
Inductive retry_error (E : Type) : Type :=
| Rethrown (error : E)       (* line 10: throw error *)
| MaxRetriesExceeded         (* line 17: throw new Error('Max retries exceeded') *)
| MessageUnreadable.         (* line 13: error.message, with error null or undefined *)
Arguments Rethrown {E} error.
Arguments MaxRetriesExceeded {E}.
Arguments MessageUnreadable {E}.

Section Executor.
Context {W E T : Type}.
(** [error.message], read by the template literal of line 13: [None] when
    the value caught is [null] or [undefined], and the read throws. *)
Variable message : E -> option string.
Variable operation : Async W E T.
(** [maxRetries] is a JavaScript number: the loop compares the integer
    counter with it, and nothing forces it to be an integer. *)
Variable maxRetries : Q.

(** The [for] loop of lines 6-16, entered with the counter at [attempt]. *)
Fixpoint retry_from (fuel : nat) (attempt : Z) (w : W)
  : promise (retry_error E) T * list retry_event * W :=
  match fuel with
  | O => (Pending, [], w)
  | S fuel' =>
    if Qle_bool (inject_Z attempt) maxRetries then
      match operation w with
      | (Fulfilled v, w1) => (Fulfilled v, [Invoke attempt], w1)
      | (Pending, w1) => (Pending, [Invoke attempt], w1)
      | (Rejected error, w1) =>
        if Qeq_bool (inject_Z attempt) maxRetries
        then (Rejected (Rethrown error), [Invoke attempt], w1)
        else
          let delay := backoff_delay attempt in
          match message error with
          | None => (Rejected MessageUnreadable, [Invoke attempt], w1)
          | Some text =>
            let '(r, tr, w2) := retry_from fuel' (attempt + 1) w1 in
            (r, Invoke attempt :: Warn attempt text delay :: Timeout delay :: tr, w2)
          end
      end
    else (Rejected MaxRetriesExceeded, [], w)
  end.

(** The counter takes the values 1 .. floor(maxRetries), and the guard is
    evaluated once more after the last of them. *)
Definition retry_fuel : nat := S (Z.to_nat (Qfloor maxRetries)).

Definition executeWithRetry (w : W)
  : promise (retry_error E) T * list retry_event * W :=
  retry_from retry_fuel 1 w.
End Executor.

(** Readings of a trace. *)
Definition is_invoke (ev : retry_event) : bool :=
  match ev with Invoke _ => true | _ => false end.

Definition invocations (tr : list retry_event) : nat :=
  List.length (filter is_invoke tr).

Fixpoint delays (tr : list retry_event) : list Z :=
  match tr with
  | [] => []
  | Timeout d :: tr' => d :: delays tr'
  | _ :: tr' => delays tr'
  end.

(** The world after [j] invocations of [operation] in a row. Between two
    attempts the executor only warns and sleeps; it does not touch [W]. *)
Fixpoint after_invocations {W E T} (operation : Async W E T) (j : nat) (w : W) : W :=
  match j with
  | O => w
  | S j' => after_invocations operation j' (snd (operation w))
  end.

(** [operation] rejects on each of its first [k] invocations from [w]. *)
Fixpoint fails_first {W E T} (operation : Async W E T) (k : nat) (w : W) : Prop :=
  match k with
  | O => True
  | S k' => (exists e, fst (operation w) = Rejected e)
            /\ fails_first operation k' (snd (operation w))
  end.

(** [operation] rejects on each of its first [k] invocations from [w], each
    time with a value whose message can be read. *)
Fixpoint fails_readably {W E T} (message : E -> option string) (operation : Async W E T)
         (k : nat) (w : W) : Prop :=
  match k with
  | O => True
  | S k' => (exists e text, fst (operation w) = Rejected e /\ message e = Some text)
            /\ fails_readably message operation k' (snd (operation w))
  end.

(** What the executor emits while [operation] rejects [k] times in a row,
    the counter starting at [attempt]. *)
Fixpoint backoff_trace {W E T} (message : E -> option string) (operation : Async W E T)
         (k : nat) (attempt : Z) (w : W) : list retry_event :=
  match k with
  | O => []
  | S k' =>
    match operation w with
    | (Rejected e, w1) =>
      match message e with
      | Some text =>
        Invoke attempt :: Warn attempt text (backoff_delay attempt)
          :: Timeout (backoff_delay attempt)
          :: backoff_trace message operation k' (attempt + 1) w1
      | None => []
      end
    | _ => []
    end
  end.

(** The attempts 1, 2, ..., k. *)
Definition attempts (k : nat) : list Z := map Z.of_nat (seq 1 k).

(** A trace in which the attempts follow one another from [attempt] on, each
    separated from the next by one warning and one timer, both carrying
    [backoff_delay] of the attempt that failed. *)
Fixpoint paced (attempt : Z) (tr : list retry_event) : Prop :=
  match tr with
  | [] => True
  | [Invoke a] => a = attempt
  | Invoke a :: Warn a' _ d :: Timeout d' :: rest =>
      a = attempt /\ a' = attempt
      /\ d = backoff_delay attempt /\ d' = backoff_delay attempt
      /\ paced (attempt + 1) rest
  | _ => False
  end.

(** Scripted operations, in the manner of a test double that counts its
    calls: the world is the number of calls made so far, and the error of a
    failing call carries that number. *)
Definition flaky (k : nat) : Async nat nat string :=
  fun calls =>
    (if (calls <? k)%nat then Rejected calls else Fulfilled "done"%string, S calls).

Definition always_failing : Async nat nat string :=
  fun calls => (Rejected calls, S calls).

(** Their errors are objects whose message is the empty string. *)
Definition no_message (e : nat) : option string := Some EmptyString.

(** What an operation can reject with: an error object, with its message,
    or [null]. *)
Inductive thrown : Type :=
| ErrorObject (message : string)
| Null.

Definition thrown_message (e : thrown) : option string :=
  match e with
  | ErrorObject text => Some text
  | Null => None
  end.

(** [async () => { throw null }] *)
Definition throws_null : Async nat thrown string :=
  fun calls => (Rejected Null, S calls).

(** An operation that rejects with [null] at its first call and fulfils
    from the second on. *)
Definition null_then_done : Async nat thrown string :=
  fun calls =>
    (if (calls <? 1)%nat then Rejected Null else Fulfilled "done"%string, S calls).

(** An operation that rejects with an error object at every call. *)
Definition throws_busy : Async nat thrown string :=
  fun calls => (Rejected (ErrorObject "BUSY"%string), S calls).

End ErrorHandler.

(* ================================================================== *)
(** * The Node runtime and the network, as the services see them *)

Module Runtime.

(** Thrown values. Every value thrown in these files is an [Error] object or
    an instance of a subclass; [name] tells them apart, [message] is what
    line 13 of the executor prints. *)
Record JsError : Type := mkError { name : string; message : string }.

Definition Error (msg : string) : JsError := mkError "Error" msg.

(** [error.message] of such a value can always be read. *)
Definition error_message (e : JsError) : option string := Some (message e).
Definition TypeError (msg : string) : JsError := mkError "TypeError" msg.

Definition Buffer : Type := list Byte.byte.

(** [Buffer.from(s, 'utf-8')]: a string is held as its UTF-8 bytes. *)
Definition Buffer_from_utf8 (s : string) : Buffer := list_byte_of_string s.

(** The value of a hexadecimal digit, in either case. *)
Definition hex_value (c : ascii) : option N :=
  let n := N_of_ascii c in
  if ((48 <=? n) && (n <=? 57))%N then Some (n - 48)%N
  else if ((97 <=? n) && (n <=? 102))%N then Some (n - 87)%N
  else if ((65 <=? n) && (n <=? 70))%N then Some (n - 55)%N
  else None.

(** [Buffer.from(s, 'hex')]: pairs of hexadecimal digits, up to the first
    pair that is not one. *)
Fixpoint Buffer_from_hex (s : string) : Buffer :=
  match s with
  | String c1 (String c2 rest) =>
    match hex_value c1, hex_value c2 with
    | Some hi, Some lo =>
      match Byte.of_N (16 * hi + lo) with
      | Some b => b :: Buffer_from_hex rest
      | None => []
      end
    | _, _ => []
    end
  | _ => []
  end.

(** Truthiness of a value that is a string, [null] or [undefined]: the
    empty string is falsy too. *)
Definition truthy (v : option string) : bool :=
  match v with
  | Some s => negb (String.eqb s EmptyString)
  | None => false
  end.

(** [buf.slice(start, end)] for [0 <= start], the only way it is called:
    both ends are clamped to the length of the buffer. *)
Definition slice (buf : Buffer) (start stop : Z) : Buffer :=
  firstn (Z.to_nat (stop - start)) (skipn (Z.to_nat start) buf).

(** ** The mirror node *)

(** The part of a mirror-node answer that [monitorTransaction] reads:
    [data.transactions], and [consensus_timestamp] of its first element.
    [None] stands for [null] or an absent field. *)
Record TransactionRecord : Type :=
  { consensus_timestamp : option string }.

Record MirrorBody : Type :=
  { transactions : option (list (option TransactionRecord)) }.

Inductive FetchResult : Type :=
| FetchRejects (error : JsError)                    (* fetch() throws *)
| Response (ok : bool) (json : JsError + MirrorBody). (* json : what response.json() gives *)

(** ** The ledger, through the Hedera SDK *)

Definition Key := string.
Definition FileId := string.
Definition ContractId := string.
Definition TopicId := string.

(** [contents] is what [setContents] was handed, read by index from the
    array of chunks: [chunks[i]] is a buffer while [i < chunks.length]. *)
Inductive Transaction : Type :=
| FileCreateTransaction (keys : list Key) (contents : option Buffer)
                        (expirationTime : option string) (memo : option string)
| FileAppendTransaction (fileId : FileId) (contents : option Buffer)
| ContractCreateTransaction (bytecodeFileId : FileId) (gas : Z) (adminKey : Key)
                            (constructorParameters : option Buffer)
| TopicMessageSubmitTransaction (topicId : TopicId) (msg : Buffer).

Record TransactionResponse : Type := { transactionId : string }.

Record TransactionReceipt : Type :=
  { fileId : option FileId;
    contractId : option ContractId;
    topicSequenceNumber : option Z }.

(** A call made on the client: [tx.execute(client)] or
    [response.getReceipt(client)]. *)
Inductive LedgerCall : Type :=
| Execute (tx : Transaction)
| GetReceipt (response : TransactionResponse).

Inductive ConsoleLine : Type :=
| Log (text : string)       (* console.log; object arguments are not rendered *)
| Warning (text : string).  (* console.warn *)

(** The world a service method runs in. The first fields are the
    environment: how the mirror node answers its [n]-th read, how the ledger
    answers a call given the calls made before it, the process environment,
    the clock and the random source. The others record, oldest first, what
    the program did. *)
Record World : Type :=
  { mirror : nat -> string -> FetchResult;
    ledger_execute : list LedgerCall -> Transaction -> JsError + TransactionResponse;
    ledger_receipt : list LedgerCall -> TransactionResponse -> JsError + TransactionReceipt;
    HCS_ENCRYPTION_KEY : option string;
    clock : string;
    random : nat -> Buffer;
    draws : nat;
    fetched : list string;
    ledger_calls : list LedgerCall;
    console : list ConsoleLine;
    timers : list Z }.

Definition IO (T : Type) : Type := Async World JsError T.

Definition ret {T} (v : T) : IO T := fun w => (Fulfilled v, w).
Definition throw {T} (e : JsError) : IO T := fun w => (Rejected e, w).

Definition bind {A B} (m : IO A) (k : A -> IO B) : IO B :=
  fun w =>
    match m w with
    | (Fulfilled a, w1) => k a w1
    | (Rejected e, w1) => (Rejected e, w1)
    | (Pending, w1) => (Pending, w1)
    end.

(** [try { body } catch (error) { handler(error) }] *)
Definition try_catch {A} (body : IO A) (handler : JsError -> IO A) : IO A :=
  fun w =>
    match body w with
    | (Rejected e, w1) => handler e w1
    | settled => settled
    end.

Definition update_console (f : list ConsoleLine -> list ConsoleLine) (w : World) : World :=
  {| mirror := mirror w; ledger_execute := ledger_execute w;
     ledger_receipt := ledger_receipt w; HCS_ENCRYPTION_KEY := HCS_ENCRYPTION_KEY w;
     clock := clock w; random := random w; draws := draws w;
     fetched := fetched w; ledger_calls := ledger_calls w;
     console := f (console w); timers := timers w |}.

Definition update_timers (f : list Z -> list Z) (w : World) : World :=
  {| mirror := mirror w; ledger_execute := ledger_execute w;
     ledger_receipt := ledger_receipt w; HCS_ENCRYPTION_KEY := HCS_ENCRYPTION_KEY w;
     clock := clock w; random := random w; draws := draws w;
     fetched := fetched w; ledger_calls := ledger_calls w;
     console := console w; timers := f (timers w) |}.

Definition update_fetched (f : list string -> list string) (w : World) : World :=
  {| mirror := mirror w; ledger_execute := ledger_execute w;
     ledger_receipt := ledger_receipt w; HCS_ENCRYPTION_KEY := HCS_ENCRYPTION_KEY w;
     clock := clock w; random := random w; draws := draws w;
     fetched := f (fetched w); ledger_calls := ledger_calls w;
     console := console w; timers := timers w |}.

Definition update_ledger_calls (f : list LedgerCall -> list LedgerCall) (w : World) : World :=
  {| mirror := mirror w; ledger_execute := ledger_execute w;
     ledger_receipt := ledger_receipt w; HCS_ENCRYPTION_KEY := HCS_ENCRYPTION_KEY w;
     clock := clock w; random := random w; draws := draws w;
     fetched := fetched w; ledger_calls := f (ledger_calls w);
     console := console w; timers := timers w |}.

Definition update_draws (f : nat -> nat) (w : World) : World :=
  {| mirror := mirror w; ledger_execute := ledger_execute w;
     ledger_receipt := ledger_receipt w; HCS_ENCRYPTION_KEY := HCS_ENCRYPTION_KEY w;
     clock := clock w; random := random w; draws := f (draws w);
     fetched := fetched w; ledger_calls := ledger_calls w;
     console := console w; timers := timers w |}.

Definition console_log (text : string) : IO unit :=
  fun w => (Fulfilled tt, update_console (fun c => c ++ [Log text]) w).

Definition console_warn (text : string) : IO unit :=
  fun w => (Fulfilled tt, update_console (fun c => c ++ [Warning text]) w).

(** [await new Promise(resolve => setTimeout(resolve, ms))] *)
Definition sleep (ms : Z) : IO unit :=
  fun w => (Fulfilled tt, update_timers (fun t => t ++ [ms]) w).

(** [await fetch(url)]: one read of the mirror node, counted whatever its
    result. *)
Definition fetch (url : string) : IO FetchResult :=
  fun w => (Fulfilled (mirror w (List.length (fetched w)) url),
            update_fetched (fun l => l ++ [url]) w).

(** [await tx.execute(this.client)] *)
Definition execute (tx : Transaction) : IO TransactionResponse :=
  fun w =>
    let w1 := update_ledger_calls (fun l => l ++ [Execute tx]) w in
    match ledger_execute w (ledger_calls w) tx with
    | inl e => (Rejected e, w1)
    | inr response => (Fulfilled response, w1)
    end.

(** [await response.getReceipt(this.client)] *)
Definition getReceipt (response : TransactionResponse) : IO TransactionReceipt :=
  fun w =>
    let w1 := update_ledger_calls (fun l => l ++ [GetReceipt response]) w in
    match ledger_receipt w (ledger_calls w) response with
    | inl e => (Rejected e, w1)
    | inr receipt => (Fulfilled receipt, w1)
    end.

(** [id.toString()] on a value asserted non-null with [!]: a [null] throws. *)
Definition toString (id : option string) : IO string :=
  match id with
  | Some s => ret s
  | None => throw (TypeError "Cannot read properties of null (reading 'toString')")
  end.

End Runtime.

Declare Scope io_scope.
Delimit Scope io_scope with io.
Notation "'await' x <- m ; k" := (Runtime.bind m (fun x => k))
  (at level 61, x name, m at next level, right associativity) : io_scope.
Notation "m ;; k" := (Runtime.bind m (fun _ => k))
  (at level 61, right associativity) : io_scope.

(* ================================================================== *)
(** * utils/transaction-monitor.ts *)

Module TransactionMonitor.
Import Runtime.
Local Open Scope io_scope.
Local Open Scope string_scope.

Definition mirrorNodeUrl : string := "https://mainnet-public.mirrornode.hedera.com".

(** How the loop of lines 5-21 is left: by the [return] of line 13, or by its
    guard [i < 10] failing. The function itself returns nothing in either
    case. *)
Inductive ConfirmationState : Type := Confirmed | TimedOut.

(** Line 11, on the body that [response.json()] produced. Reading a property
    of a [null] first element throws. *)
Definition has_consensus_timestamp (data : MirrorBody) : IO bool :=
  match transactions data with
  | None => ret false                       (* data.transactions is falsy *)
  | Some [] => ret false                    (* length > 0 fails *)
  | Some (None :: _) =>
      throw (TypeError "Cannot read properties of null (reading 'consensus_timestamp')")
  | Some (Some tx :: _) => ret (truthy (consensus_timestamp tx))
  end.

(** Lines 6-18: one poll. [true] when line 13 returns from the function. *)
Definition poll (transactionId : string) : IO bool :=
  try_catch
    (await response <- fetch (mirrorNodeUrl ++ "/api/v1/transactions/" ++ transactionId);
     match response with
     | FetchRejects error => throw error
     | Response false _ => ret false
     | Response true (inl error) => throw error
     | Response true (inr data) =>
         await found <- has_consensus_timestamp data;
         if found then console_log "Transaction confirmed:" ;; ret true
         else ret false
     end)
    (fun error => console_warn "Monitor poll failed:" ;; ret false).

(** The [for] loop of lines 5-21, entered with the counter at [i]. *)
Fixpoint poll_from (fuel : nat) (transactionId : string) (i : Z) : IO ConfirmationState :=
  match fuel with
  | O => fun w => (Pending, w)
  | S fuel' =>
    if (i <? 10)%Z then
      await confirmed <- poll transactionId;
      if confirmed then ret Confirmed
      else sleep 2000 ;; poll_from fuel' transactionId (i + 1)
    else ret TimedOut
  end.

Definition monitorTransaction (transactionId : string) : IO unit :=
  await state <- poll_from 11 transactionId 0;
  match state with
  | Confirmed => ret tt
  | TimedOut =>
      console_warn ("Transaction " ++ transactionId ++ " not confirmed after 10 polls")
  end.

(** A successful answer whose first record carries the timestamp [ts]. *)
Definition confirmed_record (ts : string) : FetchResult :=
  Response true (inr {| transactions := Some [Some {| consensus_timestamp := Some ts |}] |}).

(** What line 11 accepts. *)
Definition is_confirmed (r : FetchResult) : bool :=
  match r with
  | Response true (inr {| transactions := Some (Some tx :: _) |}) =>
      truthy (consensus_timestamp tx)
  | _ => false
  end.

End TransactionMonitor.


(* ================================================================== *)
(** * utils/cost-tracker.ts *)

Module CostTrackerModule.
Local Open Scope float_scope.

(** The numbers of this file are JavaScript numbers: IEEE 754 binary64, with
    its rounding. *)
Record CostTracker : Type :=
  { htsTransfers : float;
    hcsMessages : float;
    contractExecutions : float;
    totalCost : float }.

(** An argument left out ([None]) takes its default. *)
Definition calculateDailyCosts (htsCount hcsCount hscsCount : option float) : CostTracker :=
  let htsCount := match htsCount with Some n => n | None => 10000 end in
  let hcsCount := match hcsCount with Some n => n | None => 5000 end in
  let hscsCount := match hscsCount with Some n => n | None => 500 end in
  let htsCost := htsCount * 0.001 in     (* $0.001 per transfer *)
  let hcsCost := hcsCount * 0.0001 in    (* $0.0001 per message *)
  let hscsCost := hscsCount * 0.05 in    (* $0.05 per execution (avg) *)
  {| htsTransfers := htsCost;
     hcsMessages := hcsCost;
     contractExecutions := hscsCost;
     totalCost := htsCost + hcsCost + hscsCost |}.

End CostTrackerModule.

(* ================================================================== *)
(** * Node's [crypto.createHash('sha256')] *)

(** SHA-256 as FIPS 180-4 defines it, on 32-bit words held in [Z]. The
    repository calls it through Node; it is written out here so that
    [hashUserId] can be evaluated. *)
Module Sha256.

Definition wrap (x : Z) : Z := x mod 4294967296.
Definition plus (x y : Z) : Z := wrap (x + y).
Definition rotr (n x : Z) : Z := Z.lor (Z.shiftr x n) (wrap (Z.shiftl x (32 - n))).
Definition not32 (x : Z) : Z := 4294967295 - x.

Definition ch (x y z : Z) : Z := Z.lxor (Z.land x y) (Z.land (not32 x) z).
Definition maj (x y z : Z) : Z := Z.lxor (Z.lxor (Z.land x y) (Z.land x z)) (Z.land y z).
Definition big_sigma0 (x : Z) : Z := Z.lxor (Z.lxor (rotr 2 x) (rotr 13 x)) (rotr 22 x).
Definition big_sigma1 (x : Z) : Z := Z.lxor (Z.lxor (rotr 6 x) (rotr 11 x)) (rotr 25 x).
Definition small_sigma0 (x : Z) : Z := Z.lxor (Z.lxor (rotr 7 x) (rotr 18 x)) (Z.shiftr x 3).
Definition small_sigma1 (x : Z) : Z := Z.lxor (Z.lxor (rotr 17 x) (rotr 19 x)) (Z.shiftr x 10).

(** The sixty-four round constants (fractional parts of the cube roots of
    the first primes), in decimal. *)
Definition round_constants : list Z :=
  [ 1116352408; 1899447441; 3049323471; 3921009573; 961987163; 1508970993;
    2453635748; 2870763221; 3624381080; 310598401; 607225278; 1426881987;
    1925078388; 2162078206; 2614888103; 3248222580; 3835390401; 4022224774;
    264347078; 604807628; 770255983; 1249150122; 1555081692; 1996064986;
    2554220882; 2821834349; 2952996808; 3210313671; 3336571891; 3584528711;
    113926993; 338241895; 666307205; 773529912; 1294757372; 1396182291;
    1695183700; 1986661051; 2177026350; 2456956037; 2730485921; 2820302411;
    3259730800; 3345764771; 3516065817; 3600352804; 4094571909; 275423344;
    430227734; 506948616; 659060556; 883997877; 958139571; 1322822218;
    1537002063; 1747873779; 1955562222; 2024104815; 2227730452; 2361852424;
    2428436474; 2756734187; 3204031479; 3329325298 ].

(** The eight working variables, also the shape of a hash value. *)
Record regs : Type := { ra : Z; rb : Z; rc : Z; rd : Z; re : Z; rf : Z; rg : Z; rh : Z }.

Definition initial_hash : regs :=
  {| ra := 1779033703; rb := 3144134277; rc := 1013904242; rd := 2773480762;
     re := 1359893119; rf := 2600822924; rg := 528734635; rh := 1541459225 |}.

Definition round (s : regs) (kw : Z * Z) : regs :=
  let t1 := plus (plus (plus (plus (rh s) (big_sigma1 (re s))) (ch (re s) (rf s) (rg s)))
                       (fst kw)) (snd kw) in
  let t2 := plus (big_sigma0 (ra s)) (maj (ra s) (rb s) (rc s)) in
  {| ra := plus t1 t2; rb := ra s; rc := rb s; rd := rc s;
     re := plus (rd s) t1; rf := re s; rg := rf s; rh := rg s |}.

(** The message schedule: [n] more words after those of [ws]. *)
Fixpoint schedule (n : nat) (ws : list Z) : list Z :=
  match n with
  | O => ws
  | S n' =>
    let t := List.length ws in
    let w := plus (plus (plus (small_sigma1 (nth (t - 2) ws 0)) (nth (t - 7) ws 0))
                        (small_sigma0 (nth (t - 15) ws 0))) (nth (t - 16) ws 0) in
    schedule n' (ws ++ [w])
  end.

Definition compress (h : regs) (block : list Z) : regs :=
  let s := fold_left round (combine round_constants (schedule 48 block)) h in
  {| ra := plus (ra h) (ra s); rb := plus (rb h) (rb s); rc := plus (rc h) (rc s);
     rd := plus (rd h) (rd s); re := plus (re h) (re s); rf := plus (rf h) (rf s);
     rg := plus (rg h) (rg s); rh := plus (rh h) (rh s) |}.

(** Big-endian bytes of a word, and back. *)
Definition word_bytes (x : Z) : list Z :=
  [Z.shiftr x 24 mod 256; Z.shiftr x 16 mod 256; Z.shiftr x 8 mod 256; x mod 256].

Fixpoint words (bytes : list Z) : list Z :=
  match bytes with
  | b3 :: b2 :: b1 :: b0 :: rest =>
      (((b3 * 256 + b2) * 256 + b1) * 256 + b0) :: words rest
  | _ => []
  end.

(** Padding: a 1 bit, zeros up to 56 modulo 64, the bit length on 64 bits. *)
Definition pad (msg : list Z) : list Z :=
  let len := Z.of_nat (List.length msg) in
  msg ++ [128] ++ repeat 0 (Z.to_nat ((55 - len) mod 64))
      ++ word_bytes (Z.shiftr (8 * len) 32) ++ word_bytes (wrap (8 * len)).

Fixpoint absorb (blocks : nat) (h : regs) (bytes : list Z) : regs :=
  match blocks with
  | O => h
  | S blocks' => absorb blocks' (compress h (words (firstn 64 bytes))) (skipn 64 bytes)
  end.

Definition digest (msg : list Z) : list Z :=
  let padded := pad msg in
  let h := absorb (List.length padded / 64) initial_hash padded in
  word_bytes (ra h) ++ word_bytes (rb h) ++ word_bytes (rc h) ++ word_bytes (rd h)
    ++ word_bytes (re h) ++ word_bytes (rf h) ++ word_bytes (rg h) ++ word_bytes (rh h).

(** [.digest('hex')]: two lowercase digits a byte. *)
Definition hex_digit (d : Z) : ascii :=
  nth (Z.to_nat (d mod 16))
      (list_ascii_of_string "0123456789abcdef") "0"%char.

Fixpoint hex (bytes : list Z) : string :=
  match bytes with
  | [] => EmptyString
  | b :: rest => String (hex_digit (b / 16)) (String (hex_digit b) (hex rest))
  end.

(** The characters [0-9a-f]. *)
Definition is_lower_hex (c : ascii) : bool :=
  let n := N_of_ascii c in
  (((48 <=? n) && (n <=? 57)) || ((97 <=? n) && (n <=? 102)))%N.

Fixpoint string_forall (f : ascii -> bool) (s : string) : bool :=
  match s with
  | EmptyString => true
  | String c rest => f c && string_forall f rest
  end.

(** [.update(s)]: the UTF-8 bytes of the string. *)
Definition bytes_of_string (s : string) : list Z :=
  map (fun c => Z.of_N (N_of_ascii c)) (list_ascii_of_string s).

Definition sha256_hex (s : string) : string := hex (digest (bytes_of_string s)).

End Sha256.


(* ================================================================== *)
(** * The services' use of the executor *)

Module Services.
Import Runtime.

(** [executeWithRetry(async () => { ... })]: every service method passes its
    whole body as the operation and leaves [maxRetries] at its default, 3. *)
Definition with_retry {T} (operation : IO T)
  : World -> promise (ErrorHandler.retry_error JsError) T
             * list ErrorHandler.retry_event * World :=
  ErrorHandler.executeWithRetry error_message operation (inject_Z 3).

(** The value the caller's [catch] receives. *)
Definition thrown_value (e : ErrorHandler.retry_error JsError) : JsError :=
  match e with
  | ErrorHandler.Rethrown error => error
  | ErrorHandler.MaxRetriesExceeded => Error "Max retries exceeded"
  | ErrorHandler.MessageUnreadable =>
      TypeError "Cannot read properties of null (reading 'message')"
  end.

End Services.

(* ================================================================== *)
(** * services/hedera/file.service.ts *)

Module FileService.
Import Runtime.
Local Open Scope io_scope.
Local Open Scope string_scope.

Record FileConfig : Type :=
  { cfg_contents : Buffer + string;
    cfg_fileName : option string;
    cfg_keys : option (list Key);
    cfg_expirationTime : option string;
    cfg_memo : option string }.

Record FileOperationResult : Type :=
  { success : bool;
    res_fileId : string;
    res_transactionId : string;
    explorerUrl : string }.

(** Lines 379-381: [for (let i = 0; i < contents.length; i += chunkSize)
    chunks.push(contents.slice(i, i + chunkSize))], entered with the counter
    at [i] and the array holding [chunks]. *)
Fixpoint chunk_loop (fuel : nat) (contents : Buffer) (chunkSize i : Z)
         (chunks : list Buffer) : option (list Buffer) :=
  match fuel with
  | O => None
  | S fuel' =>
    if (i <? Z.of_nat (List.length contents))%Z
    then chunk_loop fuel' contents chunkSize (i + chunkSize)%Z
                    (chunks ++ [slice contents i (i + chunkSize)])%list
    else Some chunks
  end.

(** Lines 377-381 with the segment size as a parameter. With a size that is
    not positive the loop of the source does not end, and this is [None]. *)
Definition split (contents : Buffer) (chunkSize : Z) : option (list Buffer) :=
  chunk_loop (S (List.length contents)) contents chunkSize 0 [].

Definition chunkSize : Z := 6144. (* 6KB *)

(** A non-empty string is truthy. *)
Definition nonempty (s : option string) : option string :=
  match s with
  | Some "" => None
  | other => other
  end.

(** Lines 403-409: [for (let i = 1; i < chunks.length; i++)], entered with
    the counter at [i]. *)
Fixpoint append_loop (fuel : nat) (fileId : FileId) (chunks : list Buffer) (i : Z) : IO unit :=
  match fuel with
  | O => fun w => (Pending, w)
  | S fuel' =>
    if (i <? Z.of_nat (List.length chunks))%Z then
      await _ <- execute (FileAppendTransaction fileId (nth_error chunks (Z.to_nat i)));
      append_loop fuel' fileId chunks (i + 1)%Z
    else ret tt
  end.

(** Lines 541-544; the metadata object is not rendered. *)
Definition storeFileMetadata : IO unit := console_log "Stored file metadata:".

(** [.setContents(chunks[0])], line 385. An empty payload has no chunk:
    [chunks[0]] is [undefined], which the SDK hands to [Buffer.from], and
    that throws a TypeError before anything is sent. *)
Definition setContents (chunk : option Buffer) : IO Buffer :=
  match chunk with
  | Some contents => ret contents
  | None =>
      throw (TypeError ("The first argument must be of type string or an instance of "
                        ++ "Buffer, ArrayBuffer, or Array or an Array-like Object. "
                        ++ "Received undefined"))
  end.

(** The body of the closure of lines 371-428. *)
Definition createFile_operation (operatorPublicKey : Key) (fileConfig : FileConfig)
  : IO FileOperationResult :=
  let contents :=
      match cfg_contents fileConfig with
      | inr text => Buffer_from_utf8 text
      | inl buffer => buffer
      end in
  match split contents chunkSize with
  | None => fun w => (Pending, w)
  | Some chunks =>
    (* Create first chunk *)
    await chunk0 <- setContents (nth_error chunks 0);
    let fileCreateTx :=
        FileCreateTransaction
          (match cfg_keys fileConfig with Some ks => ks | None => [operatorPublicKey] end)
          (Some chunk0)
          (cfg_expirationTime fileConfig)
          (nonempty (cfg_memo fileConfig)) in
    await fileCreateSubmit <- execute fileCreateTx;
    await fileCreateReceipt <- getReceipt fileCreateSubmit;
    await fileId <- toString (fileId fileCreateReceipt);
    console_log ("✅ File created: " ++ fileId) ;;
    (* Append remaining chunks *)
    append_loop (S (List.length chunks)) fileId chunks 1 ;;
    storeFileMetadata ;;
    TransactionMonitor.monitorTransaction (transactionId fileCreateSubmit) ;;
    ret {| success := true;
           res_fileId := fileId;
           res_transactionId := transactionId fileCreateSubmit;
           explorerUrl := "https://hashscan.io/mainnet/file/" ++ fileId |}
  end.

Definition createFile (operatorPublicKey : Key) (fileConfig : FileConfig) :=
  Services.with_retry (createFile_operation operatorPublicKey fileConfig).

End FileService.

(* ================================================================== *)
(** * services/hedera/smart-contract.service.ts *)

Module SmartContractService.
Import Runtime.
Local Open Scope io_scope.
Local Open Scope string_scope.

Record ContractDeploymentResult : Type :=
  { success : bool;
    res_contractId : string;
    res_transactionId : string;
    explorerUrl : string }.

(** Lines 90-97: [while (offset < bytecode.length)]. *)
Fixpoint append_chunks (fuel : nat) (fileId : FileId) (bytecode : Buffer) (offset : Z) : IO unit :=
  match fuel with
  | O => fun w => (Pending, w)
  | S fuel' =>
    if (offset <? Z.of_nat (List.length bytecode))%Z then
      let chunk := slice bytecode offset (offset + 4096) in
      await _ <- execute (FileAppendTransaction fileId (Some chunk));
      append_chunks fuel' fileId bytecode (offset + 4096)%Z
    else ret tt
  end.

(** The body of the closure of lines 74-123. *)
Definition deployLargeContract_operation
           (operatorPublicKey : Key) (contractBytecode : string)
           (constructorParams : option Buffer) (gas : Z)
  : IO ContractDeploymentResult :=
  let bytecode := Buffer_from_hex contractBytecode in
  (* Step 1: Create file *)
  let fileCreateTx :=
      FileCreateTransaction [operatorPublicKey] (Some (slice bytecode 0 4096)) None None in
  await fileCreateSubmit <- execute fileCreateTx;
  await fileCreateReceipt <- getReceipt fileCreateSubmit;
  await fileId <- toString (fileId fileCreateReceipt);
  console_log ("File created for large contract: " ++ fileId) ;;
  (* Step 2: Append chunks *)
  append_chunks (S (List.length bytecode)) fileId bytecode 4096 ;;
  (* Step 3: Deploy from file *)
  let contractCreateTx :=
      ContractCreateTransaction fileId gas operatorPublicKey constructorParams in
  await contractCreateSubmit <- execute contractCreateTx;
  await contractCreateReceipt <- getReceipt contractCreateSubmit;
  await contractId <- toString (contractId contractCreateReceipt);
  console_log ("✅ Large contract deployed: " ++ contractId) ;;
  TransactionMonitor.monitorTransaction (transactionId contractCreateSubmit) ;;
  ret {| success := true;
         res_contractId := contractId;
         res_transactionId := transactionId contractCreateSubmit;
         explorerUrl := "https://hashscan.io/mainnet/contract/" ++ contractId |}.

(** [gas] defaults to 200000. *)
Definition deployLargeContract (operatorPublicKey : Key) (contractBytecode : string)
           (constructorParams : option Buffer) (gas : option Z) :=
  Services.with_retry
    (deployLargeContract_operation operatorPublicKey contractBytecode constructorParams
       (match gas with Some g => g | None => 200000 end)).

End SmartContractService.


(* ================================================================== *)
(** * services/hedera/consensus.service.ts *)

Module ConsensusService.
Import Runtime.
Local Open Scope io_scope.
Local Open Scope string_scope.

(** The values passed as [message]: what [JSON.stringify] serialises, a
    number being held as a rational. A property whose value is [undefined]
    is left out, as the serialiser does. *)
Inductive Json : Type :=
| JNull
| JBoolean (b : bool)
| JNumber (n : Q)
| JString (s : string)
| JArray (items : list Json)
| JObject (members : list (string * Json)).

Record MessageSubmitResult : Type :=
  { success : bool;
    res_topicId : string;
    res_transactionId : string;
    consensusTimestamp : string;
    sequenceNumber : Z }.

(** [buf.toString('hex')] *)
Definition Buffer_to_hex (buf : Buffer) : string :=
  Sha256.hex (map (fun b => Z.of_N (Byte.to_N b)) buf).

(** Line 94: [new Error('Missing HCS_ENCRYPTION_KEY in environment')]. *)
Definition missing_key : JsError := Error "Missing HCS_ENCRYPTION_KEY in environment".

(** Lines 305-307. *)
Definition hashUserId (userId : string) : string :=
  substring 0 16 (Sha256.sha256_hex userId).

(** Lines 309-311. *)
Definition hashIpAddress (ip : string) : string :=
  substring 0 16 (Sha256.sha256_hex ip).

Section Service.
(** The SDK's parser of topic identifiers, Node's serialiser, and its
    AES-256-GCM cipher (key, nonce, plaintext to hexadecimal ciphertext
    and authentication tag). *)
Variable TopicId_fromString : string -> JsError + TopicId.
Variable JSON_stringify : Json -> string.
Variable aes_256_gcm : Buffer -> Buffer -> string -> string * Buffer.

(** [this.topicIds], loaded from the environment by the constructor. *)
Record TopicIds : Type :=
  { transactions_topic : option TopicId;
    tontines_topic : option TopicId;
    compliance_topic : option TopicId;
    security_topic : option TopicId }.

(** Lines 291-303. [createCipheriv] refuses a key that is not 32 bytes. *)
Definition encryptMessage (msg : string) : IO string :=
  fun w =>
    match HCS_ENCRYPTION_KEY w with
    | None =>
        (Rejected (TypeError "The first argument must be of type string"), w)
    | Some hexkey =>
      let key := Buffer_from_hex hexkey in
      let iv := random w (draws w) in
      let w1 := update_draws S w in
      if (List.length key =? 32)%nat then
        let '(encrypted, authTag) := aes_256_gcm key iv msg in
        (Fulfilled (Buffer_to_hex iv ++ ":" ++ Buffer_to_hex authTag ++ ":" ++ encrypted), w1)
      else (Rejected (mkError "RangeError" "Invalid key length"), w1)
    end.

(** The body of the closure of lines 87-121. *)
Definition submitMessage_operation (topicId : string) (msg : Json) (encrypt : bool)
  : IO MessageSubmitResult :=
  await topic <- (match TopicId_fromString topicId with
                  | inr topic => ret topic
                  | inl e => throw e
                  end);
  let messageString := JSON_stringify msg in
  await messageString <-
    (if encrypt then
       fun w =>
         if negb (truthy (HCS_ENCRYPTION_KEY w))
         then throw missing_key w
         else encryptMessage messageString w
     else ret messageString);
  let messageBuffer := Buffer_from_utf8 messageString in
  let submitTx := TopicMessageSubmitTransaction topic messageBuffer in
  await submitResponse <- execute submitTx;
  await submitReceipt <- getReceipt submitResponse;
  await consensusTimestamp <- (fun w => (Fulfilled (clock w), w)); (* Approximate *)
  console_log ("✅ Message submitted to topic " ++ topicId) ;;
  TransactionMonitor.monitorTransaction (transactionId submitResponse) ;;
  ret {| success := true;
         res_topicId := topicId;
         res_transactionId := transactionId submitResponse;
         consensusTimestamp := consensusTimestamp;
         sequenceNumber := match topicSequenceNumber submitReceipt with
                           | Some n => n
                           | None => 0%Z
                           end |}.

(** [encrypt] defaults to [false]. *)
Definition submitMessage (topicId : string) (msg : Json) (encrypt : option bool) :=
  Services.with_retry
    (submitMessage_operation topicId msg
       (match encrypt with Some b => b | None => false end)).

Inductive ComplianceEventType : Type :=
| KYC_COMPLETED | AML_SCREENING | SANCTIONS_CHECK | RISK_ASSESSMENT.

Definition eventType_string (t : ComplianceEventType) : string :=
  match t with
  | KYC_COMPLETED => "KYC_COMPLETED"
  | AML_SCREENING => "AML_SCREENING"
  | SANCTIONS_CHECK => "SANCTIONS_CHECK"
  | RISK_ASSESSMENT => "RISK_ASSESSMENT"
  end.

Record ComplianceEvent : Type :=
  { userId : string;
    eventType : ComplianceEventType;
    result : string;
    score : option Q;
    metadata : option Json }.

Definition optional (key : string) (v : option Json) : list (string * Json) :=
  match v with
  | Some j => [(key, j)]
  | None => []
  end.

(** Lines 207-217. *)
Definition compliance_logEntry (now : string) (complianceEvent : ComplianceEvent) : Json :=
  JObject
    [ ("type", JString "COMPLIANCE_EVENT");
      ("timestamp", JString now);
      ("data",
       JObject ([ ("userId", JString (hashUserId (userId complianceEvent)));
                  ("eventType", JString (eventType_string (eventType complianceEvent)));
                  ("result", JString (result complianceEvent)) ]
                  ++ optional "score" (option_map JNumber (score complianceEvent))
                  ++ optional "metadata" (metadata complianceEvent))%list) ].

(** Lines 196-226. The trace is that of the executor inside
    [submitMessage]. *)
Definition logComplianceEvent (topicIds : TopicIds) (complianceEvent : ComplianceEvent)
  : World -> promise JsError unit * list ErrorHandler.retry_event * World :=
  fun w =>
    match compliance_topic topicIds with
    | None => (Rejected (Error "Compliance topic not initialized"), [], w)
    | Some topic =>
      let logEntry := compliance_logEntry (clock w) complianceEvent in
      match submitMessage topic logEntry (Some true) w with
      | (Fulfilled _, tr, w1) =>
          (Fulfilled tt, tr,
           snd (console_log ("Compliance event logged: "
                             ++ eventType_string (eventType complianceEvent)) w1))
      | (Rejected e, tr, w1) => (Rejected (Services.thrown_value e), tr, w1)
      | (Pending, tr, w1) => (Pending, tr, w1)
      end
    end.
End Service.

End ConsensusService.


(* ================================================================== *)
(** * Segments of a payload *)

Module Segments.
Import Runtime.

(** The number of segments of size [n] that start at or after offset [i]. *)
Definition segments_from (len n i : Z) : nat := Z.to_nat ((len - i + n - 1) / n).

(** The [count] consecutive slices of width [n] that start at offset [i]. *)
Definition slices (p : Buffer) (n i : Z) (count : nat) : list Buffer :=
  map (fun j => slice p (i + Z.of_nat j * n) (i + (Z.of_nat j + 1) * n)) (seq 0 count).

End Segments.


(* ================================================================== *)
(** * What the properties observe *)

Module Observations.
Import Runtime.
Local Open Scope string_scope.

(** The URL that [monitorTransaction] reads. *)
Definition url_of (transactionId : string) : string :=
  TransactionMonitor.mirrorNodeUrl ++ "/api/v1/transactions/" ++ transactionId.

(** What a poll leaves alone: the environment and the ledger. *)
Definition preserves_ledger (w w1 : World) : Prop :=
  mirror w1 = mirror w
  /\ ledger_execute w1 = ledger_execute w
  /\ ledger_receipt w1 = ledger_receipt w
  /\ HCS_ENCRYPTION_KEY w1 = HCS_ENCRYPTION_KEY w
  /\ ledger_calls w1 = ledger_calls w.

(** The log of ledger calls has only grown. *)
Definition grows (w w' : World) : Prop :=
  exists calls, ledger_calls w' = (ledger_calls w ++ calls)%list.

Definition Grows {A} (m : IO A) : Prop := forall w, grows w (snd (m w)).

(** The transaction that [createFile] creates the file with: chunk 0. *)
Definition createFile_tx (operatorPublicKey : Key) (fileConfig : FileService.FileConfig)
  : Transaction :=
  let contents :=
      match FileService.cfg_contents fileConfig with
      | inr text => Buffer_from_utf8 text
      | inl buffer => buffer
      end in
  FileCreateTransaction
    (match FileService.cfg_keys fileConfig with Some ks => ks | None => [operatorPublicKey] end)
    (nth_error (Segments.slices contents FileService.chunkSize 0
                  (Segments.segments_from (Z.of_nat (List.length contents))
                                             FileService.chunkSize 0)) 0)
    (FileService.cfg_expirationTime fileConfig)
    (FileService.nonempty (FileService.cfg_memo fileConfig)).

(** The transaction that [deployLargeContract] creates the file with. *)
Definition deploy_tx (operatorPublicKey : Key) (contractBytecode : string) : Transaction :=
  FileCreateTransaction [operatorPublicKey]
    (Some (slice (Buffer_from_hex contractBytecode) 0 4096)) None None.

(** The contents that [deployLargeContract] hands to the ledger, with the
    segment size as a parameter: [slice(0, n)] in the create call, then the
    slices at the offsets [n], [2n], ... below the length. *)
Definition create_then_append (p : Buffer) (n : Z) : list Buffer :=
  slice p 0 n
  :: Segments.slices p n n (Segments.segments_from (Z.of_nat (List.length p)) n n).

(** The contents of the file transactions of a log, in the order they were
    sent. *)
Definition file_contents (calls : list LedgerCall) : list Buffer :=
  flat_map (fun call =>
              match call with
              | Execute (FileCreateTransaction _ (Some contents) _ _) => [contents]
              | Execute (FileAppendTransaction _ (Some contents)) => [contents]
              | _ => []
              end) calls.

(** A ledger that accepts every transaction and answers every receipt
    query with a receipt that names a file. *)
Definition accepting (w : World) : Prop :=
  (forall history tx, exists response, ledger_execute w history tx = inr response)
  /\ (forall history response,
         exists receipt fid,
           ledger_receipt w history response = inr receipt
           /\ fileId receipt = Some fid).

Definition same_oracles (w w1 : World) : Prop :=
  ledger_execute w1 = ledger_execute w /\ ledger_receipt w1 = ledger_receipt w.

End Observations.

(* ================================================================== *)
(** * Concrete environments *)

Module Fixtures.
Import Runtime TransactionMonitor.
Local Open Scope string_scope.

(** A world in which nothing has happened yet. *)
Definition fresh_world
           (mirror : nat -> string -> FetchResult)
           (ledger_execute : list LedgerCall -> Transaction -> JsError + TransactionResponse)
           (ledger_receipt : list LedgerCall -> TransactionResponse -> JsError + TransactionReceipt)
           (key : option string) : World :=
  {| mirror := mirror; ledger_execute := ledger_execute;
     ledger_receipt := ledger_receipt; HCS_ENCRYPTION_KEY := key;
     clock := "2025-01-01T00:00:00.000Z"; random := fun _ => [];
     draws := O; fetched := []; ledger_calls := []; console := []; timers := [] |}.

(** A mirror node that has no record of the transaction for its first [m]
    reads and a confirmed one from then on. *)
Definition mirror_confirming_after (m : nat) : nat -> string -> FetchResult :=
  fun n _ =>
    if (n <? m)%nat then Response true (inr {| transactions := Some [] |})
    else confirmed_record "1700000000.000000001".

(** A mirror node that answers 404 for ever. *)
Definition mirror_never : nat -> string -> FetchResult :=
  fun _ _ => Response false (inl (Error "Not Found")).

(** A ledger on which every call succeeds. *)
Definition ledger_accepts : list LedgerCall -> Transaction -> JsError + TransactionResponse :=
  fun _ _ => inr {| transactionId := "0.0.2@1700000000.000000000" |}.

Definition ledger_receipts : list LedgerCall -> TransactionResponse -> JsError + TransactionReceipt :=
  fun _ _ => inr {| fileId := Some "0.0.1001"; contractId := Some "0.0.1002";
                    topicSequenceNumber := Some 1%Z |}.

Definition polling_world (mirror : nat -> string -> FetchResult) : World :=
  fresh_world mirror ledger_accepts ledger_receipts None.

(** A ledger that turns down the first append it is asked for, with a
    transient error, and accepts every other call. *)
Definition is_append (call : LedgerCall) : bool :=
  match call with
  | Execute (FileAppendTransaction _ _) => true
  | _ => false
  end.

Definition ledger_busy_once : list LedgerCall -> Transaction -> JsError + TransactionResponse :=
  fun history tx =>
    match tx with
    | FileAppendTransaction _ _ =>
        if existsb is_append history then ledger_accepts history tx
        else inl (mkError "StatusError" "BUSY")
    | _ => ledger_accepts history tx
    end.

Definition flaky_ledger_world : World :=
  fresh_world (mirror_confirming_after 0) ledger_busy_once ledger_receipts None.

(** What a call is and how many bytes of content it carries. *)
Definition describe (call : LedgerCall) : string * Z :=
  let size (contents : option Buffer) :=
      match contents with
      | Some buf => Z.of_nat (List.length buf)
      | None => (-1)%Z
      end in
  match call with
  | Execute (FileCreateTransaction _ contents _ _) => ("create", size contents)
  | Execute (FileAppendTransaction _ contents) => ("append", size contents)
  | Execute (ContractCreateTransaction _ _ _ _) => ("contract", 0%Z)
  | Execute (TopicMessageSubmitTransaction _ msg) => ("message", Z.of_nat (List.length msg))
  | GetReceipt _ => ("receipt", 0%Z)
  end.

Definition is_create (call : LedgerCall) : bool :=
  match call with
  | Execute (FileCreateTransaction _ _ _ _) => true
  | _ => false
  end.

(** A file of 6145 bytes: two chunks, of 6144 bytes and of 1 byte. *)
Definition two_chunk_file : FileService.FileConfig :=
  {| FileService.cfg_contents := inl (repeat Byte.x00 (Z.to_nat 6145));
     FileService.cfg_fileName := Some "deed.pdf";
     FileService.cfg_keys := None;
     FileService.cfg_expirationTime := None;
     FileService.cfg_memo := None |}.

(** Its upload on the ledger that is busy once. *)
Definition createFile_on_busy_ledger :=
  FileService.createFile "operator" two_chunk_file flaky_ledger_world.

(** Bytecode of 4097 bytes, as 8194 hexadecimal digits. *)
Definition two_chunk_bytecode : string :=
  string_of_list_ascii (repeat "0"%char (Z.to_nat 8194)).

(** Stand-ins for the SDK's parser, the serialiser and the cipher. *)
Definition parse_topic : string -> JsError + TopicId := fun s => inr s.
Definition stringify : ConsensusService.Json -> string := fun _ => "{}".
Definition cipher : Buffer -> Buffer -> string -> string * Buffer :=
  fun _ _ plaintext => (plaintext, []).

(** A world whose environment has no [HCS_ENCRYPTION_KEY]. *)
Definition keyless_world : World :=
  fresh_world (mirror_confirming_after 0) ledger_accepts ledger_receipts None.

End Fixtures.


(* ================================================================== *)
(** * Further readings of the executor's trace *)

Module RetryReadings.
Import ErrorHandler.

(** The time spent in the timers of a run, in milliseconds. *)
Definition total_delay (tr : list retry_event) : Z := fold_right Z.add 0 (delays tr).

Definition is_warn (ev : retry_event) : bool :=
  match ev with Warn _ _ _ => true | _ => false end.

Definition warnings (tr : list retry_event) : nat := List.length (filter is_warn tr).

End RetryReadings.


(* ================================================================== *)
(** * What one poll writes on the console *)

Module MonitorReadings.
Import Runtime.
Local Open Scope string_scope.

(** The console line of a poll, by what the mirror node answered: a warning
    when something in the [try] block threw, the confirmation when line 11
    accepted the answer, nothing otherwise. *)
Definition poll_console (r : FetchResult) : list ConsoleLine :=
  match r with
  | FetchRejects _ => [Warning "Monitor poll failed:"]
  | Response false _ => []
  | Response true (inl _) => [Warning "Monitor poll failed:"]
  | Response true (inr data) =>
    match transactions data with
    | None => []
    | Some [] => []
    | Some (None :: _) => [Warning "Monitor poll failed:"]
    | Some (Some tx :: _) =>
        if truthy (consensus_timestamp tx) then [Log "Transaction confirmed:"] else []
    end
  end.

(** A mirror node that cannot be reached: every [fetch] throws. *)
Definition unreachable (w : World) : Prop :=
  forall n url, exists e, mirror w n url = FetchRejects e.

End MonitorReadings.


(* ================================================================== *)
(** * services/hedera/file.service.ts: updateFile *)

Module FileUpdate.
Import Runtime.
Local Open Scope io_scope.
Local Open Scope string_scope.

Section Service.
(** The SDK's parser of file identifiers. *)
Variable FileId_fromString : string -> JsError + FileId.

(** The body of the closure of lines 440-463. *)
Definition updateFile_operation (fileId : string) (contents : Buffer + string)
  : IO FileService.FileOperationResult :=
  await file <- (match FileId_fromString fileId with
                 | inr file => ret file
                 | inl e => throw e
                 end);
  let appendContents :=
      match contents with
      | inr text => Buffer_from_utf8 text
      | inl buffer => buffer
      end in
  let updateTx := FileAppendTransaction file (Some appendContents) in
  await updateSubmit <- execute updateTx;
  await updateReceipt <- getReceipt updateSubmit;
  console_log ("✅ File " ++ fileId ++ " updated") ;;
  TransactionMonitor.monitorTransaction (transactionId updateSubmit) ;;
  ret {| FileService.success := true;
         FileService.res_fileId := fileId;
         FileService.res_transactionId := transactionId updateSubmit;
         FileService.explorerUrl := "https://hashscan.io/mainnet/file/" ++ fileId |}.

Definition updateFile (fileId : string) (contents : Buffer + string) :=
  Services.with_retry (updateFile_operation fileId contents).
End Service.

End FileUpdate.

(* ================================================================== *)
(** * Ledgers for the upload properties *)

Module UploadReadings.
Import Runtime.

(** The contents of a file configuration, as bytes (lines 372-374). *)
Definition contents_of (fileConfig : FileService.FileConfig) : Buffer :=
  match FileService.cfg_contents fileConfig with
  | inr text => Buffer_from_utf8 text
  | inl buffer => buffer
  end.

(** The chunks [createFile] cuts a payload into. *)
Definition chunks_of (contents : Buffer) : list Buffer :=
  Segments.slices contents FileService.chunkSize 0
    (Segments.segments_from (Z.of_nat (List.length contents)) FileService.chunkSize 0).



(** How many times a transaction was executed in a log. *)
Definition executions (same : Transaction -> bool) (calls : list LedgerCall) : nat :=
  List.length (filter (fun call => match call with
                                   | Execute tx => same tx
                                   | GetReceipt _ => false
                                   end) calls).

Definition is_append_of (contents : Buffer) (tx : Transaction) : bool :=
  match tx with
  | FileAppendTransaction _ (Some sent) =>
      if list_eq_dec Byte.byte_eq_dec sent contents then true else false
  | _ => false
  end.

End UploadReadings.


(* ================================================================== *)
(** * More concrete environments *)

Module MoreFixtures.
Import Runtime.
Local Open Scope string_scope.



(** A ledger whose first receipt query fails and which accepts everything
    else. *)
Definition is_receipt (call : LedgerCall) : bool :=
  match call with GetReceipt _ => true | Execute _ => false end.

Definition receipt_lost_once
  : list LedgerCall -> TransactionResponse -> JsError + TransactionReceipt :=
  fun history response =>
    if existsb is_receipt history then Fixtures.ledger_receipts history response
    else inl (mkError "StatusError" "RECEIPT_NOT_FOUND").

Definition lost_receipt_world : World :=
  Fixtures.fresh_world (Fixtures.mirror_confirming_after 0) Fixtures.ledger_accepts
                       receipt_lost_once None.

(** An empty file. *)
Definition empty_file : FileService.FileConfig :=
  {| FileService.cfg_contents := inr "";
     FileService.cfg_fileName := None;
     FileService.cfg_keys := None;
     FileService.cfg_expirationTime := None;
     FileService.cfg_memo := None |}.

(** The SDK's parser of identifiers, on well-formed ones. *)
Definition parse_id : string -> JsError + string := fun s => inr s.

End MoreFixtures.


(* ================================================================== *)
(** * Readings for updateFile and deployLargeContract *)

Module UpdateReadings.
Import Runtime.

(** The bytes [updateFile] appends (lines 442-444). *)
Definition bytes_of (contents : Buffer + string) : Buffer :=
  match contents with
  | inr text => Buffer_from_utf8 text
  | inl buffer => buffer
  end.


End UpdateReadings.


(* ================================================================== *)
(** * services/hedera/consensus.service.ts: the other loggers *)

Module AuditLoggers.
Import Runtime ConsensusService.
Local Open Scope string_scope.

(** [id ? this.hashUserId(id) : null] on an optional string: [undefined]
    and the empty string give [null]. *)
Definition hashed_or_null (hash : string -> string) (id : option string) : Json :=
  match id with
  | Some s => if String.eqb s "" then JNull else JString (hash s)
  | None => JNull
  end.

Record TransactionLog : Type :=
  { tx_transactionId : string;
    tx_userId : string;
    tx_type : string;
    tx_amount : Q;
    tx_currency : string;
    tx_recipientId : option string;
    tx_status : string;
    tx_metadata : option Json }.

(** Lines 138-151. *)
Definition transaction_logEntry (now : string) (transaction : TransactionLog) : Json :=
  JObject
    [ ("type", JString "TRANSACTION_LOG");
      ("timestamp", JString now);
      ("data",
       JObject ([ ("transactionId", JString (tx_transactionId transaction));
                  ("userId", JString (hashUserId (tx_userId transaction)));
                  ("transactionType", JString (tx_type transaction));
                  ("amount", JNumber (tx_amount transaction));
                  ("currency", JString (tx_currency transaction));
                  ("recipientId", hashed_or_null hashUserId (tx_recipientId transaction));
                  ("status", JString (tx_status transaction)) ]
                  ++ optional "metadata" (tx_metadata transaction))%list) ].

Inductive TontineActivityType : Type :=
| CREATED | MEMBER_JOINED | CONTRIBUTION | PAYOUT | COMPLETED.

Definition activityType_string (t : TontineActivityType) : string :=
  match t with
  | CREATED => "CREATED"
  | MEMBER_JOINED => "MEMBER_JOINED"
  | CONTRIBUTION => "CONTRIBUTION"
  | PAYOUT => "PAYOUT"
  | COMPLETED => "COMPLETED"
  end.

Record TontineActivity : Type :=
  { ta_tontineId : string;
    ta_activityType : TontineActivityType;
    ta_userId : option string;
    ta_amount : option Q;
    ta_cycle : option Q;
    ta_metadata : option Json }.

(** Lines 174-185. *)
Definition tontine_logEntry (now : string) (activity : TontineActivity) : Json :=
  JObject
    [ ("type", JString "TONTINE_ACTIVITY");
      ("timestamp", JString now);
      ("data",
       JObject ([ ("tontineId", JString (ta_tontineId activity));
                  ("activityType", JString (activityType_string (ta_activityType activity)));
                  ("userId", hashed_or_null hashUserId (ta_userId activity)) ]
                  ++ optional "amount" (option_map JNumber (ta_amount activity))
                  ++ optional "cycle" (option_map JNumber (ta_cycle activity))
                  ++ optional "metadata" (ta_metadata activity))%list) ].

Inductive Severity : Type := LOW | MEDIUM | HIGH | CRITICAL.

Definition severity_string (s : Severity) : string :=
  match s with
  | LOW => "LOW"
  | MEDIUM => "MEDIUM"
  | HIGH => "HIGH"
  | CRITICAL => "CRITICAL"
  end.

Record SecurityEvent : Type :=
  { se_userId : option string;
    se_eventType : string;
    se_severity : Severity;
    se_ipAddress : option string;
    se_deviceId : option string;
    se_description : string }.

(** Lines 240-251. *)
Definition security_logEntry (now : string) (securityEvent : SecurityEvent) : Json :=
  JObject
    [ ("type", JString "SECURITY_EVENT");
      ("timestamp", JString now);
      ("data",
       JObject ([ ("userId", hashed_or_null hashUserId (se_userId securityEvent));
                  ("eventType", JString (se_eventType securityEvent));
                  ("severity", JString (severity_string (se_severity securityEvent)));
                  ("ipAddress", hashed_or_null hashIpAddress (se_ipAddress securityEvent)) ]
                  ++ optional "deviceId" (option_map JString (se_deviceId securityEvent))
                  ++ [ ("description", JString (se_description securityEvent)) ])%list) ].

Section Service.
Variable TopicId_fromString : string -> JsError + TopicId.
Variable JSON_stringify : Json -> string.
Variable aes_256_gcm : Buffer -> Buffer -> string -> string * Buffer.

(** What follows [await this.submitMessage(...)] in each logger: the
    confirmation line on success, the rejection passed on otherwise. *)
Definition then_log {T} (line : string)
           (run : promise (ErrorHandler.retry_error JsError) T
                  * list ErrorHandler.retry_event * World)
  : promise JsError unit * list ErrorHandler.retry_event * World :=
  match run with
  | (Fulfilled _, tr, w1) => (Fulfilled tt, tr, snd (console_log line w1))
  | (Rejected e, tr, w1) => (Rejected (Services.thrown_value e), tr, w1)
  | (Pending, tr, w1) => (Pending, tr, w1)
  end.

(** Lines 124-160. *)
Definition logTransaction (topicIds : TopicIds) (transaction : TransactionLog)
  : World -> promise JsError unit * list ErrorHandler.retry_event * World :=
  fun w =>
    match transactions_topic topicIds with
    | None => (Rejected (Error "Transactions topic not initialized"), [], w)
    | Some topic =>
      let logEntry := transaction_logEntry (clock w) transaction in
      then_log ("Transaction " ++ tx_transactionId transaction ++ " logged to HCS")
               (submitMessage TopicId_fromString JSON_stringify aes_256_gcm
                              topic logEntry (Some false) w)
    end.

(** Lines 162-194. *)
Definition logTontineActivity (topicIds : TopicIds) (activity : TontineActivity)
  : World -> promise JsError unit * list ErrorHandler.retry_event * World :=
  fun w =>
    match tontines_topic topicIds with
    | None => (Rejected (Error "Tontines topic not initialized"), [], w)
    | Some topic =>
      let logEntry := tontine_logEntry (clock w) activity in
      then_log ("Tontine activity logged: " ++ activityType_string (ta_activityType activity))
               (submitMessage TopicId_fromString JSON_stringify aes_256_gcm
                              topic logEntry (Some false) w)
    end.

(** Lines 228-260. *)
Definition logSecurityEvent (topicIds : TopicIds) (securityEvent : SecurityEvent)
  : World -> promise JsError unit * list ErrorHandler.retry_event * World :=
  fun w =>
    match security_topic topicIds with
    | None => (Rejected (Error "Security topic not initialized"), [], w)
    | Some topic =>
      let logEntry := security_logEntry (clock w) securityEvent in
      then_log ("Security event logged: " ++ se_eventType securityEvent ++ " - "
                  ++ severity_string (se_severity securityEvent))
               (submitMessage TopicId_fromString JSON_stringify aes_256_gcm
                              topic logEntry (Some true) w)
    end.
End Service.

(** ** Readings *)

(** The member [key] of an object. *)
Fixpoint lookup (key : string) (members : list (string * Json)) : option Json :=
  match members with
  | [] => None
  | (k, v) :: rest => if String.eqb k key then Some v else lookup key rest
  end.

Definition member (key : string) (j : Json) : option Json :=
  match j with
  | JObject members => lookup key members
  | _ => None
  end.

(** [data.key] of a log entry. *)
Definition data_member (key : string) (entry : Json) : option Json :=
  match member "data" entry with
  | Some data => member key data
  | None => None
  end.

(** [null], or a pseudonym: 16 characters among [0-9a-f]. *)
Definition pseudonym_or_null (v : option Json) : Prop :=
  v = Some JNull
  \/ exists h, v = Some (JString h)
               /\ String.length h = 16%nat
               /\ Sha256.string_forall Sha256.is_lower_hex h = true.

(** The message a plaintext submission puts on the ledger. *)
Definition plaintext_submission (JSON_stringify : Json -> string) (topic : TopicId)
           (entry : Json) : Transaction :=
  TopicMessageSubmitTransaction topic (Buffer_from_utf8 (JSON_stringify entry)).

End AuditLoggers.


(* ================================================================== *)
(** * Environments for the audit log *)

Module AuditFixtures.
Import Runtime ConsensusService AuditLoggers.
Local Open Scope string_scope.

(** A ledger that answers every transaction and every receipt query. *)
Definition answering (w : World) : Prop :=
  (forall history tx, exists response, ledger_execute w history tx = inr response)
  /\ (forall history response,
         exists receipt, ledger_receipt w history response = inr receipt).

(** A key of 32 bytes, as 64 hexadecimal digits. *)
Definition hexkey : string := string_of_list_ascii (repeat "a"%char 64).

(** A world with that key, whose random source yields 16 bytes. *)
Definition keyed_world : World :=
  {| mirror := Fixtures.mirror_confirming_after 0;
     ledger_execute := Fixtures.ledger_accepts;
     ledger_receipt := Fixtures.ledger_receipts;
     HCS_ENCRYPTION_KEY := Some hexkey;
     clock := "2025-01-01T00:00:00.000Z";
     random := fun _ => repeat Byte.x2a 16;
     draws := O; fetched := []; ledger_calls := []; console := []; timers := [] |}.

(** A stand-in for the cipher: a fixed ciphertext and a tag of 16 bytes. *)
Definition sealed : Buffer -> Buffer -> string -> string * Buffer :=
  fun _ _ _ => ("c0ffee", repeat Byte.x01 16).

Definition topics : TopicIds :=
  {| transactions_topic := Some "0.0.5001";
     tontines_topic := Some "0.0.5002";
     compliance_topic := Some "0.0.5003";
     security_topic := Some "0.0.5004" |}.

Definition a_transfer : TransactionLog :=
  {| tx_transactionId := "tx-1"; tx_userId := "user-42"; tx_type := "TRANSFER";
     tx_amount := inject_Z 2500; tx_currency := "XOF";
     tx_recipientId := Some "user-43"; tx_status := "COMPLETED";
     tx_metadata := None |}.

Definition a_payout : TontineActivity :=
  {| ta_tontineId := "tontine-7"; ta_activityType := PAYOUT;
     ta_userId := None; ta_amount := Some (inject_Z 120000);
     ta_cycle := Some (inject_Z 3); ta_metadata := None |}.

Definition a_login_failure : SecurityEvent :=
  {| se_userId := Some "user-42"; se_eventType := "LOGIN_FAILED";
     se_severity := HIGH; se_ipAddress := Some "41.82.10.7";
     se_deviceId := Some "device-9"; se_description := "three wrong PINs" |}.

Definition a_kyc : ComplianceEvent :=
  {| userId := "user-42"; eventType := KYC_COMPLETED; result := "PASS";
     score := None; metadata := None |}.

End AuditFixtures.


(* ================================================================== *)
(** * Contract calls: the node, as the contract methods see it *)

Module ContractRuntime.
Import Runtime.

(** [Math.ceil] of a finite double, as the integer it denotes. *)
Definition Math_ceil (x : float) : Z :=
  match Prim2SF x with
  | S754_finite s m e =>
    let v := if s then Z.neg m else Z.pos m in
    if 0 <=? e then v * 2 ^ e else - ((- v) / 2 ^ (- e))
  | _ => 0
  end.

Inductive Argument : Type :=
| ArgString (s : string)     (* addString *)
| ArgUint8 (v : Z)           (* addUint8 *)
| ArgUint256 (v : Z).        (* addUint256 *)

(** [new ContractFunctionParameters()] is the empty list. *)
Definition ContractFunctionParameters : Type := list Argument.

Definition Hbar : Type := float.

Record ContractCallQuery : Type :=
  { q_contractId : ContractId;
    q_gas : Z;
    q_function : string;
    q_params : ContractFunctionParameters }.

(** [x_params] is [None] when [setFunction] is handed [undefined]. *)
Record ContractExecuteTransaction : Type :=
  { x_contractId : ContractId;
    x_gas : Z;
    x_function : string;
    x_params : option ContractFunctionParameters;
    x_payableAmount : option Hbar }.

Record ContractReceipt : Type :=
  { status : string;
    gasUsed : option Z }.

(** A call made on the node by the contract methods. *)
Inductive NodeCall : Type :=
| CallQuery (query : ContractCallQuery)
| ExecuteContract (tx : ContractExecuteTransaction)
| ReceiptOf (response : TransactionResponse).

(** The world of the contract methods: the world of the other services,
    how the node answers a query (with an error or not; the answer itself is
    not read), an execution and a receipt request given the calls made
    before, the calls made so far, and what the executors that ran inside an
    operation did. *)
Record ContractWorld : Type :=
  { ledger : World;
    query_execute : list NodeCall -> ContractCallQuery -> option JsError;
    contract_execute : list NodeCall -> ContractExecuteTransaction
                       -> JsError + TransactionResponse;
    contract_receipt : list NodeCall -> TransactionResponse -> JsError + ContractReceipt;
    node_calls : list NodeCall;
    inner_retries : list ErrorHandler.retry_event }.

Definition CIO (T : Type) : Type := Async ContractWorld JsError T.

(** [return], [throw], [await] and [try]/[catch], over any world. *)
Definition cret {W T} (v : T) : Async W JsError T := fun cw => (Fulfilled v, cw).
Definition cthrow {W T} (e : JsError) : Async W JsError T := fun cw => (Rejected e, cw).

Definition cbind {W A B} (m : Async W JsError A) (k : A -> Async W JsError B)
  : Async W JsError B :=
  fun cw =>
    match m cw with
    | (Fulfilled a, cw1) => k a cw1
    | (Rejected e, cw1) => (Rejected e, cw1)
    | (Pending, cw1) => (Pending, cw1)
    end.

Definition ctry_catch {W A} (body : Async W JsError A)
           (handler : JsError -> Async W JsError A) : Async W JsError A :=
  fun cw =>
    match body cw with
    | (Rejected e, cw1) => handler e cw1
    | settled => settled
    end.

Definition update_ledger (f : World -> World) (cw : ContractWorld) : ContractWorld :=
  {| ledger := f (ledger cw); query_execute := query_execute cw;
     contract_execute := contract_execute cw; contract_receipt := contract_receipt cw;
     node_calls := node_calls cw; inner_retries := inner_retries cw |}.

Definition update_node_calls (f : list NodeCall -> list NodeCall) (cw : ContractWorld)
  : ContractWorld :=
  {| ledger := ledger cw; query_execute := query_execute cw;
     contract_execute := contract_execute cw; contract_receipt := contract_receipt cw;
     node_calls := f (node_calls cw); inner_retries := inner_retries cw |}.

Definition update_inner_retries
           (f : list ErrorHandler.retry_event -> list ErrorHandler.retry_event)
           (cw : ContractWorld) : ContractWorld :=
  {| ledger := ledger cw; query_execute := query_execute cw;
     contract_execute := contract_execute cw; contract_receipt := contract_receipt cw;
     node_calls := node_calls cw; inner_retries := f (inner_retries cw) |}.

(** A function of the other services ([console.log], [monitorTransaction]),
    run from here. *)
Definition lift {T} (m : IO T) : CIO T :=
  fun cw => let '(r, w1) := m (ledger cw) in (r, update_ledger (fun _ => w1) cw).

(** [await query.execute(client)] *)
Definition run_query (query : ContractCallQuery) : CIO unit :=
  fun cw =>
    let cw1 := update_node_calls (fun l => l ++ [CallQuery query]) cw in
    match query_execute cw (node_calls cw) query with
    | Some e => (Rejected e, cw1)
    | None => (Fulfilled tt, cw1)
    end.

(** [await tx.execute(this.client)] *)
Definition execute_contract (tx : ContractExecuteTransaction) : CIO TransactionResponse :=
  fun cw =>
    let cw1 := update_node_calls (fun l => l ++ [ExecuteContract tx]) cw in
    match contract_execute cw (node_calls cw) tx with
    | inl e => (Rejected e, cw1)
    | inr response => (Fulfilled response, cw1)
    end.

(** [await response.getReceipt(this.client)] *)
Definition get_contract_receipt (response : TransactionResponse) : CIO ContractReceipt :=
  fun cw =>
    let cw1 := update_node_calls (fun l => l ++ [ReceiptOf response]) cw in
    match contract_receipt cw (node_calls cw) response with
    | inl e => (Rejected e, cw1)
    | inr receipt => (Fulfilled receipt, cw1)
    end.

End ContractRuntime.

Declare Scope cio_scope.
Delimit Scope cio_scope with cio.
Notation "'await' x <- m ; k" := (ContractRuntime.cbind m (fun x => k))
  (at level 61, x name, m at next level, right associativity) : cio_scope.
Notation "m ;; k" := (ContractRuntime.cbind m (fun _ => k))
  (at level 61, right associativity) : cio_scope.

(* ================================================================== *)
(** * utils/gas-estimator.ts *)

Module GasEstimator.
Import Runtime ContractRuntime.
Local Open Scope cio_scope.
Local Open Scope string_scope.

Section Estimator.
(** The SDK's parser of contract identifiers. *)
Variable ContractId_fromString : string -> JsError + ContractId.

(** Line 19: [Math.ceil(50000 * 1.2)], in double precision. *)
Definition buffered : Z := Math_ceil (50000 * 1.2)%float.

(** Lines 6-24. *)
Definition estimateGas (contractId functionName : string)
           (params : ContractFunctionParameters) : CIO Z :=
  ctry_catch
    (await contract <- (match ContractId_fromString contractId with
                        | inr contract => cret contract
                        | inl e => cthrow e
                        end);
     let query := {| q_contractId := contract; q_gas := 50000;
                     q_function := functionName; q_params := params |} in
     run_query query ;;
     cret buffered) (* 20% buffer *)
    (fun error =>
       lift (console_warn ("Gas estimation failed: " ++ message error)) ;;
       cret 100000%Z). (* Default *)
End Estimator.

End GasEstimator.

(* ================================================================== *)
(** * services/hedera/smart-contract.service.ts: contract functions *)

Module ContractExecution.
Import Runtime ContractRuntime.
Local Open Scope cio_scope.
Local Open Scope string_scope.

Record ContractExecutionResult : Type :=
  { success : bool;
    res_contractId : string;
    functionName : string;
    res_transactionId : string;
    res_status : string;
    res_gasUsed : Z }.

Section Service.
Variable ContractId_fromString : string -> JsError + ContractId.
(** How a number prints in a template literal. *)
Variable Number_toString : Z -> string.

(** The body of the closure of lines 133-163. *)
Definition executeContractFunction_operation
           (contractId functionName : string)
           (functionParams : option ContractFunctionParameters)
           (gas : Z) (payableAmount : option Hbar)
  : CIO ContractExecutionResult :=
  await contract <- (match ContractId_fromString contractId with
                     | inr contract => cret contract
                     | inl e => cthrow e
                     end);
  await estimatedGas <-
    GasEstimator.estimateGas ContractId_fromString contractId functionName
      (match functionParams with Some ps => ps | None => [] end);
  let finalGas := Z.max gas estimatedGas in
  let contractExecuteTx :=
      {| x_contractId := contract; x_gas := finalGas; x_function := functionName;
         x_params := functionParams; x_payableAmount := payableAmount |} in
  await contractExecuteSubmit <- execute_contract contractExecuteTx;
  await contractExecuteReceipt <- get_contract_receipt contractExecuteSubmit;
  lift (console_log ("✅ Contract function executed: " ++ functionName)) ;;
  lift (TransactionMonitor.monitorTransaction (transactionId contractExecuteSubmit)) ;;
  cret {| success := true;
          res_contractId := contractId;
          functionName := functionName;
          res_transactionId := transactionId contractExecuteSubmit;
          res_status := status contractExecuteReceipt;
          res_gasUsed := match gasUsed contractExecuteReceipt with
                         | Some n => n
                         | None => 0%Z
                         end |}.

(** Lines 126-164: the method, as an operation of its callers. It runs its
    own executor with the default bound; what that executor did is added to
    [inner_retries], and the caller sees the value it threw. [gas] defaults
    to 100000. *)
Definition executeContractFunction
           (contractId functionName : string)
           (functionParams : option ContractFunctionParameters)
           (gas : option Z) (payableAmount : option Hbar)
  : CIO ContractExecutionResult :=
  fun cw =>
    let '(r, tr, cw1) :=
        ErrorHandler.executeWithRetry
          error_message
          (executeContractFunction_operation
             contractId functionName functionParams
             (match gas with Some g => g | None => 100000%Z end) payableAmount)
          (inject_Z 3) cw in
    let cw2 := update_inner_retries (fun l => (l ++ tr)%list) cw1 in
    match r with
    | Fulfilled result => (Fulfilled result, cw2)
    | Rejected e => (Rejected (Services.thrown_value e), cw2)
    | Pending => (Pending, cw2)
    end.

(** [new ContractFunctionParameters().addUint8(value)], for an integer
    [value]: the SDK encodes the argument at once, and the encoder throws
    on a value that does not fit 8 bits. *)
Definition addUint8 (value : Z) : JsError + ContractFunctionParameters :=
  if (0 <=? value)%Z && (value <=? 255)%Z
  then inr [ArgUint8 value]
  else inl (Error "value out-of-bounds").

(** The body of the closure of lines 239-253. *)
Definition joinTontineCircle_operation (tontineContractId : string) (position : Z)
  : CIO ContractExecutionResult :=
  await functionParams <- (match addUint8 position with
                           | inr params => cret params
                           | inl e => cthrow e
                           end);
  await result <- executeContractFunction tontineContractId "joinTontine"
                    (Some functionParams) (Some 100000%Z) None;
  lift (console_log ("Joined tontine at position " ++ Number_toString position)) ;;
  cret result.

(** Lines 235-254. The trace is that of the outer executor. *)
Definition joinTontineCircle (tontineContractId : string) (position : Z) :=
  ErrorHandler.executeWithRetry
    error_message (joinTontineCircle_operation tontineContractId position) (inject_Z 3).
End Service.

End ContractExecution.

(* ================================================================== *)
(** * Readings of the node's log *)

Module ContractReadings.
Import Runtime ContractRuntime.
Local Open Scope string_scope.

Definition is_execution (call : NodeCall) : bool :=
  match call with ExecuteContract _ => true | _ => false end.

Definition is_query (call : NodeCall) : bool :=
  match call with CallQuery _ => true | _ => false end.

(** The gas of the executions in a log. *)
Fixpoint gas_sent (calls : list NodeCall) : list Z :=
  match calls with
  | [] => []
  | ExecuteContract tx :: rest => x_gas tx :: gas_sent rest
  | _ :: rest => gas_sent rest
  end.

(** The query that [estimateGas] sends. *)
Definition estimation_query (contract : ContractId) (functionName : string)
           (params : ContractFunctionParameters) : ContractCallQuery :=
  {| q_contractId := contract; q_gas := 50000;
     q_function := functionName; q_params := params |}.

(** What [estimateGas] resolves to when it sends [query] from [cw]. *)
Definition estimate_on (cw : ContractWorld) (query : ContractCallQuery) : Z :=
  match query_execute cw (node_calls cw) query with
  | None => 60000
  | Some _ => 100000
  end.

(** [functionParams || new ContractFunctionParameters()] *)
Definition or_empty (functionParams : option ContractFunctionParameters)
  : ContractFunctionParameters :=
  match functionParams with Some ps => ps | None => [] end.

(** The trace of an executor whose operation rejected three times with an
    error of message [m], under the default bound. *)
Definition three_attempts (m : string) : list ErrorHandler.retry_event :=
  [ErrorHandler.Invoke 1; ErrorHandler.Warn 1 m 2000; ErrorHandler.Timeout 2000;
   ErrorHandler.Invoke 2; ErrorHandler.Warn 2 m 4000; ErrorHandler.Timeout 4000;
   ErrorHandler.Invoke 3].

(** What one attempt of [joinTontineCircle]'s inner call puts on the node
    when the execution is turned down: the estimation query, then the
    execution with 100000 gas. *)
Definition join_attempt (contract : ContractId) (position : Z) : list NodeCall :=
  [CallQuery (estimation_query contract "joinTontine" [ArgUint8 position]);
   ExecuteContract {| x_contractId := contract; x_gas := 100000;
                      x_function := "joinTontine";
                      x_params := Some [ArgUint8 position];
                      x_payableAmount := None |}].

(** The calls have grown by executions that all carry one of two amounts
    of gas. *)
Definition sends_gas (a b : Z) (cw cw1 : ContractWorld) : Prop :=
  exists more,
    node_calls cw1 = (node_calls cw ++ more)%list
    /\ Forall (fun sent => sent = a \/ sent = b) (gas_sent more).

(** A node that turns every execution down with the error [e]. *)
Definition refuses_executions (e : JsError) (cw : ContractWorld) : Prop :=
  forall history tx, contract_execute cw history tx = inl e.

(** The calls made since [cw]. *)
Definition calls_since (cw cw1 : ContractWorld) : list NodeCall :=
  skipn (List.length (node_calls cw)) (node_calls cw1).

(** A world in which nothing has happened, on a node that answers queries
    and turns executions down. *)
Definition refusing_world : ContractWorld :=
  {| ledger := Fixtures.keyless_world;
     query_execute := fun _ _ => None;
     contract_execute := fun _ _ => inl (mkError "StatusError" "CONTRACT_REVERT_EXECUTED");
     contract_receipt := fun _ _ => inr {| status := "SUCCESS"; gasUsed := None |};
     node_calls := []; inner_retries := [] |}.

(** A node that answers nothing: queries fail as well. *)
Definition silent_world : ContractWorld :=
  {| ledger := Fixtures.keyless_world;
     query_execute := fun _ _ => Some (mkError "StatusError" "BUSY");
     contract_execute := fun _ _ => inr {| transactionId := "0.0.2@1700000000.000000000" |};
     contract_receipt := fun _ _ => inr {| status := "SUCCESS"; gasUsed := Some 41000 |};
     node_calls := []; inner_retries := [] |}.

End ContractReadings.


(* ================================================================== *)
(** * services/hedera/token.service.ts: transfers and minting *)

Module TokenRuntime.
Import Runtime.

Definition TokenId := string.
Definition AccountId := string.
Definition PrivateKey := string.

(** [transfers] are the [addTokenTransfer] calls, in order; [signer] is the
    key the frozen transaction was signed with. The amount of a mint is the
    argument of [new Hbar(amount)]. *)
Inductive TokenTransaction : Type :=
| TokenMintTransaction (token : TokenId) (amount : Q)
| TransferTransaction (transfers : list (TokenId * AccountId * Q))
                      (memo : option string) (signer : PrivateKey).

Record TokenReceipt : Type := { token_status : string }.

Inductive TokenCall : Type :=
| ExecuteToken (tx : TokenTransaction)
| TokenReceiptOf (response : TransactionResponse).

(** The world of the token methods: how the ledger answers an execution
    and a receipt request given the calls made before, the calls made so
    far, the console, and what the executors that ran inside an operation
    did. *)
Record TokenWorld : Type :=
  { token_execute : list TokenCall -> TokenTransaction -> JsError + TransactionResponse;
    token_receipt : list TokenCall -> TransactionResponse -> JsError + TokenReceipt;
    token_calls : list TokenCall;
    token_console : list ConsoleLine;
    token_retries : list ErrorHandler.retry_event }.

Definition TIO (T : Type) : Type := Async TokenWorld JsError T.

Definition update_token_calls (f : list TokenCall -> list TokenCall) (tw : TokenWorld)
  : TokenWorld :=
  {| token_execute := token_execute tw; token_receipt := token_receipt tw;
     token_calls := f (token_calls tw); token_console := token_console tw;
     token_retries := token_retries tw |}.

Definition update_token_console (f : list ConsoleLine -> list ConsoleLine) (tw : TokenWorld)
  : TokenWorld :=
  {| token_execute := token_execute tw; token_receipt := token_receipt tw;
     token_calls := token_calls tw; token_console := f (token_console tw);
     token_retries := token_retries tw |}.

Definition update_token_retries
           (f : list ErrorHandler.retry_event -> list ErrorHandler.retry_event)
           (tw : TokenWorld) : TokenWorld :=
  {| token_execute := token_execute tw; token_receipt := token_receipt tw;
     token_calls := token_calls tw; token_console := token_console tw;
     token_retries := f (token_retries tw) |}.

Definition token_log (text : string) : TIO unit :=
  fun tw => (Fulfilled tt, update_token_console (fun c => c ++ [Log text]) tw).

(** [await tx.execute(this.client)] *)
Definition execute_token (tx : TokenTransaction) : TIO TransactionResponse :=
  fun tw =>
    let tw1 := update_token_calls (fun l => l ++ [ExecuteToken tx]) tw in
    match token_execute tw (token_calls tw) tx with
    | inl e => (Rejected e, tw1)
    | inr response => (Fulfilled response, tw1)
    end.

(** [await response.getReceipt(this.client)] *)
Definition get_token_receipt (response : TransactionResponse) : TIO TokenReceipt :=
  fun tw =>
    let tw1 := update_token_calls (fun l => l ++ [TokenReceiptOf response]) tw in
    match token_receipt tw (token_calls tw) response with
    | inl e => (Rejected e, tw1)
    | inr receipt => (Fulfilled receipt, tw1)
    end.

(** [new Hbar(amount)] for a finite number: the constructor holds the
    amount in tinybars, 10^8 to the hbar, and throws when that is not a
    whole number. *)
Definition new_Hbar (amount : Q) : JsError + Q :=
  if Qeq_bool (inject_Z (Qfloor (amount * 100000000))) (amount * 100000000)
  then inr amount
  else inl (Error "Hbar in tinybars contains decimals").

(** A value built by the SDK, an identifier parsed or an amount
    converted: a malformed one throws. *)
Definition parsed {T} (r : JsError + T) : TIO T :=
  match r with
  | inr v => ContractRuntime.cret v
  | inl e => ContractRuntime.cthrow e
  end.

End TokenRuntime.

Module TokenService.
Import Runtime ContractRuntime TokenRuntime.
Local Open Scope cio_scope.
Local Open Scope string_scope.

Record TransferDetails : Type :=
  { tokenId : string;
    fromAccountId : string;
    fromPrivateKey : string;
    toAccountId : string;
    amount : Q;
    memo : option string }.

Record TransferResult : Type :=
  { success : bool;
    res_transactionId : string;
    res_status : string;
    explorerUrl : string }.

Record MintResult : Type :=
  { mint_success : bool;
    mint_tokenId : string;
    amountMinted : Q;
    mint_transactionId : string }.

(** The file imports [executeWithRetry] and nothing else from the
    utilities (lines 554-569): where it names [monitorTransaction] (lines
    697 and 745) the identifier is bound to nothing, and evaluating it
    throws. *)
Definition monitorTransaction_unbound : JsError :=
  mkError "ReferenceError" "monitorTransaction is not defined".

Section Service.
Variable TokenId_fromString : string -> JsError + TokenId.
Variable AccountId_fromString : string -> JsError + AccountId.
Variable PrivateKey_fromString : string -> JsError + PrivateKey.
(** How a number prints in a template literal. *)
Variable Number_toString : Q -> string.
(** [this.treasuryAccountId.toString()] and
    [this.treasuryPrivateKey.toString()]. *)
Variable treasuryAccountId : string.
Variable treasuryPrivateKey : string.

(** Lines 836-839. *)
Definition recordTokenTransfer : TIO unit := token_log "Recorded transfer:".

(** The body of the closure of lines 715-753. Freezing and signing are
    local to the SDK. *)
Definition transferTokens_operation (transferDetails : TransferDetails)
  : TIO TransferResult :=
  await tokenIdObj <- parsed (TokenId_fromString (tokenId transferDetails));
  await fromAccount <- parsed (AccountId_fromString (fromAccountId transferDetails));
  await toAccount <- parsed (AccountId_fromString (toAccountId transferDetails));
  await privateKey <- parsed (PrivateKey_fromString (fromPrivateKey transferDetails));
  let signTx :=
      TransferTransaction
        [ (tokenIdObj, fromAccount, - amount transferDetails);
          (tokenIdObj, toAccount, amount transferDetails) ]%Q
        (FileService.nonempty (memo transferDetails))
        privateKey in
  await txResponse <- execute_token signTx;
  await receipt <- get_token_receipt txResponse;
  token_log ("✅ Transferred " ++ Number_toString (amount transferDetails)
             ++ " tokens from " ++ fromAccountId transferDetails
             ++ " to " ++ toAccountId transferDetails) ;;
  recordTokenTransfer ;;
  (cthrow monitorTransaction_unbound : TIO unit) ;;
  cret {| success := true;
          res_transactionId := transactionId txResponse;
          res_status := token_status receipt;
          explorerUrl := "https://hashscan.io/mainnet/transaction/"
                         ++ transactionId txResponse |}.

(** Lines 707-754. *)
Definition transferTokens (transferDetails : TransferDetails) :=
  ErrorHandler.executeWithRetry error_message (transferTokens_operation transferDetails)
                                (inject_Z 3).

(** The method, as [mintTokenSupply] awaits it: what its executor did is
    added to [token_retries], and the caller sees the value it threw. *)
Definition transferTokens_awaited (transferDetails : TransferDetails)
  : TIO TransferResult :=
  fun tw =>
    let '(r, tr, tw1) := transferTokens transferDetails tw in
    let tw2 := update_token_retries (fun l => (l ++ tr)%list) tw1 in
    match r with
    | Fulfilled result => (Fulfilled result, tw2)
    | Rejected e => (Rejected (Services.thrown_value e), tw2)
    | Pending => (Pending, tw2)
    end.

(** The body of the closure of lines 761-787. *)
Definition mintTokenSupply_operation (tokenId : string) (amount : Q)
           (recipientAccountId : option string) : TIO MintResult :=
  await token <- parsed (TokenId_fromString tokenId);
  await hbar <- parsed (new_Hbar amount);
  await mintTx <- execute_token (TokenMintTransaction token hbar);
  await receipt <- get_token_receipt mintTx;
  (if truthy recipientAccountId then
     await _ <- transferTokens_awaited
                  {| TokenService.tokenId := tokenId;
                     fromAccountId := treasuryAccountId;
                     fromPrivateKey := treasuryPrivateKey;
                     toAccountId := match recipientAccountId with
                                    | Some account => account
                                    | None => ""
                                    end;
                     TokenService.amount := amount;
                     memo := None |};
     cret tt
   else cret tt) ;;
  cret {| mint_success := true;
          mint_tokenId := tokenId;
          amountMinted := amount;
          mint_transactionId := transactionId mintTx |}.

(** Lines 756-788. *)
Definition mintTokenSupply (tokenId : string) (amount : Q)
           (recipientAccountId : option string) :=
  ErrorHandler.executeWithRetry
    error_message (mintTokenSupply_operation tokenId amount recipientAccountId) (inject_Z 3).
End Service.

End TokenService.

(* ================================================================== *)
(** * Readings of the token ledger's log *)

Module TokenReadings.
Import Runtime TokenRuntime.
Local Open Scope string_scope.

(** A ledger that takes every transaction and answers every receipt
    request. *)
Definition taking (tw : TokenWorld) : Prop :=
  (forall history tx, exists response, token_execute tw history tx = inr response)
  /\ (forall history response, exists receipt, token_receipt tw history response = inr receipt).

Definition is_mint (call : TokenCall) : bool :=
  match call with ExecuteToken (TokenMintTransaction _ _) => true | _ => false end.

Definition is_transfer (call : TokenCall) : bool :=
  match call with ExecuteToken (TransferTransaction _ _ _) => true | _ => false end.

(** The calls made since [tw]. *)
Definition token_calls_since (tw tw1 : TokenWorld) : list TokenCall :=
  skipn (List.length (token_calls tw)) (token_calls tw1).

(** The transfer that [transferTokens] submits: one debit and one credit
    of the same amount. *)
Definition transfer_of (token : TokenId) (fromAccount toAccount : AccountId)
           (amount : Q) (memo : option string) (signer : PrivateKey) : TokenTransaction :=
  TransferTransaction [ (token, fromAccount, - amount); (token, toAccount, amount) ]%Q
                      memo signer.

(** A token ledger on which every call succeeds. *)
Definition open_ledger : TokenWorld :=
  {| token_execute := fun _ _ => inr {| transactionId := "0.0.9@1700000000.000000000" |};
     token_receipt := fun _ _ => inr {| token_status := "SUCCESS" |};
     token_calls := []; token_console := []; token_retries := [] |}.

Definition a_payment : TokenService.TransferDetails :=
  {| TokenService.tokenId := "0.0.3001";
     TokenService.fromAccountId := "0.0.1111";
     TokenService.fromPrivateKey := "302e...";
     TokenService.toAccountId := "0.0.2222";
     TokenService.amount := inject_Z 500;
     TokenService.memo := Some "rent" |}.

Definition print_number : Q -> string := fun _ => "500".

End TokenReadings.


(* ================================================================== *)
(** * Properties *)

Ltac inv H := inversion H; subst; clear H.

(* ------------------------------------------------------------------ *)
(** ** The retry executor *)

Module RetryProps.
Import ErrorHandler.

Lemma Qle_bool_inject (a n : Z) : Qle_bool (inject_Z a) (inject_Z n) = (a <=? n).
Proof.
  destruct (Z.leb_spec a n) as [H | H].
  - apply Qle_bool_iff. now rewrite <- Zle_Qle.
  - destruct (Qle_bool (inject_Z a) (inject_Z n)) eqn:Hq; [|reflexivity].
    apply Qle_bool_iff in Hq. rewrite <- Zle_Qle in Hq. lia.
Qed.

Lemma Qeq_bool_inject (a n : Z) : Qeq_bool (inject_Z a) (inject_Z n) = (a =? n).
Proof.
  destruct (Z.eqb_spec a n) as [-> | H].
  - apply Qeq_bool_iff. reflexivity.
  - destruct (Qeq_bool (inject_Z a) (inject_Z n)) eqn:Hq; [|reflexivity].
    apply Qeq_bool_iff in Hq. rewrite inject_Z_injective in Hq. contradiction.
Qed.

Lemma Qle_bool_floor (a : Z) (q : Q) :
  Qle_bool (inject_Z a) q = true -> a <= Qfloor q.
Proof.
  intros H. apply Qle_bool_iff in H.
  apply Qfloor_resp_le in H. now rewrite Qfloor_Z in H.
Qed.

Section Loop.
Context {W E T : Type}.
Variable message : E -> option string.
Variable operation : Async W E T.

Lemma fails_readably_fails_first k : forall w,
  fails_readably message operation k w -> fails_first operation k w.
Proof.
  induction k as [|k IH]; intros w Hf; [exact I|].
  destruct Hf as [(e & text & He & _) Hf]. split; [now exists e | now apply IH].
Qed.

Lemma invocations_backoff_trace k : forall attempt w,
  fails_readably message operation k w ->
  invocations (backoff_trace message operation k attempt w) = k.
Proof.
  induction k as [|k IH]; intros attempt w Hf; [reflexivity|].
  destruct Hf as [(e & text & He & Hm) Hf]. simpl in *.
  destruct (operation w) as [[v|e'|] w1]; simpl in *; try discriminate.
  inversion He; subst e'. rewrite Hm.
  unfold invocations in *. simpl. now rewrite IH.
Qed.

Lemma delays_backoff_trace k : forall attempt w,
  fails_readably message operation k w ->
  delays (backoff_trace message operation k attempt w)
  = map (fun j => backoff_delay (attempt + Z.of_nat j)) (seq 0 k).
Proof.
  induction k as [|k IH]; intros attempt w Hf; [reflexivity|].
  destruct Hf as [(e & text & He & Hm) Hf]. simpl in *.
  destruct (operation w) as [[v|e'|] w1]; simpl in *; try discriminate.
  inversion He; subst e'. rewrite Hm. simpl.
  rewrite Z.add_0_r. f_equal. rewrite IH by assumption.
  rewrite <- seq_shift, map_map. apply map_ext. intros j. f_equal. lia.
Qed.

Lemma invocations_app tr1 tr2 :
  invocations (tr1 ++ tr2) = (invocations tr1 + invocations tr2)%nat.
Proof. unfold invocations. now rewrite filter_app, length_app. Qed.

Lemma delays_app tr1 tr2 : delays (tr1 ++ tr2) = delays tr1 ++ delays tr2.
Proof.
  induction tr1 as [|[a|a m d|d] tr1 IH]; simpl; auto. now rewrite IH.
Qed.

(** While the operation keeps rejecting below the bound, with values whose
    message can be read, the loop warns, sleeps and goes round again. *)
Lemma retry_from_unroll (n : Z) k : forall fuel attempt w,
  fails_readably message operation k w ->
  attempt + Z.of_nat k <= n ->
  retry_from message operation (inject_Z n) (k + fuel) attempt w
  = let '(r, tr, w2) :=
        retry_from message operation (inject_Z n) fuel
                   (attempt + Z.of_nat k) (after_invocations operation k w) in
    (r, backoff_trace message operation k attempt w ++ tr, w2).
Proof.
  induction k as [|k IH]; intros fuel attempt w Hf Hle.
  - simpl. rewrite Z.add_0_r.
    now destruct (retry_from _ _ _ fuel attempt w) as [[r tr] w2].
  - destruct Hf as [(e & text & He & Hm) Hf].
    cbn [Nat.add retry_from backoff_trace after_invocations].
    rewrite Qle_bool_inject, Qeq_bool_inject.
    destruct (Z.leb_spec attempt n); [|lia].
    destruct (operation w) as [[v|e'|] w1]; simpl in He; try discriminate.
    inversion He; subst e'. rewrite Hm.
    destruct (Z.eqb_spec attempt n); [lia|].
    simpl in Hf. cbn [snd]. rewrite IH by (auto; lia).
    replace (attempt + 1 + Z.of_nat k) with (attempt + Z.of_nat (S k)) by lia.
    now destruct (retry_from _ _ _ fuel _ _) as [[r tr] w2].
Qed.

(** The loop never runs out of fuel, whatever number [maxRetries] is. *)
Lemma retry_from_settles (q : Q)
      (Hop : forall w, settles (fst (operation w))) :
  forall fuel attempt w,
    Z.max 0 (Qfloor q - attempt + 1) < Z.of_nat fuel ->
    settles (fst (fst (retry_from message operation q fuel attempt w))).
Proof.
  induction fuel as [|fuel IH]; intros attempt w Hfuel; [lia|].
  simpl. destruct (Qle_bool (inject_Z attempt) q) eqn:Hg; [|discriminate].
  apply Qle_bool_floor in Hg.
  pose proof (Hop w) as Hs.
  destruct (operation w) as [[v|e|] w1]; simpl in Hs.
  - discriminate.
  - destruct (Qeq_bool (inject_Z attempt) q); [discriminate|].
    destruct (message e) as [text|]; [|discriminate].
    specialize (IH (attempt + 1) w1).
    destruct (retry_from _ _ _ fuel (attempt + 1) w1) as [[r tr] w2].
    simpl in *. apply IH. lia.
  - now contradiction Hs.
Qed.

(** What a run with an integer bound [n], entered with [S m] attempts to
    go, can end in. *)
Lemma retry_from_outcome (n : Z)
      (Hop : forall w, settles (fst (operation w))) m :
  forall fuel attempt w,
    attempt + Z.of_nat m = n ->
    (m < fuel)%nat ->
    match retry_from message operation (inject_Z n) fuel attempt w with
    | (Fulfilled v, tr, w') =>
        exists j, (j <= m)%nat /\ fails_readably message operation j w
                  /\ operation (after_invocations operation j w) = (Fulfilled v, w')
                  /\ invocations tr = S j
    | (Rejected (Rethrown e), tr, w') =>
        fails_readably message operation m w
        /\ operation (after_invocations operation m w) = (Rejected e, w')
        /\ invocations tr = S m
    | (Rejected MessageUnreadable, tr, w') =>
        exists j e, (j < m)%nat /\ fails_readably message operation j w
                    /\ operation (after_invocations operation j w) = (Rejected e, w')
                    /\ message e = None
                    /\ invocations tr = S j
    | (Rejected MaxRetriesExceeded, _, _) => False
    | (Pending, _, _) => False
    end.
Proof.
  induction m as [|m IH]; intros fuel attempt w Hn Hfuel;
    (destruct fuel as [|fuel]; [lia|]); simpl;
    rewrite Qle_bool_inject, Qeq_bool_inject;
    (destruct (Z.leb_spec attempt n); [|lia]);
    pose proof (Hop w) as Hs;
    destruct (operation w) as [[v|e|] w1] eqn:Hw; simpl in Hs;
    try (now contradiction Hs).
  - exists O. simpl. repeat split; auto.
  - destruct (Z.eqb_spec attempt n); [|lia]. simpl. auto.
  - exists O. simpl. repeat split; auto. lia.
  - destruct (Z.eqb_spec attempt n); [lia|].
    destruct (message e) as [text|] eqn:Hm.
    + specialize (IH fuel (attempt + 1) w1 ltac:(lia) ltac:(lia)).
      destruct (retry_from _ _ _ fuel (attempt + 1) w1) as [[[v|[e'| |]|] tr] w2];
        try contradiction.
      * destruct IH as (j & Hj & Hf & Hfin & Hinv).
        exists (S j). simpl. rewrite Hw. simpl.
        repeat split; eauto; try lia.
        unfold invocations in *. simpl. now rewrite Hinv.
      * destruct IH as (Hf & Hfin & Hinv). simpl.
        repeat split; eauto.
        unfold invocations in *. simpl. now rewrite Hinv.
      * destruct IH as (j & e' & Hj & Hf & Hfin & Hnone & Hinv).
        exists (S j), e'. simpl. rewrite Hw. simpl.
        repeat split; eauto; try lia.
        unfold invocations in *. simpl. now rewrite Hinv.
    + exists O, e. simpl. repeat split; auto. lia.
Qed.

Lemma fails_first_app j : forall k w,
  fails_first operation (j + k) w
  <-> fails_first operation j w
      /\ fails_first operation k (after_invocations operation j w).
Proof.
  induction j as [|j IH]; intros k w; simpl; [tauto|].
  rewrite (IH k (snd (operation w))). tauto.
Qed.

(** The trace of any run is paced: what separates one invocation from the
    next is one warning and one timer of [backoff_delay] of the attempt that
    failed. *)
Lemma retry_from_paced (q : Q) : forall fuel attempt w,
  paced attempt (snd (fst (retry_from message operation q fuel attempt w))).
Proof.
  induction fuel as [|fuel IH]; intros attempt w; cbn [retry_from]; [exact I|].
  destruct (Qle_bool _ _); [|exact I].
  destruct (operation w) as [[v|e|] w1]; cbn [fst snd paced]; try reflexivity.
  destruct (Qeq_bool _ _); [reflexivity|].
  destruct (message e) as [text|]; [|reflexivity].
  specialize (IH (attempt + 1) w1).
  destruct (retry_from _ _ _ fuel (attempt + 1) w1) as [[r tr] w2].
  cbn [fst snd paced] in *. repeat split; assumption.
Qed.
End Loop.

Section Progress.
Context {W E T : Type}.
Variable message : E -> option string.
Variable operation : Async W E T.
(** A relation between worlds that every invocation of the operation
    respects, such as "the log of calls has only grown". *)
Variable R : W -> W -> Prop.
Hypothesis R_refl : forall w, R w w.
Hypothesis R_trans : forall w1 w2 w3, R w1 w2 -> R w2 w3 -> R w1 w3.
Hypothesis R_step : forall w, R w (snd (operation w)).

Lemma retry_from_respects (q : Q) : forall fuel attempt w,
  R w (snd (retry_from message operation q fuel attempt w)).
Proof.
  induction fuel as [|fuel IH]; intros attempt w; cbn [retry_from]; [apply R_refl|].
  destruct (Qle_bool _ _); [|apply R_refl].
  pose proof (R_step w) as Hstep.
  destruct (operation w) as [[v|e|] w1]; cbn [snd] in *; try assumption.
  destruct (Qeq_bool _ _); [assumption|].
  destruct (message e) as [text|]; [|assumption].
  specialize (IH (attempt + 1) w1).
  destruct (retry_from _ _ _ fuel (attempt + 1) w1) as [[r tr] w2].
  cbn [snd] in *. eauto.
Qed.

Lemma retry_from_first (q : Q) fuel attempt w :
  Qle_bool (inject_Z attempt) q = true ->
  R (snd (operation w)) (snd (retry_from message operation q (S fuel) attempt w))
  /\ (1 <= invocations (snd (fst (retry_from message operation q (S fuel) attempt w))))%nat.
Proof.
  intros Hg. cbn [retry_from]. rewrite Hg.
  destruct (operation w) as [[v|e|] w1]; cbn [snd fst];
    try (split; [apply R_refl | cbn; lia]).
  destruct (Qeq_bool _ _); [split; [apply R_refl | cbn; lia]|].
  destruct (message e) as [text|]; [|split; [apply R_refl | cbn; lia]].
  pose proof (retry_from_respects q fuel (attempt + 1) w1) as Hrest.
  destruct (retry_from _ _ _ fuel (attempt + 1) w1) as [[r tr] w2].
  cbn [snd fst] in *. split; [assumption | cbn; lia].
Qed.

(** With the default bound of 3, a first invocation that rejects is
    followed, after the warning and the 2000 ms timer, by a second
    invocation of the same operation from the world the first one left. *)
Lemma second_attempt (w w1 : W) (e : E) (text : string) :
  operation w = (Rejected e, w1) ->
  message e = Some text ->
  R (snd (operation w1)) (snd (executeWithRetry message operation (inject_Z 3) w))
  /\ (2 <= invocations (snd (fst (executeWithRetry message operation (inject_Z 3) w))))%nat.
Proof.
  intros Hw Hm. unfold executeWithRetry, retry_fuel. rewrite Qfloor_Z.
  remember (Z.to_nat 3) as fuel eqn:Hfuel. cbn [retry_from].
  rewrite Qle_bool_inject, Qeq_bool_inject, Hw, Hm.
  change (1 <=? 3) with true. change (1 =? 3) with false. cbv iota.
  destruct (@retry_from_first (inject_Z 3) 2 (1 + 1) w1) as [Hr Hi];
    [now rewrite Qle_bool_inject|].
  subst fuel. change (Z.to_nat 3) with 3%nat.
  destruct (retry_from _ _ _ 3 (1 + 1) w1) as [[r tr] w2].
  cbn [snd fst] in *. split; [assumption|].
  unfold invocations in *. cbn. lia.
Qed.
End Progress.

(** The three attempts of a run under the default bound, one after the
    other: after a rejection whose message can be read, the next attempt
    starts from the world the rejected one left. *)
Lemma three_attempts_in_a_row {W E T} (message : E -> option string)
      (operation : Async W E T) (w w1 w2 : W) (e1 e2 : E) (text1 text2 : string) :
  operation w = (Rejected e1, w1) -> message e1 = Some text1 ->
  operation w1 = (Rejected e2, w2) -> message e2 = Some text2 ->
  executeWithRetry message operation (inject_Z 3) w
  = (match fst (operation w2) with
     | Fulfilled v => Fulfilled v
     | Rejected e3 => Rejected (Rethrown e3)
     | Pending => Pending
     end,
     [Invoke 1; Warn 1 text1 2000; Timeout 2000;
      Invoke 2; Warn 2 text2 4000; Timeout 4000; Invoke 3],
     snd (operation w2)).
Proof.
  intros H1 M1 H2 M2. unfold executeWithRetry, retry_fuel. rewrite Qfloor_Z.
  change (S (Z.to_nat 3)) with 4%nat. cbn [retry_from].
  rewrite !Qle_bool_inject, !Qeq_bool_inject.
  cbn [Z.add Z.leb Z.eqb Z.compare Pos.add Pos.succ Pos.compare Pos.compare_cont Pos.eqb].
  rewrite H1, M1. cbv beta iota zeta. rewrite H2, M2. cbv beta iota zeta.
  destruct (operation w2) as [[v|e3|] w3]; reflexivity.
Qed.

(** The second attempt of a run under the default bound, when it does not
    reject. *)
Lemma two_attempts {W E T} (message : E -> option string)
      (operation : Async W E T) (w w1 w2 : W) (e1 : E) (text1 : string) (v : T) :
  operation w = (Rejected e1, w1) -> message e1 = Some text1 ->
  operation w1 = (Fulfilled v, w2) ->
  executeWithRetry message operation (inject_Z 3) w
  = (Fulfilled v, [Invoke 1; Warn 1 text1 2000; Timeout 2000; Invoke 2], w2).
Proof.
  intros H1 M1 H2. unfold executeWithRetry, retry_fuel. rewrite Qfloor_Z.
  change (S (Z.to_nat 3)) with 4%nat. cbn [retry_from].
  rewrite !Qle_bool_inject, !Qeq_bool_inject.
  cbn [Z.add Z.leb Z.eqb Z.compare Pos.add Pos.succ Pos.compare Pos.compare_cont Pos.eqb].
  rewrite H1, M1. cbv beta iota zeta. now rewrite H2.
Qed.

(** An operation that rejects and leaves the world as it found it, under the
    default bound of 3: three invocations, timers of 2000 and 4000 ms, and the
    operation's own error. *)
Lemma retry_constant_failure {W E T} (message : E -> option string)
      (operation : Async W E T) (w : W) (e : E) (text : string) :
  operation w = (Rejected e, w) ->
  message e = Some text ->
  executeWithRetry message operation (inject_Z 3) w
  = (Rejected (Rethrown e),
     [Invoke 1; Warn 1 text 2000; Timeout 2000;
      Invoke 2; Warn 2 text 4000; Timeout 4000; Invoke 3], w).
Proof.
  intros Hop Hm.
  rewrite (@three_attempts_in_a_row _ _ _ message operation w w w e e text text
             Hop Hm Hop Hm).
  now rewrite Hop.
Qed.

(** The same for the services, whose errors are objects. *)
Lemma service_constant_failure {W T} (operation : Async W Runtime.JsError T)
      (w : W) (e : Runtime.JsError) :
  operation w = (Rejected e, w) ->
  executeWithRetry Runtime.error_message operation (inject_Z 3) w
  = (Rejected (Rethrown e),
     [Invoke 1; Warn 1 (Runtime.message e) 2000; Timeout 2000;
      Invoke 2; Warn 2 (Runtime.message e) 4000; Timeout 4000; Invoke 3], w).
Proof. intros Hop. now apply retry_constant_failure. Qed.

(** For every number [maxRetries] the executor settles as soon as the
    operation does: the fuel of the model is never the reason it stops. *)
Lemma executeWithRetry_settles {W E T} (message : E -> option string)
      (operation : Async W E T) (maxRetries : Q) (w : W) :
  (forall w, settles (fst (operation w))) ->
  settles (fst (fst (executeWithRetry message operation maxRetries w))).
Proof.
  intros Hop. apply retry_from_settles; [assumption|].
  unfold retry_fuel. lia.
Qed.

(** An operation that rejects on each of its [n] invocations, the first
    [n - 1] times with a value whose message can be read, is invoked exactly
    [n] times, and the executor rejects with the error of the last invocation
    itself (line 10), not with the generic error of line 17. *)
Lemma always_failing_propagates_last_error
      {W E T} (message : E -> option string) (operation : Async W E T) (n : Z) (w : W) :
  1 <= n ->
  fails_readably message operation (Z.to_nat n - 1) w ->
  fails_first operation (Z.to_nat n) w ->
  exists e tr w',
    executeWithRetry message operation (inject_Z n) w = (Rejected (Rethrown e), tr, w')
    /\ invocations tr = Z.to_nat n
    /\ operation (after_invocations operation (Z.to_nat n - 1) w) = (Rejected e, w').
Proof.
  intros Hn Hr Hf.
  destruct (Z.to_nat n) as [|m] eqn:Hm; [lia|].
  replace (S m - 1)%nat with m in * by lia.
  replace (S m) with (m + 1)%nat in Hf by lia.
  apply fails_first_app in Hf. destruct Hf as [_ [[e He] _]].
  unfold executeWithRetry, retry_fuel. rewrite Qfloor_Z, Hm.
  replace (S (S m)) with (m + 2)%nat by lia.
  rewrite retry_from_unroll by (auto; lia).
  replace (1 + Z.of_nat m) with n by lia.
  simpl. rewrite Qle_bool_inject, Qeq_bool_inject, Z.leb_refl, Z.eqb_refl.
  destruct (operation (after_invocations operation m w)) as [[v|e'|] w1] eqn:Hw;
    simpl in He; try discriminate.
  inversion He; subst e'. exists e, (backoff_trace message operation m 1 w ++ [Invoke n]), w1.
  repeat split.
  rewrite invocations_app, invocations_backoff_trace by assumption.
  unfold invocations. simpl. lia.
Qed.

Example error_objects_are_propagated :
  exists tr,
    executeWithRetry no_message always_failing (inject_Z 3) O
    = (Rejected (Rethrown 2%nat), tr, 3%nat)
    /\ invocations tr = 3%nat.
Proof.
  destruct (@always_failing_propagates_last_error _ _ _ no_message always_failing 3 O)
    as (e & tr & w' & Hrun & Hinv & Hlast).
  - lia.
  - simpl. repeat split; do 2 eexists; split; reflexivity.
  - simpl. repeat split; eexists; reflexivity.
  - exists tr. simpl in Hlast. inversion Hlast; subst e w'. split; assumption.
Qed.

(** C3. The claim fails where an attempt before the last rejects with
    [null]: line 13 reads [error.message] inside the [catch] block, and the
    TypeError of that read leaves the function. With [async () => { throw
    null }] and the default bound of 3 the operation is invoked once, not
    three times; no warning is written and no timer armed; and the caller
    gets the TypeError, not what the operation threw. *)
Theorem null_rejection_ends_the_run :
  executeWithRetry thrown_message throws_null (inject_Z 3) O
  = (Rejected MessageUnreadable, [Invoke 1], 1%nat)
  /\ invocations (snd (fst (executeWithRetry thrown_message throws_null (inject_Z 3) O)))
     = 1%nat
  /\ fails_first throws_null 3 O.
Proof.
  split; [reflexivity|]. split; [reflexivity|].
  simpl. repeat split; eexists; reflexivity.
Qed.

(** An operation that rejects exactly [k < n] times, each time with a value
    whose message can be read, and then fulfils: the executor returns that
    value from the world the fulfilling invocation left (nothing runs after
    it), after [k + 1] invocations and [k] timers, the [j]-th of them armed
    with [backoff_delay j]. *)
Lemma fails_k_times_then_succeeds
      {W E T} (message : E -> option string) (operation : Async W E T)
      (n : Z) (k : nat) (w w' : W) (v : T) :
  Z.of_nat k < n ->
  fails_readably message operation k w ->
  operation (after_invocations operation k w) = (Fulfilled v, w') ->
  exists tr,
    executeWithRetry message operation (inject_Z n) w = (Fulfilled v, tr, w')
    /\ invocations tr = S k
    /\ delays tr = map backoff_delay (attempts k)
    /\ Forall2 (fun d j => backoff_delay j <= d) (delays tr) (attempts k).
Proof.
  intros Hk Hf Hok.
  unfold executeWithRetry, retry_fuel. rewrite Qfloor_Z.
  replace (S (Z.to_nat n)) with (k + (S (Z.to_nat n) - k))%nat by lia.
  rewrite retry_from_unroll by (auto; lia).
  destruct (S (Z.to_nat n) - k)%nat as [|fuel] eqn:Hfuel; [lia|].
  cbn [retry_from]. rewrite Qle_bool_inject.
  destruct (Z.leb_spec (1 + Z.of_nat k) n); [|lia].
  rewrite Hok.
  assert (Hd : delays (backoff_trace message operation k 1 w ++ [Invoke (1 + Z.of_nat k)])
               = map backoff_delay (attempts k)).
  { rewrite delays_app, delays_backoff_trace by assumption.
    cbn [delays]. rewrite app_nil_r. unfold attempts.
    rewrite <- seq_shift, !map_map. apply map_ext. intros j. f_equal. lia. }
  eexists. split; [reflexivity|]. split; [|split].
  - rewrite invocations_app, invocations_backoff_trace by assumption.
    unfold invocations. simpl. lia.
  - exact Hd.
  - rewrite Hd. clear Hd.
    induction (attempts k) as [|a l IH]; simpl; constructor; auto.
    apply Z.le_refl.
Qed.

Example two_failures_then_success :
  exists tr,
    executeWithRetry no_message (flaky 2) (inject_Z 3) O
    = (Fulfilled "done"%string, tr, 3%nat)
    /\ invocations tr = 3%nat
    /\ delays tr = [2000; 4000].
Proof.
  destruct (@fails_k_times_then_succeeds _ _ _ no_message (flaky 2) 3 2 O 3%nat
              "done"%string) as (tr & Hrun & Hinv & Hd & _).
  - lia.
  - simpl. repeat split; do 2 eexists; split; reflexivity.
  - reflexivity.
  - exists tr. repeat split; assumption.
Qed.

(** C4. The claim fails where a rejection before the success is [null]. An
    operation that rejects once with [null] and would fulfil at its second
    invocation (k = 1, bound 3) is invoked once: the TypeError of line 13
    leaves the function, no delay is performed, and the success value is
    never returned. *)
Theorem null_rejection_hides_the_success :
  executeWithRetry thrown_message null_then_done (inject_Z 3) O
  = (Rejected MessageUnreadable, [Invoke 1], 1%nat)
  /\ null_then_done O = (Rejected Null, 1%nat)
  /\ null_then_done 1%nat = (Fulfilled "done"%string, 2%nat)
  /\ delays (snd (fst (executeWithRetry thrown_message null_then_done (inject_Z 3) O))) = [].
Proof. repeat split. Qed.

(** C5. The timers of the executor follow the policy [1000 * 2 ^ attempt].
    In every run what separates one invocation from the next is one warning
    and one timer of [backoff_delay] of the attempt that failed; while the
    operation rejects below the bound (with values whose message can be
    read) a timer is armed after each rejection, the [j]-th of
    [1000 * 2 ^ j] ms: 2000, 4000 and 8000 ms after the first three
    attempts, never shorter after a later attempt than after an earlier
    one. *)
Theorem backoff_is_exponential :
  (forall (W E T : Type) (message : E -> option string) (operation : Async W E T)
          (maxRetries : Q) (w : W),
      paced 1 (snd (fst (executeWithRetry message operation maxRetries w))))
  /\ (forall (W E T : Type) (message : E -> option string) (operation : Async W E T)
             (n : Z) (k : nat) (w : W),
         Z.of_nat k < n ->
         fails_readably message operation k w ->
         firstn k (delays (snd (fst (executeWithRetry message operation (inject_Z n) w))))
         = map (fun attempt => 1000 * 2 ^ attempt) (attempts k))
  /\ (forall a, backoff_delay a = 1000 * 2 ^ a)
  /\ backoff_delay 1 = 2000
  /\ backoff_delay 2 = 4000
  /\ backoff_delay 3 = 8000
  /\ (forall a b, 1 <= a -> a <= b -> backoff_delay a <= backoff_delay b).
Proof.
  split; [|split].
  - intros W E T message operation maxRetries w. apply retry_from_paced.
  - intros W E T message operation n k w Hk Hf.
    unfold executeWithRetry, retry_fuel. rewrite Qfloor_Z.
    replace (S (Z.to_nat n)) with (k + (S (Z.to_nat n) - k))%nat by lia.
    rewrite retry_from_unroll by (auto; lia).
    destruct (retry_from _ _ _ _ _ _) as [[r tr] w2]. cbn [fst snd].
    rewrite delays_app, delays_backoff_trace by assumption.
    rewrite firstn_app, length_map, length_seq, Nat.sub_diag.
    cbn [firstn]. rewrite app_nil_r.
    rewrite firstn_all2 by (rewrite length_map, length_seq; lia).
    unfold attempts. rewrite <- seq_shift, !map_map. apply map_ext.
    intros j. unfold backoff_delay.
    replace (1 + Z.of_nat j) with (Z.of_nat (S j)) by lia. apply Z.mul_comm.
  - unfold backoff_delay. repeat split; try reflexivity.
    + intros a. lia.
    + intros a b Ha Hab.
      apply Z.mul_le_mono_nonneg_r; [lia|].
      apply Z.pow_le_mono_r; lia.
Qed.

Lemma backoff_is_exponential_witness :
  delays (snd (fst (executeWithRetry no_message always_failing (inject_Z 4) O)))
  = [2000; 4000; 8000]
  /\ backoff_delay 2 <= backoff_delay 5.
Proof.
  destruct backoff_is_exponential as (_ & Harmed & _ & _ & _ & _ & Hmono).
  split; [|apply Hmono; lia].
  apply (Harmed nat nat string no_message always_failing 4 3%nat O); [lia|].
  simpl. repeat split; do 2 eexists; split; reflexivity.
Defined.

(** C10. With an integer bound [maxRetries >= 1] and an operation whose
    promises settle and whose rejections carry a message that can be read
    (error objects, not [null] or [undefined]), the executor ends either
    with the value some invocation returned or with the error the last,
    [maxRetries]-th, invocation threw; the generic error of line 17 is not
    reached. *)
Theorem generic_error_unreachable
        {W E T} (message : E -> option string) (operation : Async W E T) (n : Z) (w : W) :
  1 <= n ->
  (forall w, settles (fst (operation w))) ->
  (forall w e, fst (operation w) = Rejected e -> message e <> None) ->
  match executeWithRetry message operation (inject_Z n) w with
  | (Fulfilled v, tr, w') =>
      exists j, Z.of_nat j < n
                /\ operation (after_invocations operation j w) = (Fulfilled v, w')
                /\ invocations tr = S j
  | (Rejected (Rethrown e), tr, w') =>
      operation (after_invocations operation (Z.to_nat n - 1) w) = (Rejected e, w')
      /\ invocations tr = Z.to_nat n
  | (Rejected MaxRetriesExceeded, _, _) => False
  | (Rejected MessageUnreadable, _, _) => False
  | (Pending, _, _) => False
  end.
Proof.
  intros Hn Hop Hmsg.
  pose proof (@retry_from_outcome _ _ _ message operation n Hop (Z.to_nat n - 1)
                (S (Z.to_nat n)) 1 w ltac:(lia) ltac:(lia)) as H.
  unfold executeWithRetry, retry_fuel. rewrite Qfloor_Z.
  destruct (retry_from _ _ _ _ 1 w) as [[[v|[e| |]|] tr] w']; try contradiction.
  - destruct H as (j & Hj & _ & Hfin & Hinv). exists j. repeat split; auto. lia.
  - destruct H as (_ & Hfin & Hinv). split; auto. lia.
  - destruct H as (j & e & _ & _ & Hfin & Hnone & _).
    apply (Hmsg (after_invocations operation j w) e); [now rewrite Hfin | exact Hnone].
Qed.

Lemma generic_error_unreachable_witness :
  executeWithRetry no_message always_failing (inject_Z 3) O
  = (Rejected (Rethrown 2%nat),
     [Invoke 1; Warn 1 EmptyString 2000; Timeout 2000;
      Invoke 2; Warn 2 EmptyString 4000; Timeout 4000; Invoke 3], 3%nat)
  /\ fst (fst (executeWithRetry no_message always_failing (inject_Z 3) O))
     <> Rejected MaxRetriesExceeded.
Proof.
  pose proof (@generic_error_unreachable _ _ _ no_message always_failing 3 O
                ltac:(lia) ltac:(intros w; discriminate)
                ltac:(intros w e _; discriminate)) as H.
  split; [reflexivity|].
  destruct (executeWithRetry _ _ _ _) as [[[v|[e| |]|] tr] w']; simpl;
    try discriminate; contradiction.
Defined.

(** The claim as it is worded, "every maxRetries >= 1", fails on a bound
    that is not an integer: such a bound is never equal to the counter, so
    the last failure is slept on and the loop falls through to line 17. At
    3/2 the operation is invoked once and the caller gets the generic error;
    the result is neither a value nor the error the operation threw. *)
Remark fractional_bound_reaches_line_17 :
  (1 <= 3 # 2)%Q
  /\ executeWithRetry no_message always_failing (3 # 2) O
     = (Rejected MaxRetriesExceeded,
        [Invoke 1; Warn 1 EmptyString 2000; Timeout 2000], 1%nat)
  /\ always_failing O = (Rejected O, 1%nat).
Proof. repeat split. discriminate. Qed.

Remark zero_bound_reaches_line_17 :
  executeWithRetry no_message always_failing (inject_Z 0) O
  = (Rejected MaxRetriesExceeded, [], O).
Proof. reflexivity. Qed.

End RetryProps.

(* ------------------------------------------------------------------ *)
(** ** The confirmation poller *)

Module MonitorProps.
Import Runtime TransactionMonitor Observations.
Local Open Scope string_scope.

Lemma preserves_ledger_refl w : preserves_ledger w w.
Proof. repeat split. Qed.

Lemma preserves_ledger_trans w w1 w2 :
  preserves_ledger w w1 -> preserves_ledger w1 w2 -> preserves_ledger w w2.
Proof.
  unfold preserves_ledger. intros (?&?&?&?&?) (?&?&?&?&?).
  repeat split; congruence.
Qed.

(** One poll is one read; it fulfils with the verdict of line 11 on what
    the mirror node answered, and arms no timer. *)
Lemma poll_spec (transactionId : string) (w : World) :
  exists w1,
    poll transactionId w
    = (Fulfilled (is_confirmed (mirror w (List.length (fetched w)) (url_of transactionId))), w1)
    /\ preserves_ledger w w1
    /\ fetched w1 = (fetched w ++ [url_of transactionId])%list
    /\ timers w1 = timers w.
Proof.
  unfold poll, try_catch, bind, fetch, url_of.
  destruct (mirror w (List.length (fetched w)) _)
    as [err | [|] [err | [[[|[[ts] |] l] |]]]]; cbn;
    try (eexists; split; [reflexivity | repeat split]).
  destruct (truthy ts); cbn; eexists; split; try reflexivity; repeat split.
Qed.

(** [k] polls in a row that line 11 turns down: [k] reads, [k] timers of
    2000 ms, and the loop is back at its guard. *)
Lemma poll_from_unconfirmed (transactionId : string) k :
  forall fuel i w,
    i + Z.of_nat k <= 10 ->
    (forall j, (j < k)%nat ->
       is_confirmed (mirror w (List.length (fetched w) + j) (url_of transactionId)) = false) ->
    exists w1,
      poll_from (k + fuel) transactionId i w
      = poll_from fuel transactionId (i + Z.of_nat k) w1
      /\ preserves_ledger w w1
      /\ fetched w1 = (fetched w ++ repeat (url_of transactionId) k)%list
      /\ timers w1 = (timers w ++ repeat 2000 k)%list.
Proof.
  induction k as [|k IH]; intros fuel i w Hi Hno.
  - exists w. rewrite Z.add_0_r, !app_nil_r. repeat split.
  - cbn [Nat.add poll_from].
    destruct (Z.ltb_spec i 10); [|lia].
    destruct (poll_spec transactionId w) as (w1 & Hpoll & Hled & Hf & Ht).
    unfold bind at 1. rewrite Hpoll.
    rewrite <- (Nat.add_0_r (List.length (fetched w))), Hno by lia.
    unfold bind at 1, sleep at 1.
    set (w2 := update_timers _ w1).
    destruct (IH fuel (i + 1) w2) as (w3 & Hrun & Hled3 & Hf3 & Ht3).
    + lia.
    + intros j Hj. subst w2. cbn.
      destruct Hled as (Hm & _). rewrite Hm, Hf, length_app. cbn.
      replace (List.length (fetched w) + 1 + j)%nat
        with (List.length (fetched w) + S j)%nat by lia.
      apply Hno. lia.
    + exists w3. rewrite Hrun.
      replace (i + 1 + Z.of_nat k) with (i + Z.of_nat (S k)) by lia.
      split; [reflexivity|]. split; [|split].
      * eapply preserves_ledger_trans; [|exact Hled3].
        destruct Hled as (?&?&?&?&?). subst w2. repeat split; assumption.
      * rewrite Hf3. subst w2. cbn. rewrite Hf, <- app_assoc. reflexivity.
      * rewrite Ht3. subst w2. cbn. rewrite Ht, <- app_assoc. reflexivity.
Qed.

(** The loop is left within ten rounds, always by one of its two exits, and
    touches nothing of the ledger. *)
Lemma poll_from_fulfils (transactionId : string) :
  forall fuel i w,
    Z.max 0 (10 - i) < Z.of_nat fuel ->
    exists state w1,
      poll_from fuel transactionId i w = (Fulfilled state, w1)
      /\ preserves_ledger w w1.
Proof.
  induction fuel as [|fuel IH]; intros i w Hfuel; [lia|].
  cbn [poll_from]. destruct (Z.ltb_spec i 10).
  - destruct (poll_spec transactionId w) as (w1 & Hpoll & Hled & _).
    unfold bind at 1. rewrite Hpoll.
    destruct (is_confirmed _).
    + exists Confirmed, w1. split; [reflexivity | assumption].
    + unfold bind at 1, sleep at 1.
      set (w2 := update_timers _ w1).
      destruct (IH (i + 1) w2 ltac:(lia)) as (state & w3 & Hrun & Hled3).
      exists state, w3. split; [assumption|].
      eapply preserves_ledger_trans; [|exact Hled3].
      destruct Hled as (?&?&?&?&?). subst w2. repeat split; assumption.
  - exists TimedOut, w. split; [reflexivity | apply preserves_ledger_refl].
Qed.

(** [monitorTransaction] never rejects and never hangs. *)
Lemma monitorTransaction_fulfils (transactionId : string) (w : World) :
  exists w1,
    monitorTransaction transactionId w = (Fulfilled tt, w1)
    /\ preserves_ledger w w1.
Proof.
  unfold monitorTransaction.
  destruct (poll_from_fulfils transactionId 11 0 w ltac:(lia))
    as (state & w1 & Hrun & Hled).
  unfold bind. rewrite Hrun. destruct state.
  - exists w1. split; [reflexivity | assumption].
  - eexists. split; [reflexivity|].
    destruct Hled as (?&?&?&?&?). repeat split; assumption.
Qed.

(** C6, as the code has it. When the mirror node has no confirmed record for
    the first [m < 10] reads and a confirmed one at the next, the loop is
    left through line 13 after exactly [m + 1] reads; when none of ten reads
    is confirmed it is left through its guard after exactly ten reads and
    line 23 writes a warning. In both cases the function resolves to
    [undefined]. *)
Theorem monitorTransaction_reads (transactionId : string) (w : World) :
  (forall m : nat,
      (m < 10)%nat ->
      (forall j, (j < m)%nat ->
         is_confirmed (mirror w (List.length (fetched w) + j) (url_of transactionId)) = false) ->
      is_confirmed (mirror w (List.length (fetched w) + m) (url_of transactionId)) = true ->
      exists w1,
        poll_from 11 transactionId 0 w = (Fulfilled Confirmed, w1)
        /\ monitorTransaction transactionId w = (Fulfilled tt, w1)
        /\ fetched w1 = (fetched w ++ repeat (url_of transactionId) (S m))%list)
  /\ ((forall j, (j < 10)%nat ->
         is_confirmed (mirror w (List.length (fetched w) + j) (url_of transactionId)) = false) ->
      exists w1,
        poll_from 11 transactionId 0 w = (Fulfilled TimedOut, w1)
        /\ monitorTransaction transactionId w
           = (Fulfilled tt,
              update_console
                (fun c => (c ++ [Warning ("Transaction " ++ transactionId
                                          ++ " not confirmed after 10 polls")])%list) w1)
        /\ fetched w1 = (fetched w ++ repeat (url_of transactionId) 10)%list).
Proof.
  split.
  - intros m Hm Hno Hyes.
    destruct (@poll_from_unconfirmed transactionId m (11 - m) 0 w ltac:(lia) Hno)
      as (w1 & Hrun & Hled & Hf & _).
    replace (m + (11 - m))%nat with 11%nat in Hrun by lia.
    destruct (11 - m)%nat as [|fuel] eqn:Hfuel; [lia|].
    destruct (poll_spec transactionId w1) as (w2 & Hpoll & _ & Hf2 & _).
    assert (Hlast : poll_from (S fuel) transactionId (0 + Z.of_nat m) w1
                    = (Fulfilled Confirmed, w2)).
    { cbn [poll_from]. destruct (Z.ltb_spec (0 + Z.of_nat m) 10); [|lia].
      unfold bind at 1. rewrite Hpoll.
      destruct Hled as (Hmir & _).
      now rewrite Hmir, Hf, length_app, repeat_length, Hyes. }
    rewrite Hlast in Hrun.
    exists w2. split; [exact Hrun|]. split.
    + unfold monitorTransaction, bind. now rewrite Hrun.
    + rewrite Hf2, Hf, <- app_assoc. f_equal.
      change (S m) with (1 + m)%nat.
      rewrite Nat.add_comm, repeat_app. reflexivity.
  - intros Hno.
    destruct (@poll_from_unconfirmed transactionId 10 1 0 w ltac:(lia) Hno)
      as (w1 & Hrun & _ & Hf & _).
    change (10 + 1)%nat with 11%nat in Hrun.
    change (poll_from 1 transactionId (0 + Z.of_nat 10) w1)
      with (Fulfilled TimedOut : promise JsError _, w1) in Hrun.
    exists w1. split; [exact Hrun|]. split; [|exact Hf].
    unfold monitorTransaction, bind. now rewrite Hrun.
Qed.

Lemma monitorTransaction_reads_witness :
  exists w1,
    monitorTransaction "0.0.2@1" (Fixtures.polling_world (Fixtures.mirror_confirming_after 2))
    = (Fulfilled tt, w1)
    /\ List.length (fetched w1) = 3%nat.
Proof.
  destruct (proj1 (monitorTransaction_reads "0.0.2@1"
                     (Fixtures.polling_world (Fixtures.mirror_confirming_after 2))) 2%nat)
    as (w1 & _ & Hrun & Hf).
  - lia.
  - intros j Hj. destruct j as [|[|j]]; [reflexivity | reflexivity | lia].
  - reflexivity.
  - exists w1. split; [exact Hrun|]. rewrite Hf. reflexivity.
Defined.

(** C6, as the specification words it, fails on one point: the state the
    poller ended in is not handed to the caller. A run that confirms at the
    first read and a run that times out resolve to the same value, so
    nothing computed from the result tells them apart. *)
Lemma monitorTransaction_returns_no_state :
  ~ exists decode : promise JsError unit -> ConfirmationState,
      decode (fst (monitorTransaction "0.0.2@1"
                     (Fixtures.polling_world (Fixtures.mirror_confirming_after 0))))
      = Confirmed
      /\ decode (fst (monitorTransaction "0.0.2@1"
                        (Fixtures.polling_world Fixtures.mirror_never)))
         = TimedOut.
Proof.
  intros (decode & Hc & Ht).
  assert (H1 : fst (monitorTransaction "0.0.2@1"
                      (Fixtures.polling_world (Fixtures.mirror_confirming_after 0)))
               = Fulfilled tt) by (vm_compute; reflexivity).
  assert (H2 : fst (monitorTransaction "0.0.2@1"
                      (Fixtures.polling_world Fixtures.mirror_never))
               = Fulfilled tt) by (vm_compute; reflexivity).
  rewrite H1 in Hc. rewrite H2 in Ht. congruence.
Qed.

(** The two runs of the lemma above do end in different states of the loop;
    only the console shows it. *)
Example confirming_and_timing_out_runs :
  fst (poll_from 11 "0.0.2@1" 0 (Fixtures.polling_world (Fixtures.mirror_confirming_after 0)))
  = Fulfilled Confirmed
  /\ fst (poll_from 11 "0.0.2@1" 0 (Fixtures.polling_world Fixtures.mirror_never))
     = Fulfilled TimedOut
  /\ console (snd (monitorTransaction "0.0.2@1"
                     (Fixtures.polling_world (Fixtures.mirror_confirming_after 0))))
     = [Log "Transaction confirmed:"]
  /\ console (snd (monitorTransaction "0.0.2@1" (Fixtures.polling_world Fixtures.mirror_never)))
     = [Warning "Transaction 0.0.2@1 not confirmed after 10 polls"]
  /\ timers (snd (monitorTransaction "0.0.2@1" (Fixtures.polling_world Fixtures.mirror_never)))
     = repeat 2000 10.
Proof. vm_compute. repeat split. Qed.

End MonitorProps.

(* ------------------------------------------------------------------ *)
(** ** SHA-256 against the published test vectors *)

Module Sha256Props.
Import Sha256.
Local Open Scope string_scope.

Example sha256_empty :
  sha256_hex "" = "e3b0c44298fc1c149afbf4c8996fb92427ae41e4649b934ca495991b7852b855".
Proof. vm_compute. reflexivity. Qed.

Example sha256_abc :
  sha256_hex "abc" = "ba7816bf8f01cfea414140de5dae2223b00361a396177a9cb410ff61f20015ad".
Proof. vm_compute. reflexivity. Qed.

Example sha256_two_blocks :
  sha256_hex "abcdbcdecdefdefgefghfghighijhijkijkljklmklmnlmnomnopnopq"
  = "248d6a61d20638b8e5c026930c3e6039a33ce45964ff2167f6ecedd419db06c1".
Proof. vm_compute. reflexivity. Qed.

End Sha256Props.

(* ------------------------------------------------------------------ *)
(** ** The splitter *)

Module SplitProps.
Import Runtime FileService Segments.

Lemma slice_width (p : Buffer) (i n : Z) :
  slice p i (i + n) = firstn (Z.to_nat n) (skipn (Z.to_nat i) p).
Proof. unfold slice. f_equal. f_equal. lia. Qed.

Lemma slice_length (p : Buffer) (a b : Z) :
  0 <= a <= b ->
  Z.of_nat (List.length (slice p a b))
  = Z.max 0 (Z.min (b - a) (Z.of_nat (List.length p) - a)).
Proof.
  intros H. unfold slice. rewrite length_firstn, length_skipn. lia.
Qed.

(** The end of a slice is clamped to the length of the buffer. *)
Lemma slice_clamp (p : Buffer) (a b : Z) :
  0 <= a <= b ->
  slice p a b = slice p a (Z.min b (Z.of_nat (List.length p))).
Proof.
  intros H. unfold slice.
  destruct (Z.le_ge_cases b (Z.of_nat (List.length p))) as [Hb | Hb].
  - now rewrite Z.min_l.
  - rewrite Z.min_r by lia.
    rewrite !firstn_all2; auto; rewrite length_skipn; lia.
Qed.

Lemma slices_succ (p : Buffer) (n i : Z) (count : nat) :
  slices p n i (S count) = slice p i (i + n) :: slices p n (i + n) count.
Proof.
  unfold slices. cbn [seq map]. f_equal.
  - f_equal; lia.
  - rewrite <- seq_shift, map_map. apply map_ext. intros j. f_equal; lia.
Qed.

Lemma segments_from_step (len n i : Z) :
  0 < n -> i < len ->
  segments_from len n i = S (segments_from len n (i + n)).
Proof.
  intros Hn Hi. unfold segments_from.
  replace (len - i + n - 1) with ((len - (i + n) + n - 1) + 1 * n) by lia.
  rewrite Z.div_add by lia.
  assert (0 <= (len - (i + n) + n - 1) / n) by (apply Z.div_pos; lia).
  lia.
Qed.

Lemma segments_from_end (len n i : Z) :
  0 < n -> len <= i -> segments_from len n i = O.
Proof.
  intros Hn Hi. unfold segments_from.
  assert ((len - i + n - 1) / n <= 0); [|lia].
  assert ((len - i + n - 1) / n < 1); [|lia].
  apply Z.div_lt_upper_bound; lia.
Qed.

(** The loop pushes the slices at [i], [i + n], ... in that order. *)
Lemma chunk_loop_slices (p : Buffer) (n : Z) (Hn : 0 < n) :
  forall fuel i chunks,
    0 <= i ->
    (Z.to_nat (Z.of_nat (List.length p) - i) < fuel)%nat ->
    chunk_loop fuel p n i chunks
    = Some (chunks ++ slices p n i (segments_from (Z.of_nat (List.length p)) n i)).
Proof.
  induction fuel as [|fuel IH]; intros i chunks Hi Hfuel; [lia|].
  cbn [chunk_loop]. destruct (Z.ltb_spec i (Z.of_nat (List.length p))).
  - rewrite IH by lia.
    rewrite (@segments_from_step _ n i) by lia.
    now rewrite slices_succ, <- app_assoc.
  - rewrite segments_from_end by lia. cbn. now rewrite app_nil_r.
Qed.

Lemma firstn_plus {A} (a b : nat) : forall l : list A,
  firstn (a + b) l = firstn a l ++ firstn b (skipn a l).
Proof.
  induction a as [|a IH]; intros [|x l]; cbn; try reflexivity.
  - now rewrite firstn_nil.
  - now rewrite IH.
Qed.

Lemma concat_slices (p : Buffer) (n : Z) (Hn : 0 < n) :
  forall count i,
    0 <= i ->
    List.concat (slices p n i count)
    = firstn (Z.to_nat (Z.of_nat count * n)) (skipn (Z.to_nat i) p).
Proof.
  induction count as [|count IH]; intros i Hi.
  - reflexivity.
  - rewrite slices_succ. cbn [List.concat]. rewrite IH, slice_width by lia.
    replace (Z.to_nat (i + n)) with (Z.to_nat n + Z.to_nat i)%nat by lia.
    rewrite <- skipn_skipn.
    replace (Z.to_nat (Z.of_nat (S count) * n))
      with (Z.to_nat n + Z.to_nat (Z.of_nat count * n))%nat by lia.
    now rewrite firstn_plus.
Qed.

Lemma segments_cover (len n : Z) :
  0 < n -> 0 <= len -> len <= Z.of_nat (segments_from len n 0) * n.
Proof.
  intros Hn Hlen. unfold segments_from. rewrite Z.sub_0_r.
  assert (0 <= (len + n - 1) / n) by (apply Z.div_pos; lia).
  rewrite Z2Nat.id by assumption.
  pose proof (Z.mul_succ_div_gt (len + n - 1) n Hn). lia.
Qed.

Lemma nth_slices (p : Buffer) (n i : Z) (count j : nat) :
  (j < count)%nat ->
  nth j (slices p n i count) [] = slice p (i + Z.of_nat j * n) (i + (Z.of_nat j + 1) * n).
Proof.
  intros Hj. unfold slices.
  rewrite (nth_indep _ [] (slice p (i + Z.of_nat 0 * n) (i + (Z.of_nat 0 + 1) * n)))
    by now rewrite length_map, length_seq.
  rewrite (map_nth (fun j => slice p (i + Z.of_nat j * n) (i + (Z.of_nat j + 1) * n))).
  now rewrite seq_nth.
Qed.

Lemma segments_tight (len n : Z) :
  0 < n -> 0 < len ->
  (0 < segments_from len n 0)%nat
  /\ (Z.of_nat (segments_from len n 0) - 1) * n < len.
Proof.
  intros Hn Hlen. unfold segments_from. rewrite Z.sub_0_r.
  assert (1 <= (len + n - 1) / n) by (apply Z.div_le_lower_bound; lia).
  rewrite Z2Nat.id by lia.
  pose proof (Z.mul_div_le (len + n - 1) n Hn). lia.
Qed.

Lemma last_slices (p : Buffer) (n : Z) (count : nat) :
  last (slices p n 0 (S count)) []
  = slice p (Z.of_nat count * n) ((Z.of_nat count + 1) * n).
Proof.
  unfold slices. rewrite seq_S, map_app. cbn [map Nat.add]. now rewrite last_last.
Qed.

(** The create-then-append slicing of [deployLargeContract] gives the same
    chunks as the splitter on a non-empty payload, and one empty chunk on an
    empty one. *)
Lemma create_then_append_slices (p : Buffer) (n : Z) :
  0 < n ->
  (p <> [] ->
   Observations.create_then_append p n
   = slices p n 0 (segments_from (Z.of_nat (List.length p)) n 0))
  /\ List.concat (Observations.create_then_append p n) = p.
Proof.
  intros Hn. unfold Observations.create_then_append. split.
  - intros Hp.
    assert (0 < Z.of_nat (List.length p)) by (destruct p; [contradiction | cbn; lia]).
    rewrite (@segments_from_step _ n 0) by lia. now rewrite slices_succ.
  - cbn [List.concat]. rewrite concat_slices by lia.
    replace (slice p 0 n) with (slice p 0 (0 + n)) by (f_equal; lia).
    rewrite slice_width. cbn [Z.to_nat skipn].
    rewrite <- firstn_plus. apply firstn_all2.
    destruct (Z.le_gt_cases (Z.of_nat (List.length p)) n) as [Hle | Hgt].
    + lia.
    + pose proof (@segments_cover (Z.of_nat (List.length p) - n) n Hn ltac:(lia)) as Hc.
      unfold segments_from in *.
      replace (Z.of_nat (List.length p) - n - 0 + n - 1)
        with (Z.of_nat (List.length p) - n + n - 1) in Hc by lia.
      lia.
Qed.

(** C2. For a positive segment size [n] the loop of [createFile] ends and
    yields the chunks [p[i*n .. min((i+1)*n, len))] in index order: all but
    the last have length [n], the last has length [len mod n] (or [n] when
    that is 0), and their left-to-right concatenation (the specification's
    [reassemble]) is [p]. The create-then-append
    slicing of [deployLargeContract] yields the same chunks on a non-empty
    payload, and concatenates to [p] as well. *)
Theorem split_then_reassemble (p : Buffer) (n : Z) :
  0 < n ->
  exists chunks,
    split p n = Some chunks
    /\ List.concat chunks = p
    /\ (forall i, (i < List.length chunks)%nat ->
          nth i chunks []
          = slice p (Z.of_nat i * n)
                  (Z.min ((Z.of_nat i + 1) * n) (Z.of_nat (List.length p))))
    /\ (forall i, (S i < List.length chunks)%nat ->
          Z.of_nat (List.length (nth i chunks [])) = n)
    /\ (p <> [] ->
        Z.of_nat (List.length (last chunks []))
        = if Z.of_nat (List.length p) mod n =? 0 then n
          else Z.of_nat (List.length p) mod n)
    /\ (p <> [] -> Observations.create_then_append p n = chunks)
    /\ List.concat (Observations.create_then_append p n) = p.
Proof.
  intros Hn. set (len := Z.of_nat (List.length p)).
  set (count := segments_from len n 0).
  exists (slices p n 0 count).
  assert (Hcount : List.length (slices p n 0 count) = count)
    by (unfold slices; now rewrite length_map, length_seq).
  split; [|split; [|split; [|split; [|split; [|split]]]]];
    [| | | | | apply (create_then_append_slices p Hn)
             | apply (create_then_append_slices p Hn)].
  - unfold split. rewrite chunk_loop_slices by lia. reflexivity.
  - rewrite concat_slices by lia. cbn [Z.to_nat skipn].
    apply firstn_all2. pose proof (@segments_cover len n Hn). fold count in H. lia.
  - intros i Hi. rewrite Hcount in Hi. rewrite nth_slices by assumption.
    rewrite !Z.add_0_l. apply slice_clamp. nia.
  - intros i Hi. rewrite Hcount in Hi. rewrite nth_slices by lia.
    rewrite !Z.add_0_l, slice_length by nia. fold len.
    destruct (Z.le_gt_cases len 0) as [H0 | H0].
    + unfold count in Hi. rewrite segments_from_end in Hi by lia. lia.
    + destruct (@segments_tight len n Hn H0) as [_ Ht]. fold count in Ht. nia.
  - intros Hp.
    assert (H0 : 0 < len) by (destruct p; [contradiction | cbn in len; lia]).
    destruct (@segments_tight len n Hn H0) as [Hpos Ht]. fold count in Hpos, Ht.
    pose proof (@segments_cover len n Hn ltac:(lia)) as Hc. fold count in Hc.
    destruct count as [|c]; [lia|].
    rewrite last_slices, slice_length by nia. fold len.
    pose proof (Z.div_mod len n ltac:(lia)) as Hdm.
    pose proof (Z.mod_pos_bound len n Hn) as Hmod.
    destruct (Z.eqb_spec (len mod n) 0) as [Hz | Hz].
    + assert (Z.of_nat c = len / n - 1) by nia. nia.
    + assert (Z.of_nat c = len / n) by nia. nia.
Qed.

Lemma split_then_reassemble_witness :
  exists chunks,
    split (repeat Byte.x2a 10) 4 = Some chunks
    /\ List.concat chunks = repeat Byte.x2a 10
    /\ map (@List.length _) chunks = [4; 4; 2]%nat.
Proof.
  destruct (@split_then_reassemble (repeat Byte.x2a 10) 4 ltac:(lia))
    as (chunks & Hsplit & Hre & _).
  exists chunks. repeat split; try assumption.
  vm_compute in Hsplit. inversion Hsplit. reflexivity.
Defined.

(** The two segment sizes of the repository, on the end-to-end scenario of
    the specification: 10000 bytes make two chunks of 6144 and 3856 bytes. *)
Example split_10000_bytes :
  option_map (map (fun chunk => Z.of_nat (List.length chunk)))
             (split (repeat Byte.x00 (Z.to_nat 10000)) chunkSize)
  = Some [6144; 3856].
Proof. vm_compute. reflexivity. Qed.

(** A segment size that is not positive: the loop of the source never ends. *)
Example split_zero_size : split (repeat Byte.x00 3) 0 = None.
Proof. reflexivity. Qed.

End SplitProps.

(* ------------------------------------------------------------------ *)
(** ** The chunked upload under the executor *)

Module UploadProps.
Import Runtime ErrorHandler Observations.
Local Open Scope string_scope.

Lemma grows_refl w : grows w w.
Proof. exists []. now rewrite app_nil_r. Qed.

Lemma grows_trans w1 w2 w3 : grows w1 w2 -> grows w2 w3 -> grows w1 w3.
Proof.
  intros [l1 H1] [l2 H2]. exists (l1 ++ l2)%list. now rewrite H2, H1, app_assoc.
Qed.

Lemma Grows_ret {A} (v : A) : Grows (ret v).
Proof. intros w. apply grows_refl. Qed.

Lemma Grows_throw {A} (e : JsError) : Grows (@throw A e).
Proof. intros w. apply grows_refl. Qed.

Lemma Grows_pending {A} : Grows (fun w => (@Pending JsError A, w)).
Proof. intros w. apply grows_refl. Qed.

Lemma Grows_bind {A B} (m : IO A) (k : A -> IO B) :
  Grows m -> (forall a, Grows (k a)) -> Grows (bind m k).
Proof.
  intros Hm Hk w. unfold bind. specialize (Hm w).
  destruct (m w) as [[a|e|] w1]; cbn [snd] in *; try assumption.
  eapply grows_trans; [exact Hm | apply Hk].
Qed.

Lemma Grows_execute tx : Grows (execute tx).
Proof.
  intros w. unfold execute.
  destruct (ledger_execute w (ledger_calls w) tx); exists [Execute tx]; reflexivity.
Qed.

Lemma Grows_getReceipt response : Grows (getReceipt response).
Proof.
  intros w. unfold getReceipt.
  destruct (ledger_receipt w (ledger_calls w) response);
    exists [GetReceipt response]; reflexivity.
Qed.

Lemma Grows_toString id : Grows (toString id).
Proof. destruct id; [apply Grows_ret | apply Grows_throw]. Qed.

Lemma Grows_console_log text : Grows (console_log text).
Proof. intros w. exists []. cbn. now rewrite app_nil_r. Qed.

Lemma Grows_monitorTransaction transactionId :
  Grows (TransactionMonitor.monitorTransaction transactionId).
Proof.
  intros w.
  destruct (MonitorProps.monitorTransaction_fulfils transactionId w) as (w1 & Hrun & Hled).
  rewrite Hrun. destruct Hled as (_ & _ & _ & _ & Hcalls).
  exists []. cbn [snd]. now rewrite app_nil_r.
Qed.

Lemma Grows_append_loop fileId chunks : forall fuel i,
  Grows (FileService.append_loop fuel fileId chunks i).
Proof.
  induction fuel as [|fuel IH]; intros i; cbn [FileService.append_loop].
  - apply Grows_pending.
  - destruct (_ <? _)%Z; [|apply Grows_ret].
    apply Grows_bind; [apply Grows_execute | intros _; apply IH].
Qed.

Lemma Grows_append_chunks fileId bytecode : forall fuel offset,
  Grows (SmartContractService.append_chunks fuel fileId bytecode offset).
Proof.
  induction fuel as [|fuel IH]; intros offset; cbn [SmartContractService.append_chunks].
  - apply Grows_pending.
  - destruct (_ <? _)%Z; [|apply Grows_ret].
    apply Grows_bind; [apply Grows_execute | intros _; apply IH].
Qed.

Lemma Grows_storeFileMetadata : Grows FileService.storeFileMetadata.
Proof. apply Grows_console_log. Qed.

Lemma Grows_setContents chunk : Grows (FileService.setContents chunk).
Proof. destruct chunk; [apply Grows_ret | apply Grows_throw]. Qed.

Create HintDb grows.
#[local] Hint Resolve Grows_setContents Grows_storeFileMetadata Grows_ret Grows_throw Grows_pending Grows_execute Grows_getReceipt
  Grows_toString Grows_console_log Grows_monitorTransaction Grows_append_loop
  Grows_append_chunks : grows.

Ltac grows := repeat (first [ solve [auto with grows] | apply Grows_bind; [|intros ?] ]).

(** A payload that is not empty has a chunk 0. *)
Lemma chunk0_exists (contents : Buffer) :
  contents <> [] ->
  exists chunk0 rest,
    Segments.slices contents FileService.chunkSize 0
      (Segments.segments_from (Z.of_nat (List.length contents)) FileService.chunkSize 0)
    = chunk0 :: rest.
Proof.
  intros Hne. unfold Segments.segments_from, FileService.chunkSize.
  assert (Hlen : 1 <= Z.of_nat (List.length contents))
    by (destruct contents; [contradiction | cbn [List.length]; lia]).
  assert (Hcount : 1 <= (Z.of_nat (List.length contents) - 0 + 6144 - 1) / 6144)
    by (apply Z.div_le_lower_bound; lia).
  destruct (Z.to_nat ((Z.of_nat (List.length contents) - 0 + 6144 - 1) / 6144))
    as [|count] eqn:Hc; [lia|].
  unfold Segments.slices. cbn [seq map]. eexists. eexists. reflexivity.
Qed.

(** An empty payload has none. *)
Lemma no_chunk_of_nothing :
  Segments.slices [] FileService.chunkSize 0
    (Segments.segments_from (Z.of_nat (@List.length Byte.byte [])) FileService.chunkSize 0)
  = [].
Proof. reflexivity. Qed.

(** Whenever it is invoked on a payload that is not empty, the operation of
    [createFile] begins by sending the create transaction with chunk 0. *)
Lemma createFile_operation_starts_with_create operatorPublicKey fileConfig w :
  UploadReadings.contents_of fileConfig <> [] ->
  exists rest,
    ledger_calls (snd (FileService.createFile_operation operatorPublicKey fileConfig w))
    = (ledger_calls w ++ Execute (createFile_tx operatorPublicKey fileConfig) :: rest)%list.
Proof.
  intros Hne. destruct (chunk0_exists Hne) as (chunk0 & rest0 & Hchunks).
  unfold UploadReadings.contents_of in Hchunks.
  unfold FileService.createFile_operation, createFile_tx, FileService.split.
  rewrite SplitProps.chunk_loop_slices by (unfold FileService.chunkSize; lia).
  cbn [app]. rewrite Hchunks. cbn [nth_error FileService.setContents].
  unfold bind at 1. cbn [ret].
  match goal with
  | |- context [bind (execute ?tx) ?k] =>
      set (create := tx); set (after := k)
  end.
  assert (Hafter : forall response, Grows (after response)).
  { intros ?; subst after; cbv beta; grows. }
  unfold bind at 1. unfold execute at 1.
  destruct (ledger_execute w (ledger_calls w) create) as [e | response].
  - exists []. reflexivity.
  - destruct (Hafter response (update_ledger_calls (fun l => (l ++ [Execute create])%list) w))
      as [rest Hrest].
    exists rest. rewrite Hrest. cbn. now rewrite <- app_assoc.
Qed.

Lemma deployLargeContract_operation_starts_with_create
      operatorPublicKey contractBytecode constructorParams gas w :
  exists rest,
    ledger_calls (snd (SmartContractService.deployLargeContract_operation
                         operatorPublicKey contractBytecode constructorParams gas w))
    = (ledger_calls w ++ Execute (deploy_tx operatorPublicKey contractBytecode) :: rest)%list.
Proof.
  unfold SmartContractService.deployLargeContract_operation, deploy_tx.
  match goal with
  | |- context [bind (execute ?tx) ?k] =>
      set (create := tx); set (after := k)
  end.
  assert (Hafter : forall response, Grows (after response)) by (intros ?; subst after; cbv beta; grows).
  unfold bind at 1. unfold execute at 1.
  destruct (ledger_execute w (ledger_calls w) create) as [e | response].
  - exists []. reflexivity.
  - destruct (Hafter response (update_ledger_calls (fun l => (l ++ [Execute create])%list) w))
      as [rest Hrest].
    exists rest. rewrite Hrest. cbn. now rewrite <- app_assoc.
Qed.

Lemma createFile_operation_grows operatorPublicKey fileConfig :
  Grows (FileService.createFile_operation operatorPublicKey fileConfig).
Proof.
  unfold FileService.createFile_operation, FileService.split.
  rewrite SplitProps.chunk_loop_slices by (unfold FileService.chunkSize; lia).
  cbn [app]. grows.
Qed.

Lemma deployLargeContract_operation_grows operatorPublicKey contractBytecode constructorParams gas :
  Grows (SmartContractService.deployLargeContract_operation
           operatorPublicKey contractBytecode constructorParams gas).
Proof.
  intros w.
  destruct (deployLargeContract_operation_starts_with_create
              operatorPublicKey contractBytecode constructorParams gas w) as [rest H].
  eexists. exact H.
Qed.

(** An attempt of [createFile] in which the ledger accepts the create call
    and the appends of chunks [1 .. k-1] and turns down the append of chunk
    [k] rejects as a whole, with the ledger's error. *)
Lemma append_loop_rejects fileId chunks e : forall m fuel i w,
  (i + m < List.length chunks)%nat ->
  (forall j, (j < m)%nat ->
     exists r,
       ledger_execute w
         (ledger_calls w
          ++ map (fun c => Execute (FileAppendTransaction fileId (nth_error chunks c)))
                 (seq i j))%list
         (FileAppendTransaction fileId (nth_error chunks (i + j))) = inr r) ->
  ledger_execute w
    (ledger_calls w
     ++ map (fun c => Execute (FileAppendTransaction fileId (nth_error chunks c)))
            (seq i m))%list
    (FileAppendTransaction fileId (nth_error chunks (i + m))) = inl e ->
  exists w1,
    FileService.append_loop (S m + fuel) fileId chunks (Z.of_nat i) w = (Rejected e, w1)
    /\ ledger_calls w1
       = (ledger_calls w
          ++ map (fun c => Execute (FileAppendTransaction fileId (nth_error chunks c)))
                 (seq i (S m)))%list.
Proof.
  induction m as [|m IH]; intros fuel i w Hlen Hok Hfail.
  - cbn [Nat.add FileService.append_loop].
    destruct (Z.ltb_spec (Z.of_nat i) (Z.of_nat (List.length chunks))); [|lia].
    unfold bind, execute. rewrite Nat2Z.id.
    cbn [seq map] in Hfail. rewrite app_nil_r, Nat.add_0_r in Hfail. rewrite Hfail.
    eexists. split; reflexivity.
  - cbn [Nat.add FileService.append_loop].
    destruct (Z.ltb_spec (Z.of_nat i) (Z.of_nat (List.length chunks))); [|lia].
    unfold bind at 1, execute at 1. rewrite Nat2Z.id.
    destruct (Hok O ltac:(lia)) as [r Hr].
    cbn [seq map] in Hr. rewrite app_nil_r, Nat.add_0_r in Hr. rewrite Hr.
    set (w' := update_ledger_calls _ w).
    replace (Z.of_nat i + 1) with (Z.of_nat (S i)) by lia.
    destruct (IH fuel (S i) w') as (w1 & Hrun & Hcalls).
    + lia.
    + intros j Hj. destruct (Hok (S j) ltac:(lia)) as [r' Hr'].
      exists r'. subst w'. cbn [ledger_execute ledger_calls update_ledger_calls].
      rewrite <- app_assoc. cbn [app].
      replace (S i + j)%nat with (i + S j)%nat by lia. exact Hr'.
    + subst w'. cbn [ledger_execute ledger_calls update_ledger_calls].
      rewrite <- app_assoc. cbn [app].
      replace (S i + m)%nat with (i + S m)%nat by lia. exact Hfail.
    + exists w1. split; [exact Hrun|].
      rewrite Hcalls. subst w'. cbn [ledger_calls update_ledger_calls].
      rewrite <- app_assoc. reflexivity.
Qed.

Lemma createFile_append_failure
      operatorPublicKey fileConfig w chunks response receipt fid (k : nat) e :
  let contents :=
      match FileService.cfg_contents fileConfig with
      | inr text => Buffer_from_utf8 text
      | inl buffer => buffer
      end in
  let create := createFile_tx operatorPublicKey fileConfig in
  let append := fun c => Execute (FileAppendTransaction fid (nth_error chunks c)) in
  let before := fun j =>
      (ledger_calls w ++ [Execute create; GetReceipt response]
                    ++ map append (seq 1 (j - 1)))%list in
  FileService.split contents FileService.chunkSize = Some chunks ->
  ledger_execute w (ledger_calls w) create = inr response ->
  ledger_receipt w (ledger_calls w ++ [Execute create])%list response = inr receipt ->
  fileId receipt = Some fid ->
  (1 <= k < List.length chunks)%nat ->
  (forall j, (1 <= j < k)%nat ->
     exists r, ledger_execute w (before j) (FileAppendTransaction fid (nth_error chunks j))
               = inr r) ->
  ledger_execute w (before k) (FileAppendTransaction fid (nth_error chunks k)) = inl e ->
  exists w1,
    FileService.createFile_operation operatorPublicKey fileConfig w = (Rejected e, w1)
    /\ ledger_calls w1 = (before k ++ [append k])%list.
Proof.
  intros contents create append before Hsplit Hcreate Hreceipt Hfid Hk Hok Hfail.
  assert (Hchunks : chunks = Segments.slices contents FileService.chunkSize 0
                      (Segments.segments_from (Z.of_nat (List.length contents))
                                                 FileService.chunkSize 0)).
  { unfold FileService.split in Hsplit.
    rewrite SplitProps.chunk_loop_slices in Hsplit by (unfold FileService.chunkSize; lia).
    now inversion Hsplit. }
  unfold FileService.createFile_operation. fold contents. rewrite Hsplit.
  destruct (nth_error chunks 0) as [chunk0|] eqn:Hchunk0;
    [|destruct chunks; [cbn [List.length] in Hk; lia | discriminate]].
  cbn [FileService.setContents]. unfold bind at 1. cbn [ret].
  assert (Htx : FileCreateTransaction
                  match FileService.cfg_keys fileConfig with
                  | Some ks => ks
                  | None => [operatorPublicKey]
                  end (Some chunk0) (FileService.cfg_expirationTime fileConfig)
                  (FileService.nonempty (FileService.cfg_memo fileConfig)) = create).
  { subst create. unfold createFile_tx. fold contents. now rewrite <- Hchunks, Hchunk0. }
  rewrite Htx.
  unfold bind at 1, execute at 1. rewrite Hcreate.
  unfold bind at 1, getReceipt at 1.
  cbn [ledger_receipt ledger_calls update_ledger_calls]. rewrite Hreceipt, Hfid.
  unfold bind at 1. cbn [toString ret].
  unfold bind at 1, console_log at 1.
  set (w3 := update_console _ _).
  destruct (@append_loop_rejects fid chunks e (k - 1) (List.length chunks - k + 1) 1 w3)
    as (w4 & Hrun & Hcalls).
  - lia.
  - intros j Hj. destruct (Hok (S j) ltac:(lia)) as [r Hr]. exists r.
    subst w3 before. cbn [ledger_execute ledger_calls update_ledger_calls update_console].
    cbn beta in Hr. replace (S j - 1)%nat with j in Hr by lia.
    rewrite <- !app_assoc. exact Hr.
  - subst w3 before. cbn [ledger_execute ledger_calls update_ledger_calls update_console].
    cbn beta in Hfail. replace (1 + (k - 1))%nat with k by lia.
    rewrite <- !app_assoc. exact Hfail.
  - replace (S (k - 1) + (List.length chunks - k + 1))%nat with (S (List.length chunks))
      in Hrun by lia.
    unfold bind at 1. change (Z.of_nat 1) with 1 in Hrun. rewrite Hrun.
    exists w4. split; [reflexivity|].
    rewrite Hcalls. subst w3 before.
    cbn [ledger_calls update_ledger_calls update_console]. cbn beta.
    replace (S (k - 1)) with (k - 1 + 1)%nat by lia.
    rewrite seq_app, map_app, <- !app_assoc. cbn [seq map app].
    replace (1 + (k - 1))%nat with k by lia. reflexivity.
Qed.

(** *** When the ledger accepts every call *)

Lemma file_contents_app calls1 calls2 :
  file_contents (calls1 ++ calls2) = (file_contents calls1 ++ file_contents calls2)%list.
Proof. unfold file_contents. apply flat_map_app. Qed.

Lemma append_loop_accepted fileId chunks : forall fuel i w,
  accepting w ->
  (List.length chunks - i < fuel)%nat ->
  exists w1,
    FileService.append_loop fuel fileId chunks (Z.of_nat i) w = (Fulfilled tt, w1)
    /\ ledger_calls w1
       = (ledger_calls w
          ++ map (fun c => Execute (FileAppendTransaction fileId (nth_error chunks c)))
                 (seq i (List.length chunks - i)))%list
    /\ same_oracles w w1.
Proof.
  induction fuel as [|fuel IH]; intros i w Hacc Hfuel; [lia|].
  cbn [FileService.append_loop].
  destruct (Z.ltb_spec (Z.of_nat i) (Z.of_nat (List.length chunks))).
  - unfold bind at 1, execute at 1. rewrite Nat2Z.id.
    destruct (proj1 Hacc (ledger_calls w)
                    (FileAppendTransaction fileId (nth_error chunks i))) as [r Hr].
    rewrite Hr. set (w' := update_ledger_calls _ w).
    replace (Z.of_nat i + 1) with (Z.of_nat (S i)) by lia.
    destruct (IH (S i) w') as (w1 & Hrun & Hcalls & Hsame).
    + exact Hacc.
    + lia.
    + exists w1. split; [exact Hrun|]. split; [|exact Hsame].
      rewrite Hcalls. subst w'. cbn [ledger_calls update_ledger_calls].
      replace (List.length chunks - i)%nat with (S (List.length chunks - S i)) by lia.
      cbn [seq map]. now rewrite <- app_assoc.
  - exists w. replace (List.length chunks - i)%nat with O by lia.
    cbn [seq map]. rewrite app_nil_r. repeat split.
Qed.

Lemma append_chunks_accepted fileId bytecode : forall fuel offset w,
  accepting w ->
  0 <= offset ->
  (Z.to_nat (Z.of_nat (List.length bytecode) - offset) < fuel)%nat ->
  exists w1,
    SmartContractService.append_chunks fuel fileId bytecode offset w = (Fulfilled tt, w1)
    /\ ledger_calls w1
       = (ledger_calls w
          ++ map (fun c => Execute (FileAppendTransaction fileId (Some c)))
                 (Segments.slices bytecode 4096 offset
                    (Segments.segments_from (Z.of_nat (List.length bytecode))
                                               4096 offset)))%list
    /\ same_oracles w w1.
Proof.
  induction fuel as [|fuel IH]; intros offset w Hacc Hoff Hfuel; [lia|].
  cbn [SmartContractService.append_chunks].
  destruct (Z.ltb_spec offset (Z.of_nat (List.length bytecode))).
  - unfold bind at 1, execute at 1.
    destruct (proj1 Hacc (ledger_calls w)
                (FileAppendTransaction fileId (Some (slice bytecode offset (offset + 4096)))))
      as [r Hr].
    rewrite Hr. set (w' := update_ledger_calls _ w).
    destruct (IH (offset + 4096) w') as (w1 & Hrun & Hcalls & Hsame).
    + exact Hacc.
    + lia.
    + lia.
    + exists w1. split; [exact Hrun|]. split; [|exact Hsame].
      rewrite Hcalls. subst w'. cbn [ledger_calls update_ledger_calls].
      rewrite (@SplitProps.segments_from_step _ 4096 offset) by lia.
      rewrite SplitProps.slices_succ. cbn [map]. now rewrite <- app_assoc.
  - exists w. rewrite SplitProps.segments_from_end by lia.
    cbn [Segments.slices seq map]. rewrite app_nil_r. repeat split.
Qed.

Lemma file_contents_appends fileId (chunk0 : Buffer) (rest : list Buffer) :
  file_contents
    (map (fun c => Execute (FileAppendTransaction fileId (nth_error (chunk0 :: rest) c)))
         (seq 1 (List.length rest)))
  = rest.
Proof.
  rewrite <- seq_shift, map_map. cbn [nth_error].
  induction rest as [|b rest IH]; [reflexivity|].
  cbn [List.length seq map]. rewrite <- seq_shift, map_map.
  cbn [nth_error file_contents flat_map app]. f_equal. exact IH.
Qed.

Lemma file_contents_slices fileId (chunks : list Buffer) :
  file_contents (map (fun c => Execute (FileAppendTransaction fileId (Some c))) chunks)
  = chunks.
Proof.
  induction chunks as [|b rest IH]; [reflexivity|].
  cbn [map file_contents flat_map app]. f_equal. exact IH.
Qed.

(** On such a ledger [createFile] sends, in order, exactly the chunks of
    the splitter at 6144 bytes: chunk 0 in the create call, the others in
    append calls. *)
Lemma createFile_sends_the_chunks operatorPublicKey fileConfig w :
  accepting w ->
  let contents :=
      match FileService.cfg_contents fileConfig with
      | inr text => Buffer_from_utf8 text
      | inl buffer => buffer
      end in
  exists chunks,
    FileService.split contents FileService.chunkSize = Some chunks
    /\ file_contents
         (ledger_calls (snd (FileService.createFile_operation operatorPublicKey fileConfig w)))
       = (file_contents (ledger_calls w) ++ chunks)%list.
Proof.
  intros Hacc contents.
  unfold FileService.createFile_operation. fold contents.
  unfold FileService.split.
  rewrite SplitProps.chunk_loop_slices by (unfold FileService.chunkSize; lia).
  cbn [app]. eexists. split; [reflexivity|].
  set (chunks := Segments.slices _ _ _ _).
  destruct (nth_error chunks 0) as [chunk0|] eqn:Hchunk0;
    [|destruct chunks; [cbn; now rewrite app_nil_r | discriminate]].
  cbn [FileService.setContents]. unfold bind at 1. cbn [ret].
  match goal with
  | |- context [bind (execute ?tx) _] => set (create := tx)
  end.
  unfold bind at 1, execute at 1.
  destruct (proj1 Hacc (ledger_calls w) create) as [response Hr]. rewrite Hr.
  unfold bind at 1, getReceipt at 1.
  cbn [ledger_receipt ledger_calls update_ledger_calls].
  destruct (proj2 Hacc (ledger_calls w ++ [Execute create])%list response)
    as (receipt & fid & Hrc & Hfid).
  rewrite Hrc, Hfid.
  unfold bind at 1. cbn [toString ret].
  unfold bind at 1, console_log at 1.
  set (w3 := update_console _ _).
  destruct (@append_loop_accepted fid chunks (S (List.length chunks)) 1 w3)
    as (w4 & Hrun & Hcalls & _).
  { subst w3. exact Hacc. }
  { lia. }
  change (Z.of_nat 1) with 1 in Hrun.
  unfold bind at 1. rewrite Hrun.
  unfold bind at 1, FileService.storeFileMetadata, console_log at 1.
  set (w5 := update_console _ w4).
  destruct (MonitorProps.monitorTransaction_fulfils (transactionId response) w5)
    as (w6 & Hmon & (_ & _ & _ & _ & Hsame)).
  unfold bind at 1. rewrite Hmon. cbn [ret snd].
  rewrite Hsame. subst w5. cbn [ledger_calls update_console]. rewrite Hcalls.
  subst w3. cbn [ledger_calls update_console update_ledger_calls].
  rewrite !file_contents_app. rewrite <- !app_assoc. f_equal.
  subst create. destruct chunks as [|first rest]; [discriminate|].
  cbn [nth_error] in Hchunk0. inversion Hchunk0; subst first.
  cbn [nth_error List.length]. replace (S (List.length rest) - 1)%nat
    with (List.length rest) by lia.
  rewrite file_contents_appends. reflexivity.
Qed.

(** And [deployLargeContract] sends the create-then-append slices at 4096
    bytes. *)
Lemma deployLargeContract_sends_the_chunks
      operatorPublicKey contractBytecode constructorParams gas w :
  accepting w ->
  file_contents
    (ledger_calls (snd (SmartContractService.deployLargeContract_operation
                          operatorPublicKey contractBytecode constructorParams gas w)))
  = (file_contents (ledger_calls w)
     ++ create_then_append (Buffer_from_hex contractBytecode) 4096)%list.
Proof.
  intros Hacc.
  unfold SmartContractService.deployLargeContract_operation.
  set (bytecode := Buffer_from_hex contractBytecode).
  match goal with
  | |- context [bind (execute ?tx) _] => set (create := tx)
  end.
  unfold bind at 1, execute at 1.
  destruct (proj1 Hacc (ledger_calls w) create) as [response Hr]. rewrite Hr.
  unfold bind at 1, getReceipt at 1.
  cbn [ledger_receipt ledger_calls update_ledger_calls].
  destruct (proj2 Hacc (ledger_calls w ++ [Execute create])%list response)
    as (receipt & fid & Hrc & Hfid).
  rewrite Hrc, Hfid.
  unfold bind at 1. cbn [toString ret].
  unfold bind at 1, console_log at 1.
  set (w3 := update_console _ _).
  destruct (@append_chunks_accepted fid bytecode (S (List.length bytecode)) 4096 w3)
    as (w4 & Hrun & Hcalls & Hsame4).
  { subst w3. exact Hacc. }
  { lia. }
  { lia. }
  unfold bind at 1. rewrite Hrun.
  assert (Hacc4 : accepting w4).
  { destruct Hsame4 as [He Hrc4]. unfold accepting. rewrite He, Hrc4.
    subst w3. exact Hacc. }
  set (deploy := ContractCreateTransaction _ _ _ _).
  unfold bind at 1, execute at 1.
  destruct (proj1 Hacc4 (ledger_calls w4) deploy) as [response2 Hr2]. rewrite Hr2.
  unfold bind at 1, getReceipt at 1.
  cbn [ledger_receipt ledger_calls update_ledger_calls].
  destruct (proj2 Hacc4 (ledger_calls w4 ++ [Execute deploy])%list response2)
    as (receipt2 & fid2 & Hrc2 & _).
  rewrite Hrc2.
  unfold bind at 1.
  destruct (contractId receipt2) as [cid|]; cbn [toString ret throw].
  - unfold bind at 1, console_log at 1.
    set (w7 := update_console _ _).
    destruct (MonitorProps.monitorTransaction_fulfils (transactionId response2) w7)
      as (w8 & Hmon & (_ & _ & _ & _ & Hsame8)).
    unfold bind at 1. rewrite Hmon. cbn [ret snd]. rewrite Hsame8.
    subst w7. cbn [ledger_calls update_console update_ledger_calls]. rewrite Hcalls.
    subst w3. cbn [ledger_calls update_console update_ledger_calls].
    rewrite !file_contents_app, file_contents_slices. cbn [file_contents flat_map].
    rewrite !app_nil_r, <- !app_assoc. reflexivity.
  - cbn [snd ledger_calls update_ledger_calls]. rewrite Hcalls.
    subst w3. cbn [ledger_calls update_console update_ledger_calls].
    rewrite !file_contents_app, file_contents_slices. cbn [file_contents flat_map].
    rewrite !app_nil_r, <- !app_assoc. reflexivity.
Qed.

Section WholeOperation.
Context {T : Type}.
Variable operation : IO T.
Variable create : Transaction.
Hypothesis operation_grows : Grows operation.
Hypothesis starts_with_create :
  forall w, exists rest,
      ledger_calls (snd (operation w)) = (ledger_calls w ++ Execute create :: rest)%list.

(** An operation that always begins with its create call, under the
    executor of the services: what follows a first rejection. *)
Lemma whole_operation_is_rerun (w w1 : World) (e1 : JsError) :
  operation w = (Rejected e1, w1) ->
  (exists rest,
      ledger_calls (snd (Services.with_retry operation w))
      = (ledger_calls w1 ++ Execute create :: rest)%list)
  /\ (2 <= invocations (snd (fst (Services.with_retry operation w))) <= 3)%nat
  /\ (forall v w2,
         operation w1 = (Fulfilled v, w2) ->
         Services.with_retry operation w
         = (Fulfilled v, [Invoke 1; Warn 1 (message e1) 2000; Timeout 2000; Invoke 2], w2))
  /\ (forall e2 w2,
         operation w1 = (Rejected e2, w2) ->
         (exists rest,
             ledger_calls (snd (Services.with_retry operation w))
             = (ledger_calls w2 ++ Execute create :: rest)%list)
         /\ snd (fst (Services.with_retry operation w))
            = [Invoke 1; Warn 1 (message e1) 2000; Timeout 2000;
               Invoke 2; Warn 2 (message e2) 4000; Timeout 4000; Invoke 3]
         /\ snd (Services.with_retry operation w) = snd (operation w2)
         /\ (forall e3, fst (operation w2) = Rejected e3 ->
                        fst (fst (Services.with_retry operation w)) = Rejected (Rethrown e3))
         /\ (forall v, fst (operation w2) = Fulfilled v ->
                       fst (fst (Services.with_retry operation w)) = Fulfilled v)).
Proof.
  intros H1. unfold Services.with_retry.
  assert (Hthird : forall e2 w2,
             operation w1 = (Rejected e2, w2) ->
             executeWithRetry error_message operation (inject_Z 3) w
             = (match fst (operation w2) with
                | Fulfilled v => Fulfilled v
                | Rejected e3 => Rejected (Rethrown e3)
                | Pending => Pending
                end,
                [Invoke 1; Warn 1 (message e1) 2000; Timeout 2000;
                 Invoke 2; Warn 2 (message e2) 4000; Timeout 4000; Invoke 3],
                snd (operation w2))).
  { intros e2 w2 H2.
    exact (@RetryProps.three_attempts_in_a_row _ _ _ error_message operation w w1 w2 e1 e2
             (message e1) (message e2) H1 eq_refl H2 eq_refl). }
  destruct (@RetryProps.second_attempt _ _ _ error_message operation grows
              grows_refl grows_trans operation_grows w w1 e1 (message e1) H1 eq_refl)
    as [[more Hmore] Hinv].
  split; [|split; [|split]].
  - destruct (starts_with_create w1) as [rest Hrest].
    exists (rest ++ more)%list. rewrite Hmore, Hrest, <- app_assoc. reflexivity.
  - split; [exact Hinv|].
    destruct (operation w1) as [[v|e2|] w2] eqn:H2.
    + rewrite (@RetryProps.two_attempts _ _ _ error_message operation w w1 w2 e1
                 (message e1) v H1 eq_refl H2). cbn. lia.
    + rewrite (Hthird e2 w2 eq_refl). cbn. lia.
    + unfold executeWithRetry, retry_fuel. rewrite Qfloor_Z.
      change (S (Z.to_nat 3)) with 4%nat. cbn [retry_from].
      rewrite !RetryProps.Qle_bool_inject, !RetryProps.Qeq_bool_inject.
      cbn [Z.add Z.leb Z.eqb Z.compare Pos.add Pos.succ Pos.compare Pos.compare_cont Pos.eqb].
      rewrite H1. cbn [error_message]. cbv beta iota zeta. rewrite H2. cbn. lia.
  - intros v w2 H2.
    exact (@RetryProps.two_attempts _ _ _ error_message operation w w1 w2 e1
             (message e1) v H1 eq_refl H2).
  - intros e2 w2 H2. rewrite (Hthird e2 w2 H2). cbn [fst snd].
    split; [|split; [reflexivity|split; [reflexivity|split]]].
    + destruct (starts_with_create w2) as [rest Hrest]. exists rest. exact Hrest.
    + intros e3 H3. now rewrite H3.
    + intros v H3. now rewrite H3.
Qed.
End WholeOperation.

(** C1, as the code has it. [createFile] and [deployLargeContract] hand
    their whole body (create call, appends, and what follows) to one
    [executeWithRetry]; no create or append call has a retry of its own.
    When an attempt rejects, the executor invokes that whole body again from
    the world the failed attempt left, up to three attempts in all: the
    next call on the ledger is a new create call carrying chunk 0, whatever
    had been applied before, and the same again after a second rejection;
    what the third attempt does is what the call does. For [createFile]
    the payload is not empty, so that there is a chunk 0. *)
Theorem whole_upload_is_retried :
  (forall operatorPublicKey fileConfig w e1 w1,
      UploadReadings.contents_of fileConfig <> [] ->
      FileService.createFile_operation operatorPublicKey fileConfig w = (Rejected e1, w1) ->
      (exists rest,
          ledger_calls (snd (FileService.createFile operatorPublicKey fileConfig w))
          = (ledger_calls w1
             ++ Execute (createFile_tx operatorPublicKey fileConfig) :: rest)%list)
      /\ (2 <= invocations
                 (snd (fst (FileService.createFile operatorPublicKey fileConfig w))) <= 3)%nat
      /\ (forall v w2,
             FileService.createFile_operation operatorPublicKey fileConfig w1
             = (Fulfilled v, w2) ->
             FileService.createFile operatorPublicKey fileConfig w
             = (Fulfilled v,
                [Invoke 1; Warn 1 (message e1) 2000; Timeout 2000; Invoke 2], w2))
      /\ (forall e2 w2,
             FileService.createFile_operation operatorPublicKey fileConfig w1
             = (Rejected e2, w2) ->
             (exists rest,
                 ledger_calls (snd (FileService.createFile operatorPublicKey fileConfig w))
                 = (ledger_calls w2
                    ++ Execute (createFile_tx operatorPublicKey fileConfig) :: rest)%list)
             /\ snd (fst (FileService.createFile operatorPublicKey fileConfig w))
                = [Invoke 1; Warn 1 (message e1) 2000; Timeout 2000;
                   Invoke 2; Warn 2 (message e2) 4000; Timeout 4000; Invoke 3]
             /\ snd (FileService.createFile operatorPublicKey fileConfig w)
                = snd (FileService.createFile_operation operatorPublicKey fileConfig w2)
             /\ (forall e3,
                    fst (FileService.createFile_operation operatorPublicKey fileConfig w2)
                    = Rejected e3 ->
                    fst (fst (FileService.createFile operatorPublicKey fileConfig w))
                    = Rejected (Rethrown e3))
             /\ (forall v,
                    fst (FileService.createFile_operation operatorPublicKey fileConfig w2)
                    = Fulfilled v ->
                    fst (fst (FileService.createFile operatorPublicKey fileConfig w))
                    = Fulfilled v)))
  /\ (forall operatorPublicKey contractBytecode constructorParams gas w e1 w1,
      SmartContractService.deployLargeContract_operation
        operatorPublicKey contractBytecode constructorParams
        (match gas with Some g => g | None => 200000 end) w = (Rejected e1, w1) ->
      (exists rest,
          ledger_calls (snd (SmartContractService.deployLargeContract
                               operatorPublicKey contractBytecode constructorParams gas w))
          = (ledger_calls w1
             ++ Execute (deploy_tx operatorPublicKey contractBytecode) :: rest)%list)
      /\ (2 <= invocations
                 (snd (fst (SmartContractService.deployLargeContract
                              operatorPublicKey contractBytecode constructorParams gas w)))
           <= 3)%nat
      /\ (forall v w2,
             SmartContractService.deployLargeContract_operation
               operatorPublicKey contractBytecode constructorParams
               (match gas with Some g => g | None => 200000 end) w1 = (Fulfilled v, w2) ->
             SmartContractService.deployLargeContract
               operatorPublicKey contractBytecode constructorParams gas w
             = (Fulfilled v,
                [Invoke 1; Warn 1 (message e1) 2000; Timeout 2000; Invoke 2], w2))
      /\ (forall e2 w2,
             SmartContractService.deployLargeContract_operation
               operatorPublicKey contractBytecode constructorParams
               (match gas with Some g => g | None => 200000 end) w1 = (Rejected e2, w2) ->
             (exists rest,
                 ledger_calls (snd (SmartContractService.deployLargeContract
                                      operatorPublicKey contractBytecode constructorParams
                                      gas w))
                 = (ledger_calls w2
                    ++ Execute (deploy_tx operatorPublicKey contractBytecode) :: rest)%list)
             /\ snd (fst (SmartContractService.deployLargeContract
                            operatorPublicKey contractBytecode constructorParams gas w))
                = [Invoke 1; Warn 1 (message e1) 2000; Timeout 2000;
                   Invoke 2; Warn 2 (message e2) 4000; Timeout 4000; Invoke 3]
             /\ snd (SmartContractService.deployLargeContract
                       operatorPublicKey contractBytecode constructorParams gas w)
                = snd (SmartContractService.deployLargeContract_operation
                         operatorPublicKey contractBytecode constructorParams
                         (match gas with Some g => g | None => 200000 end) w2)
             /\ (forall e3,
                    fst (SmartContractService.deployLargeContract_operation
                           operatorPublicKey contractBytecode constructorParams
                           (match gas with Some g => g | None => 200000 end) w2)
                    = Rejected e3 ->
                    fst (fst (SmartContractService.deployLargeContract
                                operatorPublicKey contractBytecode constructorParams gas w))
                    = Rejected (Rethrown e3))
             /\ (forall v,
                    fst (SmartContractService.deployLargeContract_operation
                           operatorPublicKey contractBytecode constructorParams
                           (match gas with Some g => g | None => 200000 end) w2)
                    = Fulfilled v ->
                    fst (fst (SmartContractService.deployLargeContract
                                operatorPublicKey contractBytecode constructorParams gas w))
                    = Fulfilled v))).
Proof.
  split.
  - intros key cfg w e1 w1 Hne Hfail.
    exact (@whole_operation_is_rerun _
             (FileService.createFile_operation key cfg) (createFile_tx key cfg)
             (createFile_operation_grows key cfg)
             (fun w0 => @createFile_operation_starts_with_create key cfg w0 Hne)
             w w1 e1 Hfail).
  - intros key bytecode params gas w e1 w1 Hfail.
    exact (@whole_operation_is_rerun _
             (SmartContractService.deployLargeContract_operation key bytecode params
                (match gas with Some g => g | None => 200000 end))
             (deploy_tx key bytecode)
             (deployLargeContract_operation_grows key bytecode params _)
             (deployLargeContract_operation_starts_with_create key bytecode params _)
             w w1 e1 Hfail).
Qed.

Lemma whole_upload_is_retried_witness :
  map Fixtures.describe
      (ledger_calls (snd (FileService.createFile "operator" Fixtures.two_chunk_file
                                                 Fixtures.flaky_ledger_world)))
  = [("create", 6144); ("receipt", 0); ("append", 1);
     ("create", 6144); ("receipt", 0); ("append", 1)]
  /\ snd (fst (FileService.createFile "operator" Fixtures.two_chunk_file
                                      Fixtures.flaky_ledger_world))
     = [Invoke 1; Warn 1 "BUSY" 2000; Timeout 2000; Invoke 2].
Proof.
  assert (Hfail :
            FileService.createFile_operation "operator" Fixtures.two_chunk_file
                                             Fixtures.flaky_ledger_world
            = (Rejected (mkError "StatusError" "BUSY"),
               snd (FileService.createFile_operation "operator" Fixtures.two_chunk_file
                                                     Fixtures.flaky_ledger_world)))
    by (vm_compute; reflexivity).
  assert (Hne : UploadReadings.contents_of Fixtures.two_chunk_file <> [])
    by (vm_compute; discriminate).
  destruct (proj1 whole_upload_is_retried _ _ _ _ _ Hne Hfail) as (_ & _ & Hsecond & _).
  assert (Hok : exists v w2,
             FileService.createFile_operation
               "operator" Fixtures.two_chunk_file
               (snd (FileService.createFile_operation "operator" Fixtures.two_chunk_file
                                                      Fixtures.flaky_ledger_world))
             = (Fulfilled v, w2)
             /\ map Fixtures.describe (ledger_calls w2)
                = [("create", 6144); ("receipt", 0); ("append", 1);
                   ("create", 6144); ("receipt", 0); ("append", 1)]).
  { eexists. eexists. split; vm_compute; reflexivity. }
  destruct Hok as (v & w2 & Hop & Hcalls).
  rewrite (Hsecond v w2 Hop). split; [exact Hcalls | reflexivity].
Defined.

(** C1, as the specification words it, fails. A file of two chunks on a
    ledger that turns down the first append: the append is not retried on
    its own. The create call, already applied, is submitted a second time,
    and chunk 1 goes to the file that the second create call made. *)
Lemma createFile_resubmits_applied_chunks :
  map Fixtures.describe (ledger_calls (snd Fixtures.createFile_on_busy_ledger))
  = [("create", 6144); ("receipt", 0); ("append", 1);
     ("create", 6144); ("receipt", 0); ("append", 1)]
  /\ List.length (filter Fixtures.is_create
                         (ledger_calls (snd Fixtures.createFile_on_busy_ledger))) = 2%nat
  /\ snd (fst Fixtures.createFile_on_busy_ledger)
     = [Invoke 1; Warn 1 "BUSY" 2000; Timeout 2000; Invoke 2].
Proof. vm_compute. repeat split. Qed.

(** The same on [deployLargeContract], with bytecode of 4097 bytes. *)
Example deployLargeContract_resubmits_applied_chunks :
  let run := SmartContractService.deployLargeContract
               "operator" Fixtures.two_chunk_bytecode None None
               Fixtures.flaky_ledger_world in
  map Fixtures.describe (ledger_calls (snd run))
  = [("create", 4096); ("receipt", 0); ("append", 1);
     ("create", 4096); ("receipt", 0); ("append", 1);
     ("contract", 0); ("receipt", 0)]
  /\ snd (fst run)
     = [Invoke 1; Warn 1 "BUSY" 2000; Timeout 2000; Invoke 2].
Proof. vm_compute. repeat split. Qed.

(** When no call fails the protocol is the one the specification gives: one
    create call with chunk 0, then the appends in index order. *)
Example createFile_without_failure :
  let run := FileService.createFile "operator" Fixtures.two_chunk_file
               (Fixtures.fresh_world (Fixtures.mirror_confirming_after 0)
                  Fixtures.ledger_accepts Fixtures.ledger_receipts None) in
  map Fixtures.describe (ledger_calls (snd run))
  = [("create", 6144); ("receipt", 0); ("append", 1)]
  /\ snd (fst run) = [Invoke 1].
Proof. vm_compute. repeat split. Qed.

End UploadProps.

(* ------------------------------------------------------------------ *)
(** ** The audit log: confidentiality and pseudonyms *)

Module AuditProps.
Import Runtime ErrorHandler ConsensusService.
Local Open Scope string_scope.

Section Service.
Variable TopicId_fromString : string -> JsError + TopicId.
Variable JSON_stringify : Json -> string.
Variable aes_256_gcm : Buffer -> Buffer -> string -> string * Buffer.

(** With [encrypt] set and no key, whatever the arguments are, the call
    rejects and leaves the world as it was: nothing is sent to the ledger,
    nothing is read from the mirror node. *)
Lemma encrypt_without_key_touches_nothing (topicId : string) (msg : Json) (w : World) :
  truthy (HCS_ENCRYPTION_KEY w) = false ->
  exists e,
    submitMessage TopicId_fromString JSON_stringify aes_256_gcm topicId msg (Some true) w
    = (Rejected (Rethrown e),
       [Invoke 1; Warn 1 (message e) 2000; Timeout 2000;
        Invoke 2; Warn 2 (message e) 4000; Timeout 4000; Invoke 3], w).
Proof.
  intros Hkey. unfold submitMessage, Services.with_retry.
  destruct (TopicId_fromString topicId) as [e | topic] eqn:Htopic.
  - exists e. apply RetryProps.service_constant_failure.
    unfold submitMessage_operation, bind. now rewrite Htopic.
  - exists missing_key. apply RetryProps.service_constant_failure.
    unfold submitMessage_operation, bind. rewrite Htopic. cbn [ret].
    now rewrite Hkey.
Qed.

(** C7. For every message, a call with [encrypt = true] in an environment
    without an encryption key (and a topic identifier that parses) rejects
    with the missing-key error; the world, and with it the log of ledger
    calls, is unchanged, so the plaintext is never transmitted. *)
Theorem missing_key_fails_before_network
        (topicId : string) (topic : TopicId) (msg : Json) (w : World) :
  TopicId_fromString topicId = inr topic ->
  truthy (HCS_ENCRYPTION_KEY w) = false ->
  exists tr w',
    submitMessage TopicId_fromString JSON_stringify aes_256_gcm topicId msg (Some true) w
    = (Rejected (Rethrown missing_key), tr, w')
    /\ ledger_calls w' = ledger_calls w
    /\ fetched w' = fetched w
    /\ w' = w.
Proof.
  intros Htopic Hkey. unfold submitMessage, Services.with_retry.
  rewrite (@RetryProps.service_constant_failure _ _ _ w missing_key).
  - eexists. eexists. repeat split.
  - unfold submitMessage_operation, bind. rewrite Htopic. cbn [ret].
    now rewrite Hkey.
Qed.

(** The same through [logComplianceEvent], which always asks for
    encryption. *)
Lemma compliance_event_needs_key (topicIds : TopicIds) (topic : TopicId)
      (complianceEvent : ComplianceEvent) (w : World) :
  compliance_topic topicIds = Some topic ->
  TopicId_fromString topic = inr topic ->
  truthy (HCS_ENCRYPTION_KEY w) = false ->
  exists tr,
    logComplianceEvent TopicId_fromString JSON_stringify aes_256_gcm
                       topicIds complianceEvent w
    = (Rejected missing_key, tr, w).
Proof.
  intros Hcfg Htopic Hkey. unfold logComplianceEvent. rewrite Hcfg.
  unfold submitMessage, Services.with_retry.
  rewrite (@RetryProps.service_constant_failure _ _ _ w missing_key).
  - eexists. reflexivity.
  - unfold submitMessage_operation, bind. rewrite Htopic. cbn [ret].
    now rewrite Hkey.
Qed.
End Service.

Lemma missing_key_fails_before_network_witness :
  exists tr,
    submitMessage Fixtures.parse_topic Fixtures.stringify Fixtures.cipher
                  "0.0.5005" (JString "kyc passed") (Some true) Fixtures.keyless_world
    = (Rejected (Rethrown missing_key), tr, Fixtures.keyless_world).
Proof.
  destruct (@missing_key_fails_before_network
              Fixtures.parse_topic Fixtures.stringify Fixtures.cipher
              "0.0.5005" "0.0.5005" (JString "kyc passed") Fixtures.keyless_world
              eq_refl eq_refl) as (tr & w' & Hrun & _ & _ & Hw).
  exists tr. rewrite <- Hw at 2. exact Hrun.
Defined.

(** Without [encrypt] the same call does reach the ledger. *)
Example plaintext_message_is_sent :
  map Fixtures.describe
      (ledger_calls
         (snd (submitMessage Fixtures.parse_topic Fixtures.stringify Fixtures.cipher
                             "0.0.5005" (JString "hello") None Fixtures.keyless_world)))
  = [("message", 2); ("receipt", 0)].
Proof. vm_compute. reflexivity. Qed.

(* ------------------------------------------------------------------ *)
(** ** Pseudonyms *)

Lemma hex_length (bytes : list Z) :
  String.length (Sha256.hex bytes) = (2 * List.length bytes)%nat.
Proof.
  induction bytes as [|b rest IH]; cbn [Sha256.hex String.length List.length]; lia.
Qed.

Lemma digest_length (msg : list Z) : List.length (Sha256.digest msg) = 32%nat.
Proof. unfold Sha256.digest. cbv zeta. now rewrite !length_app. Qed.

Lemma hex_digit_lower (d : Z) : Sha256.is_lower_hex (Sha256.hex_digit d) = true.
Proof.
  unfold Sha256.hex_digit.
  assert (H : (Z.to_nat (d mod 16) < 16)%nat)
    by (pose proof (Z.mod_pos_bound d 16 ltac:(lia)); lia).
  revert H. generalize (Z.to_nat (d mod 16)). intros k Hk.
  do 16 (destruct k as [|k]; [reflexivity|]). lia.
Qed.

Lemma hex_lower (bytes : list Z) :
  Sha256.string_forall Sha256.is_lower_hex (Sha256.hex bytes) = true.
Proof.
  induction bytes as [|b rest IH]; cbn [Sha256.hex Sha256.string_forall]; [reflexivity|].
  now rewrite !hex_digit_lower, IH.
Qed.

Lemma substring_length : forall (s : string) (n m : nat),
  (n + m <= String.length s)%nat -> String.length (substring n m s) = m.
Proof.
  induction s as [|c s IH]; intros n m H; cbn [String.length] in H.
  - assert (n = O) by lia. assert (m = O) by lia. subst. reflexivity.
  - destruct n as [|n]; cbn [substring].
    + destruct m as [|m]; [reflexivity|]. cbn [String.length]. f_equal.
      apply IH. lia.
    + apply IH. lia.
Qed.

Lemma substring_forall (f : ascii -> bool) : forall (s : string) (n m : nat),
  Sha256.string_forall f s = true -> Sha256.string_forall f (substring n m s) = true.
Proof.
  induction s as [|c s IH]; intros n m H.
  - destruct n, m; reflexivity.
  - cbn [Sha256.string_forall] in H. apply andb_prop in H. destruct H as [Hc Hs].
    destruct n as [|n]; cbn [substring].
    + destruct m as [|m]; [reflexivity|].
      cbn [Sha256.string_forall]. rewrite Hc. cbn. now apply IH.
    + now apply IH.
Qed.

(** C8. [hashUserId] is the first 16 characters of the hexadecimal SHA-256
    digest of its argument: a function of the argument alone, whose value is
    always 16 characters among [0-9a-f], and which tells "user-42" from
    "user-43". *)
Theorem hashUserId_is_truncated_sha256 :
  (forall userId, hashUserId userId = substring 0 16 (Sha256.sha256_hex userId))
  /\ (forall u v, u = v -> hashUserId u = hashUserId v)
  /\ (forall userId,
         String.length (hashUserId userId) = 16%nat
         /\ Sha256.string_forall Sha256.is_lower_hex (hashUserId userId) = true)
  /\ hashUserId "user-42" = "6d894aa3ee802549"
  /\ hashUserId "user-43" = "85858a4c30f23472"
  /\ hashUserId "user-42" <> hashUserId "user-43".
Proof.
  split; [reflexivity|]. split; [now intros u v ->|]. split; [|split; [|split]].
  - intros userId. unfold hashUserId, Sha256.sha256_hex. split.
    + apply substring_length. rewrite hex_length, digest_length. cbn. lia.
    + apply substring_forall, hex_lower.
  - vm_compute. reflexivity.
  - vm_compute. reflexivity.
  - vm_compute. discriminate.
Qed.

Lemma hashUserId_is_truncated_sha256_witness :
  hashUserId "user-42" = hashUserId "user-42".
Proof.
  destruct hashUserId_is_truncated_sha256 as (_ & Hdet & _).
  apply Hdet. reflexivity.
Defined.

End AuditProps.

(* ------------------------------------------------------------------ *)
(** ** Daily costs *)

Module CostProps.
Import CostTrackerModule.
Local Open Scope float_scope.

(** C9. On 10000 transfers, 5000 messages and 500 executions (also the
    defaults) the total is 35.5; in general each class costs its count times
    $0.001, $0.0001 and $0.05, and the total is the sum of the three, all in
    double-precision arithmetic. *)
Theorem daily_costs :
  totalCost (calculateDailyCosts (Some 10000) (Some 5000) (Some 500)) = 35.5
  /\ totalCost (calculateDailyCosts None None None) = 35.5
  /\ (forall htsCount hcsCount hscsCount,
         let costs := calculateDailyCosts (Some htsCount) (Some hcsCount) (Some hscsCount) in
         htsTransfers costs = htsCount * 0.001
         /\ hcsMessages costs = hcsCount * 0.0001
         /\ contractExecutions costs = hscsCount * 0.05
         /\ totalCost costs
            = htsTransfers costs + hcsMessages costs + contractExecutions costs).
Proof.
  split; [vm_compute; reflexivity|]. split; [vm_compute; reflexivity|].
  intros htsCount hcsCount hscsCount. cbv zeta. repeat split.
Qed.

(** The three terms of the example are exact: 10, 0.5 and 25. *)
Example daily_costs_terms :
  let costs := calculateDailyCosts (Some 10000) (Some 5000) (Some 500) in
  htsTransfers costs = 10 /\ hcsMessages costs = 0.5 /\ contractExecutions costs = 25.
Proof. vm_compute. repeat split. Qed.

End CostProps.

(* ------------------------------------------------------------------ *)
(** ** The retry executor: bounds, budget and waiting time *)

Module RetryExtras.
Import ErrorHandler RetryReadings.

Section AnyBound.
Context {W E T : Type}.
Variable message : E -> option string.
Variable operation : Async W E T.
Variable q : Q.



(** Shape of any run of the loop: the invocations fit in the bound, every
    timer is preceded by a warning and an invocation, the timers are the
    backoff delays of the successive attempts, and the world is the one the
    invocations made, one after the other. *)
Lemma retry_from_shape : forall fuel attempt w,
  let '(r, tr, w') := retry_from message operation q fuel attempt w in
  (invocations tr <= Z.to_nat (Qfloor q - attempt + 1))%nat
  /\ warnings tr = List.length (delays tr)
  /\ (List.length (delays tr) <= invocations tr)%nat
  /\ delays tr
     = map (fun j => backoff_delay (attempt + Z.of_nat j)) (seq 0 (List.length (delays tr)))
  /\ w' = after_invocations operation (invocations tr) w.
Proof.
  induction fuel as [|fuel IH]; intros attempt w; cbn [retry_from].
  - repeat split; cbn; lia.
  - destruct (Qle_bool (inject_Z attempt) q) eqn:Hg; [|repeat split; cbn; lia].
    apply RetryProps.Qle_bool_floor in Hg.
    destruct (operation w) as [[v|e|] w1] eqn:Hw.
    + unfold invocations. cbn. rewrite Hw. repeat split; lia.
    + destruct (Qeq_bool (inject_Z attempt) q);
        [unfold invocations; cbn; rewrite Hw; repeat split; lia|].
      destruct (message e) as [text|];
        [|unfold invocations; cbn; rewrite Hw; repeat split; lia].
      * specialize (IH (attempt + 1) w1).
        destruct (retry_from message operation q fuel (attempt + 1) w1) as [[r tr] w2].
        destruct IH as (Hinv & Hwarn & Hlen & Hd & Hw2).
        unfold invocations, warnings in *.
        cbn [filter is_invoke is_warn List.length delays after_invocations].
        rewrite Hw. cbn [snd]. repeat split; try lia.
        -- remember (List.length (delays tr)) as len eqn:Hlen'.
           rewrite Hd. cbn [seq map]. rewrite Z.add_0_r. f_equal.
           rewrite <- seq_shift, map_map. apply map_ext. intros j. f_equal. lia.
        -- exact Hw2.
    + unfold invocations. cbn. rewrite Hw. repeat split; lia.
Qed.
End AnyBound.

(** X1. Whatever number [maxRetries] is and whatever the operation does, a
    run invokes the operation at most floor(maxRetries) times, one after the
    other from the world the previous invocation left; it arms at most one
    timer per invocation, each after a warning, and the [j]-th timer is
    always [1000 * 2^j] ms. *)
Theorem retry_budget {W E T} (message : E -> option string) (operation : Async W E T)
        (maxRetries : Q) (w : W) :
  let '(r, tr, w') := executeWithRetry message operation maxRetries w in
  (invocations tr <= Z.to_nat (Qfloor maxRetries))%nat
  /\ warnings tr = List.length (delays tr)
  /\ (List.length (delays tr) <= invocations tr)%nat
  /\ delays tr = map backoff_delay (attempts (List.length (delays tr)))
  /\ w' = after_invocations operation (invocations tr) w.
Proof.
  unfold executeWithRetry.
  pose proof (retry_from_shape message operation maxRetries (retry_fuel maxRetries) 1 w) as H.
  destruct (retry_from _ _ _ _ 1 w) as [[r tr] w'].
  destruct H as (Hinv & Hwarn & Hlen & Hd & Hw).
  repeat split; try assumption.
  - replace (Qfloor maxRetries - 1 + 1) with (Qfloor maxRetries) in Hinv by lia. exact Hinv.
  - remember (List.length (delays tr)) as len eqn:Hlen'.
    rewrite Hd. unfold attempts.
    rewrite <- seq_shift, !map_map. apply map_ext. intros j. f_equal. lia.
Qed.

(** X2. A bound below 1 (zero, a negative number, a fraction): the
    operation is never invoked, nothing is logged or waited for, and the
    executor rejects with the generic error of line 17. *)
Theorem bound_below_one {W E T} (message : E -> option string) (operation : Async W E T)
        (maxRetries : Q) (w : W) :
  (maxRetries < 1)%Q ->
  executeWithRetry message operation maxRetries w = (Rejected MaxRetriesExceeded, [], w).
Proof.
  intros Hq. unfold executeWithRetry, retry_fuel. cbn [retry_from].
  destruct (Qle_bool (inject_Z 1) maxRetries) eqn:Hg; [|reflexivity].
  apply Qle_bool_iff in Hg. exfalso. apply (Qlt_not_le _ _ Hq). exact Hg.
Qed.

Lemma bound_below_one_witness :
  executeWithRetry no_message (flaky 0) (1 # 2) O = (Rejected MaxRetriesExceeded, [], O).
Proof. apply bound_below_one. reflexivity. Defined.

Section Fractional.
Context {W E T : Type}.
Variable message : E -> option string.
Variable operation : Async W E T.
Variable q : Q.
Hypothesis not_integer : forall a : Z, ~ (inject_Z a == q)%Q.

End Fractional.



Lemma sum_backoff_from (k : nat) : forall a : nat,
  fold_right Z.add 0 (map backoff_delay (map Z.of_nat (seq a k)))
  = 1000 * (2 ^ Z.of_nat (a + k) - 2 ^ Z.of_nat a).
Proof.
  induction k as [|k IH]; intros a.
  - rewrite Nat.add_0_r. cbn [seq map fold_right]. lia.
  - replace (a + S k)%nat with (S a + k)%nat by lia.
    cbn [seq map fold_right]. rewrite IH. unfold backoff_delay.
    rewrite (Nat2Z.inj_succ a), Z.pow_succ_r by lia. lia.
Qed.

Lemma sum_backoff (k : nat) :
  fold_right Z.add 0 (map backoff_delay (attempts k)) = 1000 * (2 ^ (Z.of_nat k + 1) - 2).
Proof.
  unfold attempts. rewrite sum_backoff_from.
  replace (Z.of_nat (1 + k)) with (Z.of_nat k + 1) by lia. reflexivity.
Qed.

(** X4. An operation that rejects on each of its [n] invocations (integer
    bound [n >= 1]) with an error object, a value whose message can be read,
    makes the caller wait [1000 * (2^n - 2)] ms in timers before the
    rejection: 6 seconds under the default bound of 3. *)
Theorem waiting_time_before_failure
        {W E T} (message : E -> option string) (operation : Async W E T) (n : Z) (w : W) :
  1 <= n ->
  fails_readably message operation (Z.to_nat n) w ->
  total_delay (snd (fst (executeWithRetry message operation (inject_Z n) w)))
  = 1000 * (2 ^ n - 2).
Proof.
  intros Hn Hall.
  destruct (Z.to_nat n) as [|m] eqn:Hm; [lia|].
  assert (Hf : fails_readably message operation m w).
  { clear - Hall. revert w Hall. induction m as [|m IH]; intros w Hall; [exact I|].
    destruct Hall as [Hhead Htail]. split; [exact Hhead | now apply IH]. }
  assert (Hlast : exists e, fst (operation (after_invocations operation m w)) = Rejected e).
  { apply RetryProps.fails_readably_fails_first in Hall.
    replace (S m) with (m + 1)%nat in Hall by lia.
    apply RetryProps.fails_first_app in Hall. destruct Hall as [_ [Hlast _]]. exact Hlast. }
  destruct Hlast as [e He].
  unfold executeWithRetry, retry_fuel. rewrite Qfloor_Z, Hm.
  replace (S (S m)) with (m + 2)%nat by lia.
  rewrite RetryProps.retry_from_unroll by (auto; lia).
  replace (1 + Z.of_nat m) with n by lia.
  cbn [retry_from].
  rewrite RetryProps.Qle_bool_inject, RetryProps.Qeq_bool_inject, Z.leb_refl, Z.eqb_refl.
  destruct (operation (after_invocations operation m w)) as [[v|e'|] w1];
    cbn [fst] in He; try discriminate.
  cbn [fst snd]. unfold total_delay.
  rewrite RetryProps.delays_app, RetryProps.delays_backoff_trace by assumption.
  cbn [delays]. rewrite app_nil_r.
  replace (map (fun j => backoff_delay (1 + Z.of_nat j)) (seq 0 m))
    with (map backoff_delay (attempts m)).
  - rewrite sum_backoff. replace (Z.of_nat m + 1) with n by lia. reflexivity.
  - unfold attempts. rewrite <- seq_shift, !map_map. apply map_ext. intros j. f_equal. lia.
Qed.

Lemma waiting_time_before_failure_witness :
  total_delay (snd (fst (executeWithRetry no_message always_failing (inject_Z 3) O))) = 6000.
Proof.
  apply (@waiting_time_before_failure _ _ _ no_message always_failing 3 O).
  - lia.
  - cbn. repeat split; do 2 eexists; split; reflexivity.
Defined.

End RetryExtras.

(* ------------------------------------------------------------------ *)
(** ** The confirmation poller: robustness and waiting time *)

Module MonitorExtras.
Import Runtime TransactionMonitor Observations MonitorReadings.
Local Open Scope string_scope.

Lemma poll_console_spec (transactionId : string) (w : World) :
  console (snd (poll transactionId w))
  = (console w
     ++ poll_console (mirror w (List.length (fetched w)) (url_of transactionId)))%list.
Proof.
  unfold poll, try_catch, bind, fetch, url_of, poll_console.
  destruct (mirror w (List.length (fetched w)) _)
    as [err | [|] [err | [[[|[[ts] |] l] |]]]]; cbn;
    try reflexivity; try (now rewrite app_nil_r).
  destruct (truthy ts); cbn; [reflexivity | now rewrite app_nil_r].
Qed.

(** A run of the loop from round [i]: [k] reads of the same URL, and a timer
    after each read that did not confirm. *)
Lemma poll_from_run (transactionId : string) :
  forall fuel i w,
    0 <= i <= 10 ->
    (Z.to_nat (10 - i) < fuel)%nat ->
    exists state w1 k,
      poll_from fuel transactionId i w = (Fulfilled state, w1)
      /\ preserves_ledger w w1
      /\ fetched w1 = (fetched w ++ repeat (url_of transactionId) k)%list
      /\ (k <= Z.to_nat (10 - i))%nat
      /\ match state with
         | Confirmed => (1 <= k)%nat
                        /\ timers w1 = (timers w ++ repeat 2000 (k - 1))%list
                        /\ is_confirmed (mirror w (List.length (fetched w) + (k - 1))
                                                (url_of transactionId)) = true
         | TimedOut => k = Z.to_nat (10 - i)
                       /\ timers w1 = (timers w ++ repeat 2000 k)%list
         end.
Proof.
  induction fuel as [|fuel IH]; intros i w Hi Hfuel; [lia|].
  cbn [poll_from]. destruct (Z.ltb_spec i 10).
  - destruct (MonitorProps.poll_spec transactionId w) as (w1 & Hpoll & Hled & Hf & Ht).
    unfold bind at 1. rewrite Hpoll.
    destruct (is_confirmed _) eqn:Hc.
    + exists Confirmed, w1, 1%nat. split; [reflexivity|].
      split; [assumption|]. split; [assumption|]. split; [lia|].
      split; [lia|]. split; [now rewrite Ht, app_nil_r|].
      now rewrite Nat.add_0_r.
    + unfold bind at 1, sleep at 1.
      set (w2 := update_timers _ w1).
      destruct (IH (i + 1) w2 ltac:(lia) ltac:(lia)) as (state & w3 & k & Hrun & Hled3 & Hf3 & Hk & Hst).
      exists state, w3, (S k). split; [assumption|].
      split.
      { eapply MonitorProps.preserves_ledger_trans; [|exact Hled3].
        destruct Hled as (?&?&?&?&?). subst w2. repeat split; assumption. }
      split.
      { rewrite Hf3. subst w2. cbn [fetched update_timers]. rewrite Hf, <- app_assoc.
        reflexivity. }
      split; [lia|].
      assert (Hmir : mirror w2 = mirror w) by (subst w2; apply Hled).
      assert (Hlen : List.length (fetched w2) = S (List.length (fetched w)))
        by (subst w2; cbn [fetched update_timers]; rewrite Hf, length_app; cbn; lia).
      assert (Htim : timers w2 = (timers w ++ [2000])%list)
        by (subst w2; cbn [timers update_timers]; now rewrite Ht).
      destruct state.
      * destruct Hst as (Hk1 & Ht3 & Hc3). split; [lia|]. split.
        -- rewrite Ht3, Htim, <- app_assoc. cbn [app].
           replace (S k - 1)%nat with (S (k - 1)) by lia. reflexivity.
        -- rewrite Hmir, Hlen in Hc3.
           replace (List.length (fetched w) + (S k - 1))%nat
             with (S (List.length (fetched w)) + (k - 1))%nat by lia.
           exact Hc3.
      * destruct Hst as (Hk1 & Ht3). split; [lia|].
        rewrite Ht3, Htim, <- app_assoc. reflexivity.
  - exists TimedOut, w, O. replace (Z.to_nat (10 - i)) with O by lia.
    cbn [repeat]. rewrite !app_nil_r.
    repeat split; try reflexivity; lia.
Qed.

(** X5. [monitorTransaction] never rejects and never hangs, whatever the
    mirror node does (an unreachable host, a non-OK status, a body that is
    not JSON, a null record): it resolves after between 1 and 10 reads, all
    of the same URL, and makes no call on the ledger. *)
Theorem monitorTransaction_never_rejects (transactionId : string) (w : World) :
  exists w1 k,
    monitorTransaction transactionId w = (Fulfilled tt, w1)
    /\ (1 <= k <= 10)%nat
    /\ fetched w1 = (fetched w ++ repeat (url_of transactionId) k)%list
    /\ ledger_calls w1 = ledger_calls w.
Proof.
  destruct (@poll_from_run transactionId 11%nat 0 w ltac:(lia) ltac:(lia))
    as (state & w1 & k & Hrun & Hled & Hf & Hk & Hst).
  unfold monitorTransaction, bind. rewrite Hrun.
  destruct Hled as (_ & _ & _ & _ & Hcalls).
  destruct state.
  - exists w1, k. destruct Hst as (Hk1 & _). repeat split; try assumption; lia.
  - eexists. exists k. destruct Hst as (Hk10 & _).
    split; [reflexivity|]. repeat split; try assumption; lia.
Qed.

(** X6. The poller sleeps 2000 ms after every read that did not confirm,
    the tenth included, and after no other. When the first [m < 10] reads
    are not confirmed and the next one is, the run makes exactly [m + 1]
    reads and arms exactly [m] timers; when none of ten reads is confirmed
    it makes ten reads and arms ten timers (20 seconds) before the function
    returns. *)
Theorem monitorTransaction_waiting_time (transactionId : string) (w : World) :
  (forall m : nat,
      (m < 10)%nat ->
      (forall j, (j < m)%nat ->
         is_confirmed (mirror w (List.length (fetched w) + j) (url_of transactionId)) = false) ->
      is_confirmed (mirror w (List.length (fetched w) + m) (url_of transactionId)) = true ->
      fetched (snd (monitorTransaction transactionId w))
      = (fetched w ++ repeat (url_of transactionId) (S m))%list
      /\ timers (snd (monitorTransaction transactionId w))
         = (timers w ++ repeat 2000 m)%list)
  /\ ((forall j, (j < 10)%nat ->
         is_confirmed (mirror w (List.length (fetched w) + j) (url_of transactionId)) = false) ->
      fetched (snd (monitorTransaction transactionId w))
      = (fetched w ++ repeat (url_of transactionId) 10)%list
      /\ timers (snd (monitorTransaction transactionId w))
         = (timers w ++ repeat 2000 10)%list).
Proof.
  split.
  - intros m Hm Hno Hyes.
    destruct (@MonitorProps.poll_from_unconfirmed transactionId m (11 - m) 0 w ltac:(lia) Hno)
      as (w1 & Hrun & Hled & Hf & Ht).
    replace (m + (11 - m))%nat with 11%nat in Hrun by lia.
    destruct (11 - m)%nat as [|fuel] eqn:Hfuel; [lia|].
    destruct (MonitorProps.poll_spec transactionId w1) as (w2 & Hpoll & _ & Hf2 & Ht2).
    assert (Hlast : poll_from (S fuel) transactionId (0 + Z.of_nat m) w1
                    = (Fulfilled Confirmed, w2)).
    { cbn [poll_from]. destruct (Z.ltb_spec (0 + Z.of_nat m) 10); [|lia].
      unfold bind at 1. rewrite Hpoll.
      destruct Hled as (Hmir & _).
      now rewrite Hmir, Hf, length_app, repeat_length, Hyes. }
    rewrite Hlast in Hrun.
    unfold monitorTransaction, bind. rewrite Hrun. cbn [ret snd]. split.
    + rewrite Hf2, Hf, <- app_assoc. f_equal.
      change (S m) with (1 + m)%nat.
      rewrite Nat.add_comm, repeat_app. reflexivity.
    + now rewrite Ht2, Ht.
  - intros Hno.
    destruct (@MonitorProps.poll_from_unconfirmed transactionId 10 1 0 w ltac:(lia) Hno)
      as (w1 & Hrun & _ & Hf & Ht).
    change (10 + 1)%nat with 11%nat in Hrun.
    change (poll_from 1 transactionId (0 + Z.of_nat 10) w1)
      with (Fulfilled TimedOut : promise JsError _, w1) in Hrun.
    unfold monitorTransaction, bind. rewrite Hrun.
    cbn [snd console_warn fetched timers update_console].
    split; assumption.
Qed.

Lemma monitorTransaction_waiting_time_witness :
  fetched (snd (monitorTransaction "0.0.2@1"
                  (Fixtures.polling_world (Fixtures.mirror_confirming_after 2))))
  = repeat (url_of "0.0.2@1") 3
  /\ timers (snd (monitorTransaction "0.0.2@1"
                    (Fixtures.polling_world (Fixtures.mirror_confirming_after 2))))
     = [2000; 2000].
Proof.
  apply (proj1 (@monitorTransaction_waiting_time "0.0.2@1"
                  (Fixtures.polling_world (Fixtures.mirror_confirming_after 2))) 2%nat).
  - lia.
  - intros j Hj. destruct j as [|[|j]]; [reflexivity | reflexivity | lia].
  - reflexivity.
Defined.

(** While the mirror node cannot be reached every poll leaves one warning. *)
Lemma poll_from_unreachable (transactionId : string) k :
  forall fuel i w,
    unreachable w ->
    i + Z.of_nat k <= 10 ->
    exists w1,
      poll_from (k + fuel) transactionId i w
      = poll_from fuel transactionId (i + Z.of_nat k) w1
      /\ mirror w1 = mirror w
      /\ console w1 = (console w ++ repeat (Warning "Monitor poll failed:") k)%list.
Proof.
  induction k as [|k IH]; intros fuel i w Hun Hi.
  - exists w. rewrite Z.add_0_r, app_nil_r. repeat split.
  - cbn [Nat.add poll_from].
    destruct (Z.ltb_spec i 10); [|lia].
    destruct (MonitorProps.poll_spec transactionId w) as (w1 & Hpoll & Hled & _ & _).
    pose proof (poll_console_spec transactionId w) as Hcon.
    rewrite Hpoll in Hcon. cbn [snd] in Hcon.
    destruct (Hun (List.length (fetched w)) (url_of transactionId)) as [e He].
    rewrite He in Hcon. cbn [poll_console] in Hcon.
    unfold bind at 1. rewrite Hpoll, He. cbn [is_confirmed].
    unfold bind at 1, sleep at 1.
    set (w2 := update_timers _ w1).
    destruct (IH fuel (i + 1) w2) as (w3 & Hrun & Hmir & Hc3).
    + intros n url. subst w2. cbn [mirror update_timers].
      destruct Hled as (Hm & _). rewrite Hm. apply Hun.
    + lia.
    + exists w3. rewrite Hrun.
      replace (i + 1 + Z.of_nat k) with (i + Z.of_nat (S k)) by lia.
      split; [reflexivity|]. split.
      * rewrite Hmir. subst w2. apply Hled.
      * rewrite Hc3. subst w2. cbn [console update_timers].
        rewrite Hcon, <- app_assoc. reflexivity.
Qed.

(** X7. When every [fetch] throws, the errors are swallowed: the console
    gets one "Monitor poll failed:" warning per poll, ten in all, then the
    time-out warning, and the function still resolves normally. *)
Theorem monitorTransaction_swallows_fetch_errors (transactionId : string) (w : World) :
  unreachable w ->
  exists w1,
    monitorTransaction transactionId w = (Fulfilled tt, w1)
    /\ console w1
       = (console w ++ repeat (Warning "Monitor poll failed:") 10
            ++ [Warning ("Transaction " ++ transactionId ++ " not confirmed after 10 polls")])%list.
Proof.
  intros Hun.
  destruct (@poll_from_unreachable transactionId 10 1 0 w Hun ltac:(lia))
    as (w1 & Hrun & _ & Hcon).
  change (10 + 1)%nat with 11%nat in Hrun.
  change (poll_from 1 transactionId (0 + Z.of_nat 10) w1)
    with (Fulfilled TimedOut : promise JsError _, w1) in Hrun.
  unfold monitorTransaction, bind. rewrite Hrun.
  eexists. split; [reflexivity|].
  cbn [console update_console]. rewrite Hcon, <- app_assoc. reflexivity.
Qed.

Lemma monitorTransaction_swallows_fetch_errors_witness :
  exists w1,
    monitorTransaction "0.0.2@1"
      (Fixtures.polling_world (fun _ _ => FetchRejects (TypeError "fetch failed")))
    = (Fulfilled tt, w1)
    /\ List.length (console w1) = 11%nat.
Proof.
  destruct (@monitorTransaction_swallows_fetch_errors "0.0.2@1"
              (Fixtures.polling_world (fun _ _ => FetchRejects (TypeError "fetch failed"))))
    as (w1 & Hrun & Hcon).
  - intros n url. eexists. reflexivity.
  - exists w1. split; [exact Hrun|]. rewrite Hcon. reflexivity.
Defined.

End MonitorExtras.

(* ------------------------------------------------------------------ *)
(** ** Uploads: what reaches the ledger *)

Module UploadExtras.
Import Runtime ErrorHandler Observations UploadReadings.
Local Open Scope string_scope.

Lemma retry_first_success {W E T} (message : E -> option string) (operation : Async W E T)
      (w w1 : W) (v : T) :
  operation w = (Fulfilled v, w1) ->
  executeWithRetry message operation (inject_Z 3) w = (Fulfilled v, [Invoke 1], w1).
Proof.
  intros Hop. unfold executeWithRetry, retry_fuel. cbn [retry_from].
  rewrite RetryProps.Qle_bool_inject. change (1 <=? 3)%Z with true. cbv iota.
  now rewrite Hop.
Qed.






Lemma skipn_length_app {A} (l more : list A) : skipn (List.length l) (l ++ more) = more.
Proof. induction l as [|x l IH]; [reflexivity | exact IH]. Qed.







(** One attempt with an empty payload: [setContents] throws before anything
    is sent, and the world is as it was. *)
Lemma createFile_operation_empty operatorPublicKey fileConfig w :
  contents_of fileConfig = [] ->
  exists e,
    name e = "TypeError"
    /\ FileService.createFile_operation operatorPublicKey fileConfig w = (Rejected e, w).
Proof.
  intros Hempty.
  unfold FileService.createFile_operation. fold (contents_of fileConfig).
  rewrite Hempty. eexists. split; [|reflexivity]. reflexivity.
Qed.

(** X10. An empty payload (an empty buffer or the empty string) has no
    chunk 0: [setContents] is handed [undefined] and throws a TypeError
    while the create transaction is being built. [createFile] makes its
    three attempts, each failing there, and rejects with that TypeError;
    no call reaches the ledger or the mirror node, and no file is created. *)
Theorem createFile_empty_payload operatorPublicKey fileConfig w :
  contents_of fileConfig = [] ->
  exists e,
    name e = "TypeError"
    /\ FileService.createFile operatorPublicKey fileConfig w
       = (Rejected (Rethrown e),
          [Invoke 1; Warn 1 (message e) 2000; Timeout 2000;
           Invoke 2; Warn 2 (message e) 4000; Timeout 4000;
           Invoke 3],
          w).
Proof.
  intros Hempty.
  destruct (createFile_operation_empty operatorPublicKey fileConfig w Hempty) as (e & Hname & Hop).
  exists e. split; [exact Hname|].
  unfold FileService.createFile, Services.with_retry.
  rewrite (@RetryProps.three_attempts_in_a_row _ _ _ error_message _ w w w e e
             (message e) (message e) Hop eq_refl Hop eq_refl).
  now rewrite Hop.
Qed.

Lemma createFile_empty_payload_witness :
  fst (fst (FileService.createFile "operator" MoreFixtures.empty_file Fixtures.keyless_world))
  = Rejected (Rethrown (TypeError ("The first argument must be of type string or an instance of "
                                   ++ "Buffer, ArrayBuffer, or Array or an Array-like Object. "
                                   ++ "Received undefined")))
  /\ ledger_calls (snd (FileService.createFile "operator" MoreFixtures.empty_file
                                               Fixtures.keyless_world))
     = [].
Proof.
  destruct (@createFile_empty_payload "operator" MoreFixtures.empty_file
              Fixtures.keyless_world eq_refl) as (e & _ & Hrun).
  rewrite Hrun. cbn [fst snd]. split; [|reflexivity].
  assert (He : fst (fst (FileService.createFile "operator" MoreFixtures.empty_file
                                                Fixtures.keyless_world))
               = Rejected (Rethrown (TypeError ("The first argument must be of type string or an instance of "
                                   ++ "Buffer, ArrayBuffer, or Array or an Array-like Object. "
                                   ++ "Received undefined"))))
    by (vm_compute; reflexivity).
  rewrite Hrun in He. exact He.
Defined.

(** X11. An attempt of [createFile] that fails in the middle leaves a
    partial file behind. When the ledger takes the create call and the
    appends of chunks 1 .. k-1 and turns down the append of chunk [k], the
    attempt rejects with the ledger's error at once: the calls made are the
    create call, its receipt query and the appends of chunks 1 .. k, and
    nothing is sent to delete or complete the file. *)
Theorem createFile_leaves_partial_file
        operatorPublicKey fileConfig w response receipt fid (k : nat) e :
  ledger_execute w (ledger_calls w) (createFile_tx operatorPublicKey fileConfig)
  = inr response ->
  ledger_receipt w (ledger_calls w ++ [Execute (createFile_tx operatorPublicKey fileConfig)])%list
                 response = inr receipt ->
  fileId receipt = Some fid ->
  (1 <= k < List.length (chunks_of (contents_of fileConfig)))%nat ->
  (forall j, (1 <= j < k)%nat ->
     exists r,
       ledger_execute w
         (ledger_calls w
          ++ [Execute (createFile_tx operatorPublicKey fileConfig); GetReceipt response]
          ++ map (fun c => Execute (FileAppendTransaction
                                      fid (nth_error (chunks_of (contents_of fileConfig)) c)))
                 (seq 1 (j - 1)))%list
         (FileAppendTransaction fid (nth_error (chunks_of (contents_of fileConfig)) j))
       = inr r) ->
  ledger_execute w
    (ledger_calls w
     ++ [Execute (createFile_tx operatorPublicKey fileConfig); GetReceipt response]
     ++ map (fun c => Execute (FileAppendTransaction
                                 fid (nth_error (chunks_of (contents_of fileConfig)) c)))
            (seq 1 (k - 1)))%list
    (FileAppendTransaction fid (nth_error (chunks_of (contents_of fileConfig)) k))
  = inl e ->
  exists w1,
    FileService.createFile_operation operatorPublicKey fileConfig w = (Rejected e, w1)
    /\ ledger_calls w1
       = (ledger_calls w
          ++ [Execute (createFile_tx operatorPublicKey fileConfig); GetReceipt response]
          ++ map (fun c => Execute (FileAppendTransaction
                                      fid (nth_error (chunks_of (contents_of fileConfig)) c)))
                 (seq 1 k))%list.
Proof.
  intros Hcreate Hreceipt Hfid Hk Hok Hfail.
  destruct (@UploadProps.createFile_append_failure
              operatorPublicKey fileConfig w (chunks_of (contents_of fileConfig))
              response receipt fid k e) as (w1 & Hrun & Hcalls);
    try assumption.
  - unfold FileService.split.
    rewrite SplitProps.chunk_loop_slices by (unfold FileService.chunkSize; lia).
    reflexivity.
  - exists w1. split; [exact Hrun|]. rewrite Hcalls.
    replace (seq 1 k) with (seq 1 (k - 1) ++ [k])%list.
    + rewrite map_app, <- !app_assoc. reflexivity.
    + replace k with (S (k - 1)) at 3 by lia. rewrite seq_S. f_equal. f_equal. lia.
Qed.

Lemma createFile_leaves_partial_file_witness :
  exists w1,
    FileService.createFile_operation "operator" Fixtures.two_chunk_file
                                     Fixtures.flaky_ledger_world
    = (Rejected (mkError "StatusError" "BUSY"), w1)
    /\ map Fixtures.describe (ledger_calls w1)
       = [("create", 6144); ("receipt", 0); ("append", 1)].
Proof.
  destruct (@createFile_leaves_partial_file
              "operator" Fixtures.two_chunk_file Fixtures.flaky_ledger_world
              {| transactionId := "0.0.2@1700000000.000000000" |}
              {| fileId := Some "0.0.1001"; contractId := Some "0.0.1002";
                 topicSequenceNumber := Some 1%Z |}
              "0.0.1001" 1 (mkError "StatusError" "BUSY"))
    as (w1 & Hrun & Hcalls).
  - reflexivity.
  - reflexivity.
  - reflexivity.
  - vm_compute. lia.
  - intros j Hj. lia.
  - reflexivity.
  - exists w1. split; [exact Hrun|]. rewrite Hcalls. vm_compute. reflexivity.
Defined.

(** *** updateFile *)

#[local] Hint Resolve UploadProps.Grows_ret UploadProps.Grows_throw UploadProps.Grows_pending
  UploadProps.Grows_execute UploadProps.Grows_getReceipt UploadProps.Grows_toString
  UploadProps.Grows_console_log UploadProps.Grows_monitorTransaction : grows.

Section Update.
Import UpdateReadings.
Variable FileId_fromString : string -> JsError + FileId.

Lemma updateFile_operation_starts_with_append fileId file contents w :
  FileId_fromString fileId = inr file ->
  exists rest,
    ledger_calls (snd (FileUpdate.updateFile_operation FileId_fromString fileId contents w))
    = (ledger_calls w
       ++ Execute (FileAppendTransaction file (Some (bytes_of contents))) :: rest)%list.
Proof.
  intros Hparse. unfold FileUpdate.updateFile_operation. rewrite Hparse.
  unfold bind at 1. cbn [ret]. fold (bytes_of contents).
  match goal with
  | |- context [bind (execute ?tx) ?k] => set (append := tx); set (after := k)
  end.
  assert (Hafter : forall response, Grows (after response))
    by (intros ?; subst after; cbv beta; UploadProps.grows).
  unfold bind at 1. unfold execute at 1.
  destruct (ledger_execute w (ledger_calls w) append) as [e | response].
  - exists []. reflexivity.
  - destruct (Hafter response (update_ledger_calls (fun l => (l ++ [Execute append])%list) w))
      as [rest Hrest].
    exists rest. rewrite Hrest. cbn. now rewrite <- app_assoc.
Qed.

(** X12. [updateFile] does not cut its contents into chunks: on a ledger
    that accepts every call it sends the whole contents, whatever their
    size, in a single append call, followed by one receipt query. *)
Theorem updateFile_sends_one_append fileId file contents w :
  FileId_fromString fileId = inr file ->
  accepting w ->
  exists response w1,
    FileUpdate.updateFile FileId_fromString fileId contents w
    = (Fulfilled {| FileService.success := true;
                    FileService.res_fileId := fileId;
                    FileService.res_transactionId := transactionId response;
                    FileService.explorerUrl := "https://hashscan.io/mainnet/file/" ++ fileId |},
       [Invoke 1], w1)
    /\ ledger_calls w1
       = (ledger_calls w
          ++ [Execute (FileAppendTransaction file (Some (bytes_of contents)));
              GetReceipt response])%list.
Proof.
  intros Hparse Hacc.
  set (append := FileAppendTransaction file (Some (bytes_of contents))).
  destruct (proj1 Hacc (ledger_calls w) append) as [response Hr].
  destruct (proj2 Hacc (ledger_calls w ++ [Execute append])%list response)
    as (receipt & fid & Hrc & _).
  set (w3 := update_console
               (fun c => (c ++ [Log ("✅ File " ++ fileId ++ " updated")])%list)
               (update_ledger_calls (fun l => (l ++ [GetReceipt response])%list)
                  (update_ledger_calls (fun l => (l ++ [Execute append])%list) w))).
  destruct (MonitorProps.monitorTransaction_fulfils (transactionId response) w3)
    as (w4 & Hmon & (_ & _ & _ & _ & Hsame)).
  exists response, w4. split.
  - unfold FileUpdate.updateFile, Services.with_retry. apply retry_first_success.
    unfold FileUpdate.updateFile_operation. rewrite Hparse.
    unfold bind at 1. cbn [ret]. fold (bytes_of contents). fold append.
    unfold bind at 1, execute at 1. rewrite Hr.
    unfold bind at 1, getReceipt at 1.
    cbn [ledger_receipt ledger_calls update_ledger_calls]. rewrite Hrc.
    unfold bind at 1, console_log at 1. fold w3.
    unfold bind at 1. rewrite Hmon. reflexivity.
  - rewrite Hsame. subst w3. cbn [ledger_calls update_console update_ledger_calls].
    now rewrite <- app_assoc.
Qed.

(** X13. [updateFile] is not idempotent under retry. When the ledger has
    accepted the append and only the receipt query fails, the executor runs
    the whole body again: the next call on the ledger is the same append, so
    the bytes are appended a second time. *)
Theorem updateFile_appends_again_after_lost_receipt fileId file contents w response e :
  FileId_fromString fileId = inr file ->
  ledger_execute w (ledger_calls w) (FileAppendTransaction file (Some (bytes_of contents)))
  = inr response ->
  ledger_receipt w
    (ledger_calls w ++ [Execute (FileAppendTransaction file (Some (bytes_of contents)))])%list
    response = inl e ->
  exists rest,
    ledger_calls (snd (FileUpdate.updateFile FileId_fromString fileId contents w))
    = (ledger_calls w
       ++ Execute (FileAppendTransaction file (Some (bytes_of contents)))
       :: GetReceipt response
       :: Execute (FileAppendTransaction file (Some (bytes_of contents)))
       :: rest)%list.
Proof.
  intros Hparse Hr Hrc.
  set (append := FileAppendTransaction file (Some (bytes_of contents))) in *.
  set (w1 := update_ledger_calls (fun l => (l ++ [GetReceipt response])%list)
               (update_ledger_calls (fun l => (l ++ [Execute append])%list) w)).
  assert (Hfail : FileUpdate.updateFile_operation FileId_fromString fileId contents w
                  = (Rejected e, w1)).
  { unfold FileUpdate.updateFile_operation. rewrite Hparse.
    unfold bind at 1. cbn [ret]. fold (bytes_of contents). fold append.
    unfold bind at 1, execute at 1. rewrite Hr.
    unfold bind at 1, getReceipt at 1.
    cbn [ledger_receipt ledger_calls update_ledger_calls]. now rewrite Hrc. }
  assert (Hgrows : Grows (FileUpdate.updateFile_operation FileId_fromString fileId contents)).
  { intros w'.
    destruct (@updateFile_operation_starts_with_append fileId file contents w' Hparse) as [rest H].
    eexists. exact H. }
  destruct (@RetryProps.second_attempt _ _ _ error_message
              (FileUpdate.updateFile_operation FileId_fromString fileId contents)
              grows UploadProps.grows_refl UploadProps.grows_trans Hgrows w w1 e (message e)
              Hfail eq_refl)
    as [[more Hmore] _].
  destruct (@updateFile_operation_starts_with_append fileId file contents w1 Hparse) as [rest Hrest].
  exists (rest ++ more)%list.
  unfold FileUpdate.updateFile, Services.with_retry.
  rewrite Hmore, Hrest. subst w1. cbn [ledger_calls update_ledger_calls].
  fold append. rewrite <- !app_assoc. reflexivity.
Qed.
End Update.

Lemma updateFile_sends_one_append_witness :
  map Fixtures.describe
      (ledger_calls
         (snd (FileUpdate.updateFile MoreFixtures.parse_id "0.0.1001"
                 (inl (repeat Byte.x00 (Z.to_nat 10000))) Fixtures.keyless_world)))
  = [("append", 10000); ("receipt", 0)].
Proof.
  destruct (@updateFile_sends_one_append MoreFixtures.parse_id "0.0.1001" "0.0.1001"
              (inl (repeat Byte.x00 (Z.to_nat 10000))) Fixtures.keyless_world eq_refl)
    as (response & w1 & Hrun & Hcalls).
  - split; intros; repeat eexists; reflexivity.
  - rewrite Hrun. cbn [snd]. rewrite Hcalls. vm_compute. reflexivity.
Defined.

Lemma updateFile_appends_again_after_lost_receipt_witness :
  map Fixtures.describe
      (ledger_calls
         (snd (FileUpdate.updateFile MoreFixtures.parse_id "0.0.1001"
                 (inr "Amendment") MoreFixtures.lost_receipt_world)))
  = [("append", 9); ("receipt", 0); ("append", 9); ("receipt", 0)].
Proof.
  destruct (@updateFile_appends_again_after_lost_receipt MoreFixtures.parse_id
              "0.0.1001" "0.0.1001" (inr "Amendment") MoreFixtures.lost_receipt_world
              {| transactionId := "0.0.2@1700000000.000000000" |}
              (mkError "StatusError" "RECEIPT_NOT_FOUND") eq_refl eq_refl eq_refl)
    as (rest & Hcalls).
  vm_compute. reflexivity.
Defined.

(** *** deployLargeContract *)








End UploadExtras.

(* ------------------------------------------------------------------ *)
(** ** The audit log: what is sent, and in what form *)

Module ConsensusExtras.
Import Runtime ErrorHandler Observations ConsensusService AuditLoggers AuditFixtures.
Local Open Scope string_scope.

Section Service.
Variable TopicId_fromString : string -> JsError + TopicId.
Variable JSON_stringify : Json -> string.
Variable aes_256_gcm : Buffer -> Buffer -> string -> string * Buffer.

(** The poller takes nothing from the random source. *)
Lemma poll_draws (transactionId : string) (w : World) :
  draws (snd (TransactionMonitor.poll transactionId w)) = draws w.
Proof.
  unfold TransactionMonitor.poll, try_catch, bind, fetch.
  destruct (mirror w (List.length (fetched w)) _)
    as [err | [|] [err | [[[|[[ts] |] l] |]]]]; cbn; try reflexivity.
  destruct (truthy ts); reflexivity.
Qed.

Lemma poll_from_draws (transactionId : string) : forall fuel i w,
  draws (snd (TransactionMonitor.poll_from fuel transactionId i w)) = draws w.
Proof.
  induction fuel as [|fuel IH]; intros i w; cbn [TransactionMonitor.poll_from]; [reflexivity|].
  destruct (i <? 10)%Z; [|reflexivity].
  pose proof (poll_draws transactionId w) as Hp.
  unfold bind at 1. destruct (TransactionMonitor.poll transactionId w) as [[[|]|e|] w1];
    cbn [snd] in *; try assumption.
  unfold bind at 1, sleep at 1. rewrite IH. exact Hp.
Qed.

Lemma monitorTransaction_draws (transactionId : string) (w : World) :
  draws (snd (TransactionMonitor.monitorTransaction transactionId w)) = draws w.
Proof.
  unfold TransactionMonitor.monitorTransaction, bind.
  pose proof (poll_from_draws transactionId 11 0 w) as Hp.
  destruct (TransactionMonitor.poll_from 11 transactionId 0 w) as [[[|]|e|] w1];
    cbn [snd] in *; assumption.
Qed.

(** One attempt of [submitMessage] without encryption, on a ledger that
    takes the message. *)
Lemma submitMessage_operation_plain topicId topic msg w response receipt :
  TopicId_fromString topicId = inr topic ->
  ledger_execute w (ledger_calls w) (plaintext_submission JSON_stringify topic msg)
  = inr response ->
  ledger_receipt w
    (ledger_calls w ++ [Execute (plaintext_submission JSON_stringify topic msg)])%list
    response = inr receipt ->
  exists w1,
    submitMessage_operation TopicId_fromString JSON_stringify aes_256_gcm topicId msg false w
    = (Fulfilled {| success := true;
                    res_topicId := topicId;
                    res_transactionId := transactionId response;
                    consensusTimestamp := clock w;
                    sequenceNumber := match topicSequenceNumber receipt with
                                      | Some n => n
                                      | None => 0%Z
                                      end |}, w1)
    /\ ledger_calls w1
       = (ledger_calls w
          ++ [Execute (plaintext_submission JSON_stringify topic msg);
              GetReceipt response])%list.
Proof.
  intros Htopic Hr Hrc.
  set (tx := plaintext_submission JSON_stringify topic msg) in *.
  set (w3 := update_console
               (fun c => (c ++ [Log ("✅ Message submitted to topic " ++ topicId)])%list)
               (update_ledger_calls (fun l => (l ++ [GetReceipt response])%list)
                  (update_ledger_calls (fun l => (l ++ [Execute tx])%list) w))).
  destruct (MonitorProps.monitorTransaction_fulfils (transactionId response) w3)
    as (w4 & Hmon & (_ & _ & _ & _ & Hsame)).
  exists w4. split.
  - unfold submitMessage_operation. rewrite Htopic.
    unfold bind at 1. cbn [ret]. unfold bind at 1. cbn [ret].
    fold (plaintext_submission JSON_stringify topic msg). fold tx.
    unfold bind at 1, execute at 1. rewrite Hr.
    unfold bind at 1, getReceipt at 1.
    cbn [ledger_receipt ledger_calls update_ledger_calls]. rewrite Hrc.
    unfold bind at 1. cbn [clock update_ledger_calls].
    unfold bind at 1, console_log at 1. fold w3.
    unfold bind at 1. rewrite Hmon. reflexivity.
  - rewrite Hsame. subst w3. cbn [ledger_calls update_console update_ledger_calls].
    now rewrite <- app_assoc.
Qed.

(** X16. Without [encrypt] (left out, or [false]) [submitMessage] never
    looks at the encryption key: whatever the environment holds, on a ledger
    that takes the message it succeeds at its first attempt, having sent
    exactly one message transaction, whose payload is the UTF-8 bytes of the
    serialised message, and one receipt query. The result names the topic
    and the transaction and carries the sequence number of the receipt, or 0
    when the receipt has none. *)
Theorem submitMessage_plaintext topicId topic msg encrypt w response receipt :
  TopicId_fromString topicId = inr topic ->
  encrypt <> Some true ->
  ledger_execute w (ledger_calls w)
    (TopicMessageSubmitTransaction topic (Buffer_from_utf8 (JSON_stringify msg)))
  = inr response ->
  ledger_receipt w
    (ledger_calls w
     ++ [Execute (TopicMessageSubmitTransaction
                    topic (Buffer_from_utf8 (JSON_stringify msg)))])%list
    response = inr receipt ->
  exists w1,
    submitMessage TopicId_fromString JSON_stringify aes_256_gcm topicId msg encrypt w
    = (Fulfilled {| success := true;
                    res_topicId := topicId;
                    res_transactionId := transactionId response;
                    consensusTimestamp := clock w;
                    sequenceNumber := match topicSequenceNumber receipt with
                                      | Some n => n
                                      | None => 0%Z
                                      end |},
       [Invoke 1], w1)
    /\ ledger_calls w1
       = (ledger_calls w
          ++ [Execute (TopicMessageSubmitTransaction
                         topic (Buffer_from_utf8 (JSON_stringify msg)));
              GetReceipt response])%list.
Proof.
  intros Htopic Henc Hr Hrc.
  destruct (@submitMessage_operation_plain topicId topic msg w response receipt Htopic Hr Hrc)
    as (w1 & Hrun & Hcalls).
  exists w1. split; [|exact Hcalls].
  unfold submitMessage, Services.with_retry. apply UploadExtras.retry_first_success.
  destruct encrypt as [[|]|]; [contradiction | exact Hrun | exact Hrun].
Qed.

(** X17. With [encrypt] set and a key of 32 bytes in the environment, what
    goes to the ledger is not the serialised message but the string
    [hex(iv):hex(tag):ciphertext], where the nonce is the next draw of the
    random source and ciphertext and tag are what AES-256-GCM gives for the
    serialised message under the decoded key and that nonce. *)
Theorem submitMessage_encrypted_wire_format
        topicId topic msg w key encrypted authTag response receipt :
  TopicId_fromString topicId = inr topic ->
  HCS_ENCRYPTION_KEY w = Some key ->
  List.length (Buffer_from_hex key) = 32%nat ->
  aes_256_gcm (Buffer_from_hex key) (random w (draws w)) (JSON_stringify msg)
  = (encrypted, authTag) ->
  ledger_execute w (ledger_calls w)
    (TopicMessageSubmitTransaction
       topic (Buffer_from_utf8 (Buffer_to_hex (random w (draws w)) ++ ":"
                                 ++ Buffer_to_hex authTag ++ ":" ++ encrypted)))
  = inr response ->
  ledger_receipt w
    (ledger_calls w
     ++ [Execute (TopicMessageSubmitTransaction
                    topic (Buffer_from_utf8 (Buffer_to_hex (random w (draws w)) ++ ":"
                                              ++ Buffer_to_hex authTag ++ ":" ++ encrypted)))])%list
    response = inr receipt ->
  exists result w1,
    submitMessage TopicId_fromString JSON_stringify aes_256_gcm topicId msg (Some true) w
    = (Fulfilled result, [Invoke 1], w1)
    /\ ledger_calls w1
       = (ledger_calls w
          ++ [Execute (TopicMessageSubmitTransaction
                         topic (Buffer_from_utf8 (Buffer_to_hex (random w (draws w)) ++ ":"
                                                   ++ Buffer_to_hex authTag ++ ":" ++ encrypted)));
              GetReceipt response])%list
    /\ draws w1 = S (draws w).
Proof.
  intros Htopic Hkey Hlen Haes Hr Hrc.
  set (wire := Buffer_to_hex (random w (draws w)) ++ ":"
               ++ Buffer_to_hex authTag ++ ":" ++ encrypted) in *.
  set (tx := TopicMessageSubmitTransaction topic (Buffer_from_utf8 wire)) in *.
  assert (Htruthy : truthy (Some key) = true).
  { destruct key as [|c key]; [discriminate Hlen | reflexivity]. }
  set (w3 := update_console
               (fun c => (c ++ [Log ("✅ Message submitted to topic " ++ topicId)])%list)
               (update_ledger_calls (fun l => (l ++ [GetReceipt response])%list)
                  (update_ledger_calls (fun l => (l ++ [Execute tx])%list)
                     (update_draws S w)))).
  pose proof (monitorTransaction_draws (transactionId response) w3) as Hdraws.
  destruct (MonitorProps.monitorTransaction_fulfils (transactionId response) w3)
    as (w4' & Hmon' & (_ & _ & _ & _ & Hsame)).
  rewrite Hmon' in Hdraws. cbn [snd] in Hdraws.
  eexists. exists w4'. split; [|split].
  - unfold submitMessage, Services.with_retry. apply UploadExtras.retry_first_success.
    unfold submitMessage_operation. rewrite Htopic.
    unfold bind at 1. cbn [ret]. unfold bind at 1.
    rewrite Hkey, Htruthy. cbn [negb]. unfold encryptMessage.
    rewrite Hkey, Hlen, Haes. cbn [Nat.eqb]. fold wire. fold tx.
    unfold bind at 1, execute at 1.
    cbn [ledger_execute ledger_calls update_draws]. rewrite Hr.
    unfold bind at 1, getReceipt at 1.
    cbn [ledger_receipt ledger_calls update_ledger_calls update_draws]. rewrite Hrc.
    unfold bind at 1. cbn [clock update_ledger_calls update_draws].
    unfold bind at 1, console_log at 1. fold w3.
    unfold bind at 1. rewrite Hmon'. reflexivity.
  - rewrite Hsame. subst w3. cbn [ledger_calls update_console update_ledger_calls update_draws].
    now rewrite <- app_assoc.
  - rewrite Hdraws. reflexivity.
Qed.

(** [submitMessage] without encryption on a ledger that answers. *)
Lemma submitMessage_answered topicId topic msg w :
  TopicId_fromString topicId = inr topic ->
  answering w ->
  exists result response w1,
    submitMessage TopicId_fromString JSON_stringify aes_256_gcm topicId msg (Some false) w
    = (Fulfilled result, [Invoke 1], w1)
    /\ ledger_calls w1
       = (ledger_calls w
          ++ [Execute (plaintext_submission JSON_stringify topic msg);
              GetReceipt response])%list.
Proof.
  intros Htopic [Hex Hrc].
  destruct (Hex (ledger_calls w) (plaintext_submission JSON_stringify topic msg))
    as [response Hr].
  destruct (Hrc (ledger_calls w ++ [Execute (plaintext_submission JSON_stringify topic msg)])%list
                response) as [receipt Hreceipt].
  destruct (@submitMessage_operation_plain topicId topic msg w response receipt
              Htopic Hr Hreceipt) as (w1 & Hrun & Hcalls).
  eexists. exists response, w1. split; [|exact Hcalls].
  unfold submitMessage, Services.with_retry.
  apply UploadExtras.retry_first_success. exact Hrun.
Qed.

(** X18. The transaction log and the tontine log go out in clear, and need
    no key: whatever the environment holds, on a ledger that answers each of
    [logTransaction] and [logTontineActivity] resolves after one attempt,
    having sent one message transaction to its own topic, whose payload is
    the UTF-8 bytes of the serialised entry itself, and one receipt query. *)
Theorem plaintext_loggers_send_in_clear (topicIds : TopicIds) (w : World) :
  answering w ->
  (forall topic transaction,
      transactions_topic topicIds = Some topic ->
      TopicId_fromString topic = inr topic ->
      exists response w1,
        logTransaction TopicId_fromString JSON_stringify aes_256_gcm topicIds transaction w
        = (Fulfilled tt, [Invoke 1], w1)
        /\ ledger_calls w1
           = (ledger_calls w
              ++ [Execute (TopicMessageSubmitTransaction
                             topic
                             (Buffer_from_utf8
                                (JSON_stringify (transaction_logEntry (clock w) transaction))));
                  GetReceipt response])%list)
  /\ (forall topic activity,
         tontines_topic topicIds = Some topic ->
         TopicId_fromString topic = inr topic ->
         exists response w1,
           logTontineActivity TopicId_fromString JSON_stringify aes_256_gcm topicIds activity w
           = (Fulfilled tt, [Invoke 1], w1)
           /\ ledger_calls w1
              = (ledger_calls w
                 ++ [Execute (TopicMessageSubmitTransaction
                                topic
                                (Buffer_from_utf8
                                   (JSON_stringify (tontine_logEntry (clock w) activity))));
                     GetReceipt response])%list).
Proof.
  intros Hans. split.
  - intros topic transaction Hcfg Htopic.
    destruct (@submitMessage_answered topic topic (transaction_logEntry (clock w) transaction)
                w Htopic Hans) as (result & response & w1 & Hrun & Hcalls).
    exists response. eexists. unfold logTransaction. rewrite Hcfg. cbv zeta.
    rewrite Hrun. cbn [then_log]. split; [reflexivity|].
    cbn [snd console_log ledger_calls update_console]. exact Hcalls.
  - intros topic activity Hcfg Htopic.
    destruct (@submitMessage_answered topic topic (tontine_logEntry (clock w) activity)
                w Htopic Hans) as (result & response & w1 & Hrun & Hcalls).
    exists response. eexists. unfold logTontineActivity. rewrite Hcfg. cbv zeta.
    rewrite Hrun. cbn [then_log]. split; [reflexivity|].
    cbn [snd console_log ledger_calls update_console]. exact Hcalls.
Qed.

(** X19. The security log and the compliance log are never sent in clear:
    in an environment without an encryption key [logSecurityEvent] and
    [logComplianceEvent] reject with the missing-key error and leave the
    world as it was, so that no call is made on the ledger. *)
Theorem encrypted_loggers_need_key (topicIds : TopicIds) (w : World) :
  truthy (HCS_ENCRYPTION_KEY w) = false ->
  (forall topic securityEvent,
      security_topic topicIds = Some topic ->
      TopicId_fromString topic = inr topic ->
      exists tr,
        logSecurityEvent TopicId_fromString JSON_stringify aes_256_gcm
                         topicIds securityEvent w
        = (Rejected missing_key, tr, w))
  /\ (forall topic complianceEvent,
         compliance_topic topicIds = Some topic ->
         TopicId_fromString topic = inr topic ->
         exists tr,
           logComplianceEvent TopicId_fromString JSON_stringify aes_256_gcm
                              topicIds complianceEvent w
           = (Rejected missing_key, tr, w)).
Proof.
  intros Hkey. split.
  - intros topic securityEvent Hcfg Htopic.
    unfold logSecurityEvent. rewrite Hcfg. cbv zeta.
    unfold submitMessage, Services.with_retry.
    rewrite (@RetryProps.service_constant_failure _ _ _ w missing_key).
    + eexists. reflexivity.
    + unfold submitMessage_operation, bind. rewrite Htopic. cbn [ret].
      now rewrite Hkey.
  - intros topic complianceEvent Hcfg Htopic.
    now apply (@AuditProps.compliance_event_needs_key
                 TopicId_fromString JSON_stringify aes_256_gcm topicIds topic).
Qed.

(** X25. The key is looked for inside the retried closure, so a missing
    key is treated as a transient fault: the executor runs the closure three
    times, warning and waiting 2000 ms and then 4000 ms in between, before
    the missing-key error reaches the caller, six seconds after the call. *)
Theorem missing_key_is_retried topicId topic msg w :
  TopicId_fromString topicId = inr topic ->
  truthy (HCS_ENCRYPTION_KEY w) = false ->
  submitMessage TopicId_fromString JSON_stringify aes_256_gcm topicId msg (Some true) w
  = (Rejected (Rethrown missing_key),
     ContractReadings.three_attempts "Missing HCS_ENCRYPTION_KEY in environment", w)
  /\ invocations (ContractReadings.three_attempts "Missing HCS_ENCRYPTION_KEY in environment")
     = 3%nat
  /\ RetryReadings.total_delay
       (ContractReadings.three_attempts "Missing HCS_ENCRYPTION_KEY in environment")
     = 6000.
Proof.
  intros Htopic Hkey. split; [|split; reflexivity].
  unfold submitMessage, Services.with_retry.
  apply (@RetryProps.service_constant_failure _ _ _ w missing_key).
  unfold submitMessage_operation, bind. rewrite Htopic. cbn [ret].
  now rewrite Hkey.
Qed.
End Service.

Lemma missing_key_is_retried_witness :
  submitMessage Fixtures.parse_topic Fixtures.stringify sealed
                "0.0.5003" (JString "kyc passed") (Some true) Fixtures.keyless_world
  = (Rejected (Rethrown missing_key),
     [Invoke 1; Warn 1 "Missing HCS_ENCRYPTION_KEY in environment" 2000; Timeout 2000;
      Invoke 2; Warn 2 "Missing HCS_ENCRYPTION_KEY in environment" 4000; Timeout 4000;
      Invoke 3],
     Fixtures.keyless_world).
Proof.
  exact (proj1 (@missing_key_is_retried Fixtures.parse_topic Fixtures.stringify sealed
                  "0.0.5003" "0.0.5003" (JString "kyc passed") Fixtures.keyless_world
                  eq_refl eq_refl)).
Defined.

Lemma submitMessage_plaintext_witness :
  exists w1,
    submitMessage Fixtures.parse_topic Fixtures.stringify sealed
                  "0.0.5001" (JString "hello") None keyed_world
    = (Fulfilled {| success := true;
                    res_topicId := "0.0.5001";
                    res_transactionId := "0.0.2@1700000000.000000000";
                    consensusTimestamp := "2025-01-01T00:00:00.000Z";
                    sequenceNumber := 1 |}, [Invoke 1], w1)
    /\ ledger_calls w1
       = [Execute (TopicMessageSubmitTransaction "0.0.5001" (Buffer_from_utf8 "{}"));
          GetReceipt {| transactionId := "0.0.2@1700000000.000000000" |}].
Proof.
  destruct (@submitMessage_plaintext Fixtures.parse_topic Fixtures.stringify sealed
              "0.0.5001" "0.0.5001" (JString "hello") None keyed_world
              {| transactionId := "0.0.2@1700000000.000000000" |}
              {| fileId := Some "0.0.1001"; contractId := Some "0.0.1002";
                 topicSequenceNumber := Some 1%Z |}
              eq_refl ltac:(discriminate) eq_refl eq_refl)
    as (w1 & Hrun & Hcalls).
  exists w1. split; [exact Hrun | exact Hcalls].
Defined.

Lemma submitMessage_encrypted_wire_format_witness :
  exists result w1,
    submitMessage Fixtures.parse_topic Fixtures.stringify sealed
                  "0.0.5003" (JString "kyc passed") (Some true) keyed_world
    = (Fulfilled result, [Invoke 1], w1)
    /\ ledger_calls w1
       = [Execute (TopicMessageSubmitTransaction
                     "0.0.5003"
                     (Buffer_from_utf8
                        ("2a2a2a2a2a2a2a2a2a2a2a2a2a2a2a2a:01010101010101010101010101010101:c0ffee")));
          GetReceipt {| transactionId := "0.0.2@1700000000.000000000" |}]
    /\ draws w1 = 1%nat.
Proof.
  destruct (@submitMessage_encrypted_wire_format
              Fixtures.parse_topic Fixtures.stringify sealed
              "0.0.5003" "0.0.5003" (JString "kyc passed") keyed_world hexkey
              "c0ffee" (repeat Byte.x01 16)
              {| transactionId := "0.0.2@1700000000.000000000" |}
              {| fileId := Some "0.0.1001"; contractId := Some "0.0.1002";
                 topicSequenceNumber := Some 1%Z |}
              eq_refl eq_refl eq_refl eq_refl eq_refl eq_refl)
    as (result & w1 & Hrun & Hcalls & Hdraws).
  exists result, w1. split; [exact Hrun|]. split; [exact Hcalls | exact Hdraws].
Defined.

Lemma plaintext_loggers_send_in_clear_witness :
  (exists w1,
      logTransaction Fixtures.parse_topic Fixtures.stringify sealed topics a_transfer
                     Fixtures.keyless_world
      = (Fulfilled tt, [Invoke 1], w1))
  /\ (exists w1,
         logTontineActivity Fixtures.parse_topic Fixtures.stringify sealed topics a_payout
                            Fixtures.keyless_world
         = (Fulfilled tt, [Invoke 1], w1)).
Proof.
  destruct (@plaintext_loggers_send_in_clear Fixtures.parse_topic Fixtures.stringify sealed
              topics Fixtures.keyless_world) as [Htx Hta].
  - split; intros; eexists; reflexivity.
  - split.
    + destruct (Htx "0.0.5001" a_transfer eq_refl eq_refl) as (response & w1 & Hrun & _).
      exists w1. exact Hrun.
    + destruct (Hta "0.0.5002" a_payout eq_refl eq_refl) as (response & w1 & Hrun & _).
      exists w1. exact Hrun.
Defined.

Lemma encrypted_loggers_need_key_witness :
  (exists tr,
      logSecurityEvent Fixtures.parse_topic Fixtures.stringify sealed topics a_login_failure
                       Fixtures.keyless_world
      = (Rejected missing_key, tr, Fixtures.keyless_world))
  /\ (exists tr,
         logComplianceEvent Fixtures.parse_topic Fixtures.stringify sealed topics a_kyc
                            Fixtures.keyless_world
         = (Rejected missing_key, tr, Fixtures.keyless_world)).
Proof.
  destruct (@encrypted_loggers_need_key Fixtures.parse_topic Fixtures.stringify sealed
              topics Fixtures.keyless_world eq_refl) as [Hsec Hcomp].
  split.
  - exact (Hsec "0.0.5004" a_login_failure eq_refl eq_refl).
  - exact (Hcomp "0.0.5003" a_kyc eq_refl eq_refl).
Defined.

(** *** Pseudonyms in the entries *)

Lemma hashUserId_pseudonym (id : string) :
  String.length (hashUserId id) = 16%nat
  /\ Sha256.string_forall Sha256.is_lower_hex (hashUserId id) = true.
Proof.
  unfold hashUserId, Sha256.sha256_hex. split.
  - apply AuditProps.substring_length.
    rewrite AuditProps.hex_length, AuditProps.digest_length. cbn. lia.
  - apply AuditProps.substring_forall, AuditProps.hex_lower.
Qed.

Lemma hashed_or_null_pseudonym (hash : string -> string) (id : option string) :
  (forall s, String.length (hash s) = 16%nat
             /\ Sha256.string_forall Sha256.is_lower_hex (hash s) = true) ->
  pseudonym_or_null (Some (hashed_or_null hash id)).
Proof.
  intros Hhash. unfold hashed_or_null.
  destruct id as [s|]; [|now left].
  destruct (String.eqb s ""); [now left|].
  right. exists (hash s). split; [reflexivity | apply Hhash].
Qed.

(** X20. Identities enter the entries of the four loggers only through
    the truncated SHA-256 digest. The members [userId], [recipientId] and
    [ipAddress] of [data] are the first 16 hexadecimal characters of the
    SHA-256 digest of the field, or [null] where the field is optional and
    absent or empty; nothing else of the entry (time stamp, other fields)
    enters the value, so one identifier has one pseudonym in every entry.
    Each pseudonym is 16 characters among [0-9a-f]. *)
Theorem identities_are_pseudonymised (now : string) :
  (forall transaction,
      data_member "userId" (transaction_logEntry now transaction)
      = Some (JString (substring 0 16 (Sha256.sha256_hex (tx_userId transaction))))
      /\ data_member "recipientId" (transaction_logEntry now transaction)
         = Some (match tx_recipientId transaction with
                 | Some id => if String.eqb id ""
                              then JNull
                              else JString (substring 0 16 (Sha256.sha256_hex id))
                 | None => JNull
                 end))
  /\ (forall activity,
         data_member "userId" (tontine_logEntry now activity)
         = Some (match ta_userId activity with
                 | Some id => if String.eqb id ""
                              then JNull
                              else JString (substring 0 16 (Sha256.sha256_hex id))
                 | None => JNull
                 end))
  /\ (forall complianceEvent,
         data_member "userId" (compliance_logEntry now complianceEvent)
         = Some (JString (substring 0 16 (Sha256.sha256_hex (userId complianceEvent)))))
  /\ (forall securityEvent,
         data_member "userId" (security_logEntry now securityEvent)
         = Some (match se_userId securityEvent with
                 | Some id => if String.eqb id ""
                              then JNull
                              else JString (substring 0 16 (Sha256.sha256_hex id))
                 | None => JNull
                 end)
         /\ data_member "ipAddress" (security_logEntry now securityEvent)
            = Some (match se_ipAddress securityEvent with
                    | Some ip => if String.eqb ip ""
                                 then JNull
                                 else JString (substring 0 16 (Sha256.sha256_hex ip))
                    | None => JNull
                    end))
  /\ (forall transaction activity complianceEvent securityEvent,
         pseudonym_or_null (data_member "userId" (transaction_logEntry now transaction))
         /\ pseudonym_or_null (data_member "recipientId" (transaction_logEntry now transaction))
         /\ pseudonym_or_null (data_member "userId" (tontine_logEntry now activity))
         /\ pseudonym_or_null (data_member "userId" (compliance_logEntry now complianceEvent))
         /\ pseudonym_or_null (data_member "userId" (security_logEntry now securityEvent))
         /\ pseudonym_or_null (data_member "ipAddress" (security_logEntry now securityEvent))).
Proof.
  assert (Hjust : forall id, pseudonym_or_null (Some (JString (hashUserId id)))).
  { intros id. right. exists (hashUserId id). split; [reflexivity | apply hashUserId_pseudonym]. }
  split; [|split; [|split; [|split]]].
  - intros transaction. split; reflexivity.
  - intros activity. reflexivity.
  - intros complianceEvent. reflexivity.
  - intros securityEvent. split; reflexivity.
  - intros transaction activity complianceEvent securityEvent.
    repeat split.
    + apply Hjust.
    + apply (hashed_or_null_pseudonym hashUserId), hashUserId_pseudonym.
    + apply (hashed_or_null_pseudonym hashUserId), hashUserId_pseudonym.
    + apply Hjust.
    + apply (hashed_or_null_pseudonym hashUserId), hashUserId_pseudonym.
    + apply (hashed_or_null_pseudonym hashIpAddress), hashUserId_pseudonym.
Qed.

(** The pseudonym of a known identifier, from the digest of the published
    vector for [abc]. *)
Example pseudonym_of_abc :
  data_member "userId" (transaction_logEntry "2024-01-01T00:00:00.000Z" a_transfer)
  = Some (JString (substring 0 16 (Sha256.sha256_hex (tx_userId a_transfer))))
  /\ substring 0 16 (Sha256.sha256_hex "abc") = "ba7816bf8f01cfea".
Proof. split; [reflexivity | vm_compute; reflexivity]. Qed.

End ConsensusExtras.

(* ------------------------------------------------------------------ *)
(** ** Contract calls: gas, and retries within retries *)

Module ContractExtras.
Import Runtime ErrorHandler ContractRuntime ContractExecution ContractReadings RetryReadings.
Local Open Scope string_scope.

Lemma buffered_value : GasEstimator.buffered = 60000.
Proof. vm_compute. reflexivity. Qed.

(** An operation that rejects with [e] as long as [I] holds, each
    invocation taking the world one [S]-step further. *)
Lemma three_failures {W T} (operation : Async W JsError T)
      (I : W -> Prop) (S : W -> W -> Prop) (e : JsError) :
  (forall w, I w -> exists w', operation w = (Rejected e, w') /\ S w w' /\ I w') ->
  forall w, I w ->
    exists w1 w2 w3,
      S w w1 /\ S w1 w2 /\ S w2 w3 /\ I w3
      /\ executeWithRetry error_message operation (inject_Z 3) w
         = (Rejected (Rethrown e), three_attempts (message e), w3).
Proof.
  intros Hstep w Hw.
  destruct (Hstep w Hw) as (w1 & H1 & S1 & I1).
  destruct (Hstep w1 I1) as (w2 & H2 & S2 & I2).
  destruct (Hstep w2 I2) as (w3 & H3 & S3 & I3).
  exists w1, w2, w3. repeat (split; [assumption|]).
  unfold executeWithRetry, retry_fuel. rewrite Qfloor_Z.
  change (Datatypes.S (Z.to_nat 3)) with 4%nat. cbn [retry_from].
  rewrite !RetryProps.Qle_bool_inject, !RetryProps.Qeq_bool_inject.
  cbn [Z.add Z.leb Z.eqb Z.compare Pos.add Pos.succ Pos.compare Pos.compare_cont Pos.eqb].
  rewrite H1. cbn [error_message]. cbv beta iota zeta.
  rewrite H2. cbn [error_message]. cbv beta iota zeta. rewrite H3.
  reflexivity.
Qed.

Section Service.
Variable ContractId_fromString : string -> JsError + ContractId.
Variable Number_toString : Z -> string.

Lemma estimateGas_run contractId functionName params cw :
  exists g cw1,
    GasEstimator.estimateGas ContractId_fromString contractId functionName params cw
    = (Fulfilled g, cw1)
    /\ (g = 60000 <->
        exists contract,
          ContractId_fromString contractId = inr contract
          /\ query_execute cw (node_calls cw) (estimation_query contract functionName params)
             = None)
    /\ (g = 60000 \/ g = 100000)
    /\ node_calls cw1
       = (node_calls cw
          ++ match ContractId_fromString contractId with
             | inr contract => [CallQuery (estimation_query contract functionName params)]
             | inl _ => []
             end)%list
    /\ query_execute cw1 = query_execute cw
    /\ contract_execute cw1 = contract_execute cw
    /\ contract_receipt cw1 = contract_receipt cw
    /\ inner_retries cw1 = inner_retries cw.
Proof.
  unfold GasEstimator.estimateGas, ctry_catch. unfold cbind at 1.
  destruct (ContractId_fromString contractId) as [e | contract] eqn:Hparse.
  - cbn [cthrow]. unfold cbind, lift, console_warn, cret. cbn.
    eexists. eexists. split; [reflexivity|].
    split; [split; [discriminate | intros (c & Hc & _); discriminate]|].
    split; [now right|]. rewrite app_nil_r. repeat split.
  - cbn [cret]. fold (estimation_query contract functionName params).
    unfold cbind at 1, run_query.
    destruct (query_execute cw (node_calls cw) (estimation_query contract functionName params))
      as [e|] eqn:Hq.
    + unfold cbind, lift, console_warn, cret. cbn.
      eexists. eexists. split; [reflexivity|].
      split; [split; [discriminate | intros (c & Hc & Hn); congruence]|].
      split; [now right|]. repeat split.
    + cbn [cret]. rewrite buffered_value.
      eexists. eexists. split; [reflexivity|].
      split; [split; [intros _; exists contract; split; [reflexivity | exact Hq] | reflexivity]|].
      split; [now left|]. repeat split.
Qed.

(** X21. [estimateGas] never rejects: it resolves to 60000 when the
    contract identifier parses and the node answers the query, and to 100000
    in every other case, an unparsable identifier included. It sends at most
    one query, always with 50000 gas, and nothing else. *)
Theorem estimateGas_never_rejects contractId functionName params cw :
  exists g cw1,
    GasEstimator.estimateGas ContractId_fromString contractId functionName params cw
    = (Fulfilled g, cw1)
    /\ (g = 60000 <->
        exists contract,
          ContractId_fromString contractId = inr contract
          /\ query_execute cw (node_calls cw) (estimation_query contract functionName params)
             = None)
    /\ (g = 60000 \/ g = 100000)
    /\ node_calls cw1
       = (node_calls cw
          ++ match ContractId_fromString contractId with
             | inr contract => [CallQuery (estimation_query contract functionName params)]
             | inl _ => []
             end)%list.
Proof.
  destruct (estimateGas_run contractId functionName params cw)
    as (g & cw1 & Hrun & Hiff & Hg & Hcalls & _).
  exists g, cw1. repeat split; try assumption; apply Hiff.
Qed.

(** *** The gas of an execution *)

Lemma gas_sent_app l1 l2 : gas_sent (l1 ++ l2) = (gas_sent l1 ++ gas_sent l2)%list.
Proof.
  induction l1 as [|[q|tx|r] l1 IH]; cbn [gas_sent app]; [reflexivity | assumption | | assumption].
  now rewrite IH.
Qed.

Lemma sends_gas_refl a b cw : sends_gas a b cw cw.
Proof. exists []. split; [now rewrite app_nil_r | constructor]. Qed.

Lemma sends_gas_trans a b cw1 cw2 cw3 :
  sends_gas a b cw1 cw2 -> sends_gas a b cw2 cw3 -> sends_gas a b cw1 cw3.
Proof.
  intros (l1 & H1 & F1) (l2 & H2 & F2). exists (l1 ++ l2)%list. split.
  - now rewrite H2, H1, app_assoc.
  - rewrite gas_sent_app. apply Forall_app. split; assumption.
Qed.

(** What runs on the other services' world leaves the node alone. *)
Lemma lift_frame {T} (m : IO T) cw :
  node_calls (snd (lift m cw)) = node_calls cw
  /\ contract_execute (snd (lift m cw)) = contract_execute cw
  /\ inner_retries (snd (lift m cw)) = inner_retries cw.
Proof. unfold lift. destruct (m (ledger cw)) as [r w1]. repeat split. Qed.

(** The end of [executeContractFunction]'s body, from the console line on. *)
Lemma after_receipt_frame {T} functionName transactionId (result : T) cw :
  node_calls
    (snd (cbind (lift (console_log ("✅ Contract function executed: " ++ functionName)))
                (fun _ => cbind (lift (TransactionMonitor.monitorTransaction transactionId))
                                (fun _ => cret result)) cw))
  = node_calls cw.
Proof.
  unfold cbind at 1.
  pose proof (lift_frame (console_log ("✅ Contract function executed: " ++ functionName)) cw)
    as (H1 & _).
  destruct (lift (console_log _) cw) as [[u|e|] cw1]; cbn [snd] in *; try assumption.
  unfold cbind.
  pose proof (lift_frame (TransactionMonitor.monitorTransaction transactionId) cw1)
    as (H2 & _).
  destruct (lift (TransactionMonitor.monitorTransaction transactionId) cw1) as [[u'|e|] cw2];
    cbn [snd cret] in *; congruence.
Qed.

Lemma operation_sends_gas contractId functionName functionParams gas payableAmount cw :
  sends_gas (Z.max gas 60000) (Z.max gas 100000) cw
    (snd (executeContractFunction_operation
            ContractId_fromString contractId functionName functionParams gas
            payableAmount cw)).
Proof.
  unfold executeContractFunction_operation. unfold cbind at 1.
  destruct (ContractId_fromString contractId) as [e | contract] eqn:Hparse;
    [apply sends_gas_refl|].
  cbn [cret]. unfold cbind at 1.
  destruct (estimateGas_run contractId functionName
              (match functionParams with Some ps => ps | None => [] end) cw)
    as (g & cw1 & Hrun & _ & Hg & Hcalls & _).
  rewrite Hrun. rewrite Hparse in Hcalls.
  set (tx := {| x_contractId := contract; x_gas := Z.max gas g; x_function := functionName;
                x_params := functionParams; x_payableAmount := payableAmount |}).
  assert (Hsent : Forall (fun sent => sent = Z.max gas 60000 \/ sent = Z.max gas 100000)
                         [Z.max gas g]).
  { constructor; [|constructor]. destruct Hg as [-> | ->]; [now left | now right]. }
  unfold cbind at 1, execute_contract at 1.
  destruct (contract_execute cw1 (node_calls cw1) tx) as [e | response].
  { cbn [snd]. unfold sends_gas. cbn [node_calls update_node_calls]. eexists. split.
    - rewrite Hcalls, <- app_assoc. reflexivity.
    - exact Hsent. }
  unfold cbind at 1, get_contract_receipt at 1.
  cbn [contract_receipt node_calls update_node_calls].
  destruct (contract_receipt cw1 _ response) as [e | receipt].
  { cbn [snd]. unfold sends_gas. cbn [node_calls update_node_calls]. eexists. split.
    - rewrite Hcalls, <- !app_assoc. reflexivity.
    - exact Hsent. }
  unfold sends_gas. rewrite after_receipt_frame. cbn [node_calls update_node_calls].
  eexists. split.
  - rewrite Hcalls, <- !app_assoc. reflexivity.
  - exact Hsent.
Qed.

Lemma executeContractFunction_sends_gas
      contractId functionName functionParams gas payableAmount cw :
  sends_gas (Z.max (match gas with Some g => g | None => 100000 end) 60000)
            (Z.max (match gas with Some g => g | None => 100000 end) 100000)
            cw
            (snd (executeContractFunction
                    ContractId_fromString contractId functionName functionParams gas
                    payableAmount cw)).
Proof.
  unfold executeContractFunction.
  set (g := match gas with Some g => g | None => 100000 end).
  pose proof (@RetryProps.retry_from_respects _ _ _ error_message
                (executeContractFunction_operation
                   ContractId_fromString contractId functionName functionParams g payableAmount)
                (sends_gas (Z.max g 60000) (Z.max g 100000))
                (sends_gas_refl _ _) (@sends_gas_trans _ _)
                (operation_sends_gas contractId functionName functionParams g payableAmount)
                (inject_Z 3) (retry_fuel (inject_Z 3)) 1 cw) as Hrun.
  unfold executeWithRetry.
  destruct (retry_from _ _ _ _ 1 cw) as [[r tr] cw1]. cbn [snd] in Hrun.
  destruct Hrun as (more & Hcalls & Hsent).
  exists more. split; [|exact Hsent].
  destruct r; exact Hcalls.
Qed.

(** X22. The [gas] argument of [executeContractFunction] is a floor, and
    the estimate never lowers it: every execution that a call sends, at any
    of its attempts, carries the larger of [gas] and the estimate (60000 or
    100000). With [gas] at 100000 or more, and so with the default, the
    amount sent is [gas] itself whatever the estimator answered. *)
Theorem executeContractFunction_gas
        contractId functionName functionParams payableAmount cw :
  (forall gas,
      Forall (fun sent => sent = Z.max gas 60000 \/ sent = Z.max gas 100000)
             (gas_sent (calls_since cw
                (snd (executeContractFunction
                        ContractId_fromString contractId functionName functionParams
                        (Some gas) payableAmount cw)))))
  /\ (forall gas,
         100000 <= gas ->
         Forall (fun sent => sent = gas)
                (gas_sent (calls_since cw
                   (snd (executeContractFunction
                           ContractId_fromString contractId functionName functionParams
                           (Some gas) payableAmount cw)))))
  /\ Forall (fun sent => sent = 100000)
            (gas_sent (calls_since cw
               (snd (executeContractFunction
                       ContractId_fromString contractId functionName functionParams
                       None payableAmount cw)))).
Proof.
  assert (Hall : forall gas,
             Forall (fun sent => sent = Z.max (match gas with Some g => g | None => 100000 end)
                                              60000
                                 \/ sent = Z.max (match gas with Some g => g | None => 100000 end)
                                                 100000)
                    (gas_sent (calls_since cw
                       (snd (executeContractFunction
                               ContractId_fromString contractId functionName functionParams
                               gas payableAmount cw))))).
  { intros gas.
    destruct (executeContractFunction_sends_gas
                contractId functionName functionParams gas payableAmount cw)
      as (more & Hcalls & Hsent).
    unfold calls_since. rewrite Hcalls, UploadExtras.skipn_length_app. exact Hsent. }
  split; [|split].
  - intros gas. exact (Hall (Some gas)).
  - intros gas Hgas. eapply Forall_impl; [|exact (Hall (Some gas))].
    cbv beta. intros sent [-> | ->]; lia.
  - eapply Forall_impl; [|exact (Hall None)].
    cbv beta. intros sent [-> | ->]; lia.
Qed.

(** X23. A failed estimate does not fail the call. When the contract
    identifier parses and the node takes the execution and gives its
    receipt, [executeContractFunction] succeeds at its first attempt,
    whether the estimation query was answered or not: the node sees the
    query, the execution with the larger of [gas] and the estimate (60000 if
    the query was answered, 100000 if not) and one receipt request, and the
    result carries the status of the receipt and its gas used, or 0 when the
    receipt has none. *)
Theorem executeContractFunction_accepted
        contractId contract functionName functionParams gas payableAmount cw
        response receipt :
  ContractId_fromString contractId = inr contract ->
  contract_execute cw
    (node_calls cw
     ++ [CallQuery (estimation_query contract functionName (or_empty functionParams))])%list
    {| x_contractId := contract;
       x_gas := Z.max gas (estimate_on cw (estimation_query contract functionName
                                                            (or_empty functionParams)));
       x_function := functionName;
       x_params := functionParams;
       x_payableAmount := payableAmount |}
  = inr response ->
  contract_receipt cw
    (node_calls cw
     ++ [CallQuery (estimation_query contract functionName (or_empty functionParams));
         ExecuteContract
           {| x_contractId := contract;
              x_gas := Z.max gas (estimate_on cw (estimation_query contract functionName
                                                                   (or_empty functionParams)));
              x_function := functionName;
              x_params := functionParams;
              x_payableAmount := payableAmount |}])%list
    response
  = inr receipt ->
  exists cw1,
    executeContractFunction ContractId_fromString contractId functionName functionParams
                            (Some gas) payableAmount cw
    = (Fulfilled {| success := true;
                    res_contractId := contractId;
                    ContractExecution.functionName := functionName;
                    res_transactionId := transactionId response;
                    res_status := status receipt;
                    res_gasUsed := match gasUsed receipt with
                                   | Some n => n
                                   | None => 0
                                   end |}, cw1)
    /\ node_calls cw1
       = (node_calls cw
          ++ [CallQuery (estimation_query contract functionName (or_empty functionParams));
              ExecuteContract
                {| x_contractId := contract;
                   x_gas := Z.max gas (estimate_on cw (estimation_query
                                                         contract functionName
                                                         (or_empty functionParams)));
                   x_function := functionName;
                   x_params := functionParams;
                   x_payableAmount := payableAmount |};
              ReceiptOf response])%list
    /\ inner_retries cw1 = (inner_retries cw ++ [Invoke 1])%list.
Proof.
  unfold estimate_on, or_empty.
  set (params := match functionParams with Some ps => ps | None => [] end).
  set (query := estimation_query contract functionName params).
  intros Hparse Hexecute Hreceipt.
  destruct (estimateGas_run contractId functionName params cw)
    as (g & cw1 & Hrun & Hiff & Hg & Hcalls & _ & Hexec & Hrec & Hinner).
  rewrite Hparse in Hcalls. fold query in Hcalls.
  assert (Hest : match query_execute cw (node_calls cw) query with
                 | None => 60000
                 | Some _ => 100000
                 end = g).
  { destruct (query_execute cw (node_calls cw) query) as [err|] eqn:Hq.
    - destruct Hg as [Hg | Hg]; [|now symmetry].
      apply Hiff in Hg. destruct Hg as (c & Hc & Hn).
      rewrite Hparse in Hc. inversion Hc; subst c. fold query in Hn. congruence.
    - symmetry. apply Hiff. exists contract. split; [exact Hparse | exact Hq]. }
  rewrite Hest in *.
  set (tx := {| x_contractId := contract; x_gas := Z.max gas g; x_function := functionName;
                x_params := functionParams; x_payableAmount := payableAmount |}) in *.
  set (cw3 := update_node_calls (fun l => (l ++ [ReceiptOf response])%list)
                (update_node_calls (fun l => (l ++ [ExecuteContract tx])%list) cw1)).
  set (w4 := snd (console_log ("✅ Contract function executed: " ++ functionName) (ledger cw3))).
  destruct (MonitorProps.monitorTransaction_fulfils (transactionId response) w4)
    as (w5 & Hmon & _).
  assert (Hop : executeContractFunction_operation
                  ContractId_fromString contractId functionName functionParams gas
                  payableAmount cw
                = (Fulfilled {| success := true;
                                res_contractId := contractId;
                                ContractExecution.functionName := functionName;
                                res_transactionId := transactionId response;
                                res_status := status receipt;
                                res_gasUsed := match gasUsed receipt with
                                               | Some n => n
                                               | None => 0
                                               end |},
                   update_ledger (fun _ => w5) (update_ledger (fun _ => w4) cw3))).
  { unfold executeContractFunction_operation. unfold cbind at 1. rewrite Hparse.
    cbn [cret]. unfold cbind at 1. fold params. rewrite Hrun. fold tx.
    unfold cbind at 1, execute_contract at 1. rewrite Hexec, Hcalls, Hexecute.
    unfold cbind at 1, get_contract_receipt at 1.
    cbn [contract_receipt node_calls update_node_calls].
    rewrite Hrec, Hcalls, <- app_assoc. cbn [app]. rewrite Hreceipt.
    fold cw3.
    unfold cbind at 1, lift at 1, console_log at 1. fold w4.
    unfold cbind at 1, lift at 1. cbn [ledger update_ledger].
    change (update_console _ (ledger cw3)) with w4.
    rewrite Hmon. reflexivity. }
  eexists. split; [|split].
  - unfold executeContractFunction.
    rewrite (UploadExtras.retry_first_success error_message _ _ Hop). reflexivity.
  - cbn [node_calls update_inner_retries update_ledger]. subst cw3.
    cbn [node_calls update_node_calls]. rewrite Hcalls, <- !app_assoc. reflexivity.
  - cbn [inner_retries update_inner_retries update_ledger]. subst cw3.
    cbn [inner_retries update_node_calls]. now rewrite Hinner.
Qed.

(** *** Retries within retries *)

(** One attempt of the inner call of [joinTontineCircle] on a node that
    turns executions down. *)
Lemma join_attempt_refused tontineContractId contract position e cw :
  ContractId_fromString tontineContractId = inr contract ->
  refuses_executions e cw ->
  exists cw1,
    executeContractFunction_operation
      ContractId_fromString tontineContractId "joinTontine"
      (Some [ArgUint8 position]) 100000 None cw
    = (Rejected e, cw1)
    /\ (node_calls cw1 = (node_calls cw ++ join_attempt contract position)%list
        /\ inner_retries cw1 = inner_retries cw)
    /\ refuses_executions e cw1.
Proof.
  intros Hparse Hrefuses.
  unfold executeContractFunction_operation. unfold cbind at 1. rewrite Hparse.
  cbn [cret]. unfold cbind at 1.
  destruct (estimateGas_run tontineContractId "joinTontine" [ArgUint8 position] cw)
    as (g & cw1 & Hrun & _ & Hg & Hcalls & _ & Hexec & _ & Hinner).
  rewrite Hrun. rewrite Hparse in Hcalls.
  assert (Hmax : Z.max 100000 g = 100000) by (destruct Hg as [-> | ->]; reflexivity).
  rewrite Hmax.
  unfold cbind at 1, execute_contract at 1.
  rewrite Hexec, Hrefuses.
  eexists. split; [reflexivity|]. split; [split|].
  - cbn [node_calls update_node_calls]. rewrite Hcalls, <- app_assoc. reflexivity.
  - exact Hinner.
  - intros history tx. cbn [contract_execute update_node_calls].
    rewrite Hexec. apply Hrefuses.
Qed.

Lemma addUint8_in_range position :
  0 <= position <= 255 -> addUint8 position = inr [ArgUint8 position].
Proof.
  intros Hrange. unfold addUint8.
  destruct (Z.leb_spec 0 position), (Z.leb_spec position 255); try lia. reflexivity.
Qed.

(** The inner call as a whole: three attempts, then the error. *)
Lemma join_call_refused tontineContractId contract position e cw :
  0 <= position <= 255 ->
  ContractId_fromString tontineContractId = inr contract ->
  refuses_executions e cw ->
  exists cw1,
    joinTontineCircle_operation ContractId_fromString Number_toString
                                tontineContractId position cw
    = (Rejected e, cw1)
    /\ (node_calls cw1
        = (node_calls cw
           ++ List.concat (repeat (join_attempt contract position) 3))%list
        /\ inner_retries cw1 = (inner_retries cw ++ three_attempts (message e))%list)
    /\ refuses_executions e cw1.
Proof.
  intros Hrange Hparse Hrefuses.
  destruct (@three_failures _ _
              (executeContractFunction_operation
                 ContractId_fromString tontineContractId "joinTontine"
                 (Some [ArgUint8 position]) 100000 None)
              (refuses_executions e)
              (fun cw cw1 =>
                 node_calls cw1 = (node_calls cw ++ join_attempt contract position)%list
                 /\ inner_retries cw1 = inner_retries cw)
              e
              (fun cw0 H0 => @join_attempt_refused tontineContractId contract position e cw0
                               Hparse H0)
              cw Hrefuses)
    as (cw1 & cw2 & cw3 & [Hc1 Hi1] & [Hc2 Hi2] & [Hc3 Hi3] & Hrefuses3 & Hrun).
  unfold joinTontineCircle_operation. rewrite (addUint8_in_range Hrange).
  unfold cbind at 1. cbn [cret]. unfold cbind at 1.
  unfold executeContractFunction.
  change (@Some (list Argument)) with (@Some ContractFunctionParameters) in Hrun.
  rewrite Hrun. cbn [Services.thrown_value].
  eexists. split; [reflexivity|]. split; [split|].
  - cbn [node_calls update_inner_retries]. rewrite Hc3, Hc2, Hc1.
    cbn [repeat List.concat]. rewrite app_nil_r, <- !app_assoc. reflexivity.
  - cbn [inner_retries update_inner_retries]. now rewrite Hi3, Hi2, Hi1.
  - intros history tx. cbn [contract_execute update_inner_retries]. apply Hrefuses3.
Qed.

(** X24. [joinTontineCircle] retries a call that retries. For a position
    that fits 8 bits (0 to 255), on a node that turns the execution down
    every time, the inner executor makes three
    attempts and rethrows, and the outer executor does that three times
    over: nine estimation queries and nine executions reach the node, all
    alike, the timers of the two executors add up to 24 seconds, and the
    caller gets the node's error. *)
Theorem joinTontineCircle_retries_nine_times tontineContractId contract position e cw :
  0 <= position <= 255 ->
  ContractId_fromString tontineContractId = inr contract ->
  refuses_executions e cw ->
  exists cw1,
    joinTontineCircle ContractId_fromString Number_toString tontineContractId position cw
    = (Rejected (Rethrown e), three_attempts (message e), cw1)
    /\ node_calls cw1
       = (node_calls cw ++ List.concat (repeat (join_attempt contract position) 9))%list
    /\ inner_retries cw1
       = (inner_retries cw ++ List.concat (repeat (three_attempts (message e)) 3))%list
    /\ total_delay (three_attempts (message e))
       + total_delay (List.concat (repeat (three_attempts (message e)) 3)) = 24000.
Proof.
  intros Hrange Hparse Hrefuses.
  destruct (@three_failures _ _
              (joinTontineCircle_operation ContractId_fromString Number_toString
                                           tontineContractId position)
              (refuses_executions e)
              (fun cw cw1 =>
                 node_calls cw1
                 = (node_calls cw
                    ++ List.concat (repeat (join_attempt contract position) 3))%list
                 /\ inner_retries cw1
                    = (inner_retries cw ++ three_attempts (message e))%list)
              e
              (fun cw0 H0 => @join_call_refused tontineContractId contract position e cw0
                               Hrange Hparse H0)
              cw Hrefuses)
    as (cw1 & cw2 & cw3 & [Hc1 Hi1] & [Hc2 Hi2] & [Hc3 Hi3] & _ & Hrun).
  exists cw3. split; [exact Hrun|]. split; [|split].
  - rewrite Hc3, Hc2, Hc1. remember (join_attempt contract position) as attempt.
    cbn [repeat List.concat]. rewrite !app_nil_r, <- !app_assoc. reflexivity.
  - rewrite Hi3, Hi2, Hi1. cbn [repeat List.concat].
    rewrite !app_nil_r, <- !app_assoc. reflexivity.
  - reflexivity.
Qed.
End Service.

Lemma executeContractFunction_gas_witness :
  Forall (fun sent => sent = 150000)
         (gas_sent (calls_since silent_world
            (snd (executeContractFunction MoreFixtures.parse_id "0.0.7001" "contributeMonthly"
                    None (Some 150000) None silent_world))))
  /\ gas_sent (calls_since silent_world
        (snd (executeContractFunction MoreFixtures.parse_id "0.0.7001" "contributeMonthly"
                None (Some 150000) None silent_world)))
     = [150000].
Proof.
  destruct (@executeContractFunction_gas MoreFixtures.parse_id "0.0.7001" "contributeMonthly"
              None None silent_world) as (_ & Hfloor & _).
  split; [exact (Hfloor 150000 ltac:(lia)) | vm_compute; reflexivity].
Defined.

Lemma joinTontineCircle_retries_nine_times_witness :
  exists cw1,
    joinTontineCircle MoreFixtures.parse_id (fun _ => "2") "0.0.7001" 2 refusing_world
    = (Rejected (Rethrown (mkError "StatusError" "CONTRACT_REVERT_EXECUTED")),
       three_attempts "CONTRACT_REVERT_EXECUTED", cw1)
    /\ List.length (filter is_execution (node_calls cw1)) = 9%nat
    /\ List.length (filter is_query (node_calls cw1)) = 9%nat.
Proof.
  destruct (@joinTontineCircle_retries_nine_times MoreFixtures.parse_id (fun _ => "2")
              "0.0.7001" "0.0.7001" 2 (mkError "StatusError" "CONTRACT_REVERT_EXECUTED")
              refusing_world ltac:(lia) eq_refl)
    as (cw1 & Hrun & Hcalls & _).
  - intros history tx. reflexivity.
  - exists cw1. split; [exact Hrun|]. rewrite Hcalls. split; reflexivity.
Defined.

(** A position that does not fit 8 bits never reaches the node: the
    encoder throws in each of the three attempts of the outer executor. *)
Example joinTontineCircle_position_out_of_range :
  joinTontineCircle MoreFixtures.parse_id (fun _ => "256") "0.0.7001" 256 refusing_world
  = (Rejected (Rethrown (Error "value out-of-bounds")),
     three_attempts "value out-of-bounds", refusing_world).
Proof. vm_compute. reflexivity. Qed.

Lemma executeContractFunction_accepted_witness :
  exists cw1,
    executeContractFunction MoreFixtures.parse_id "0.0.7001" "contributeMonthly"
                            None (Some 70000) None silent_world
    = (Fulfilled {| success := true;
                    res_contractId := "0.0.7001";
                    functionName := "contributeMonthly";
                    res_transactionId := "0.0.2@1700000000.000000000";
                    res_status := "SUCCESS";
                    res_gasUsed := 41000 |}, cw1)
    /\ gas_sent (node_calls cw1) = [100000].
Proof.
  destruct (@executeContractFunction_accepted MoreFixtures.parse_id
              "0.0.7001" "0.0.7001" "contributeMonthly" None 70000 None silent_world
              {| transactionId := "0.0.2@1700000000.000000000" |}
              {| status := "SUCCESS"; gasUsed := Some 41000 |}
              eq_refl eq_refl eq_refl)
    as (cw1 & Hrun & Hcalls & _).
  exists cw1. split; [exact Hrun|]. rewrite Hcalls. reflexivity.
Defined.

End ContractExtras.

(* ------------------------------------------------------------------ *)
(** ** Tokens: transfers and mints under retry *)

Module TokenExtras.
Import Runtime ErrorHandler ContractRuntime TokenRuntime TokenService TokenReadings.
Import ContractReadings.
Local Open Scope string_scope.

(** An operation that rejects as long as [I] holds, with whatever error. *)
Lemma three_rejections {W T} (operation : Async W JsError T) (I : W -> Prop) :
  (forall w, I w -> exists e w', operation w = (Rejected e, w') /\ I w') ->
  forall w, I w ->
    exists e tr w3,
      executeWithRetry error_message operation (inject_Z 3) w
      = (Rejected (Rethrown e), tr, w3)
      /\ invocations tr = 3%nat.
Proof.
  intros Hstep w Hw.
  destruct (Hstep w Hw) as (e1 & w1 & H1 & I1).
  destruct (Hstep w1 I1) as (e2 & w2 & H2 & I2).
  destruct (Hstep w2 I2) as (e3 & w3 & H3 & I3).
  exists e3. eexists. exists w3.
  unfold executeWithRetry, retry_fuel. rewrite Qfloor_Z.
  change (S (Z.to_nat 3)) with 4%nat. cbn [retry_from].
  rewrite !RetryProps.Qle_bool_inject, !RetryProps.Qeq_bool_inject.
  cbn [Z.add Z.leb Z.eqb Z.compare Pos.add Pos.succ Pos.compare Pos.compare_cont Pos.eqb].
  rewrite H1. cbn [error_message]. cbv beta iota zeta.
  rewrite H2. cbn [error_message]. cbv beta iota zeta. rewrite H3.
  split; reflexivity.
Qed.

Section Service.
Variable TokenId_fromString : string -> JsError + TokenId.
Variable AccountId_fromString : string -> JsError + AccountId.
Variable PrivateKey_fromString : string -> JsError + PrivateKey.
Variable Number_toString : Q -> string.
Variable treasuryAccountId : string.
Variable treasuryPrivateKey : string.

Lemma transferTokens_operation_rejects transferDetails tw :
  exists e tw1,
    transferTokens_operation TokenId_fromString AccountId_fromString PrivateKey_fromString
                             Number_toString transferDetails tw
    = (Rejected e, tw1).
Proof.
  unfold transferTokens_operation.
  destruct (TokenId_fromString _) as [e|token]; [do 2 eexists; reflexivity|].
  unfold cbind at 1. cbn [parsed cret].
  destruct (AccountId_fromString (fromAccountId transferDetails)) as [e|fromAccount];
    [do 2 eexists; reflexivity|].
  unfold cbind at 1. cbn [parsed cret].
  destruct (AccountId_fromString (toAccountId transferDetails)) as [e|toAccount];
    [do 2 eexists; reflexivity|].
  unfold cbind at 1. cbn [parsed cret].
  destruct (PrivateKey_fromString _) as [e|key]; [do 2 eexists; reflexivity|].
  unfold cbind at 1. cbn [parsed cret].
  unfold cbind at 1, execute_token at 1.
  destruct (token_execute tw _ _) as [e|response]; [do 2 eexists; reflexivity|].
  unfold cbind at 1, get_token_receipt at 1.
  cbn [token_receipt token_calls update_token_calls].
  destruct (token_receipt tw _ _) as [e|receipt]; [do 2 eexists; reflexivity|].
  do 2 eexists. reflexivity.
Qed.

(** X26. [transferTokens] cannot report success. Whatever the arguments
    and however the ledger answers, the call rejects after three attempts:
    an attempt that gets as far as the receipt then stops at
    [monitorTransaction], which this file never imports. *)
Theorem transferTokens_never_fulfils transferDetails tw :
  exists e tr tw1,
    transferTokens TokenId_fromString AccountId_fromString PrivateKey_fromString
                   Number_toString transferDetails tw
    = (Rejected (Rethrown e), tr, tw1)
    /\ invocations tr = 3%nat.
Proof.
  apply (@three_rejections _ _ _ (fun _ => True)); [|exact I].
  intros w _.
  destruct (transferTokens_operation_rejects transferDetails w) as (e & w1 & H).
  exists e, w1. split; [exact H | exact I].
Qed.

(** One attempt of [transferTokens] on a ledger that takes the transfer. *)
Lemma transfer_attempt transferDetails token fromAccount toAccount key tw :
  TokenId_fromString (tokenId transferDetails) = inr token ->
  AccountId_fromString (fromAccountId transferDetails) = inr fromAccount ->
  AccountId_fromString (toAccountId transferDetails) = inr toAccount ->
  PrivateKey_fromString (fromPrivateKey transferDetails) = inr key ->
  taking tw ->
  exists tw1,
    transferTokens_operation TokenId_fromString AccountId_fromString PrivateKey_fromString
                             Number_toString transferDetails tw
    = (Rejected monitorTransaction_unbound, tw1)
    /\ (exists response,
           token_calls tw1
           = (token_calls tw
              ++ [ExecuteToken (transfer_of token fromAccount toAccount
                                            (amount transferDetails)
                                            (FileService.nonempty (memo transferDetails)) key);
                  TokenReceiptOf response])%list
           /\ token_retries tw1 = token_retries tw)
    /\ taking tw1.
Proof.
  intros Htoken Hfrom Hto Hkey Htaking.
  set (tx := transfer_of token fromAccount toAccount (amount transferDetails)
                         (FileService.nonempty (memo transferDetails)) key).
  destruct (proj1 Htaking (token_calls tw) tx) as [response Hr].
  destruct (proj2 Htaking (token_calls tw ++ [ExecuteToken tx])%list response)
    as [receipt Hrc].
  unfold transferTokens_operation.
  rewrite Htoken. unfold cbind at 1. cbn [parsed cret].
  rewrite Hfrom. unfold cbind at 1. cbn [parsed cret].
  rewrite Hto. unfold cbind at 1. cbn [parsed cret].
  rewrite Hkey. unfold cbind at 1. cbn [parsed cret].
  fold (transfer_of token fromAccount toAccount (amount transferDetails)
                    (FileService.nonempty (memo transferDetails)) key). fold tx.
  unfold cbind at 1, execute_token at 1. rewrite Hr.
  unfold cbind at 1, get_token_receipt at 1.
  cbn [token_receipt token_calls update_token_calls]. rewrite Hrc.
  eexists. split; [reflexivity|]. split.
  - exists response. cbn. rewrite <- app_assoc. split; reflexivity.
  - exact Htaking.
Qed.

(** X27. A transfer that the ledger accepts is submitted three times and
    reported as failed. With well-formed arguments, on a ledger that takes
    every transaction, each attempt of [transferTokens] submits the same
    transfer (one debit and one credit of [amount]), gets its receipt, and
    then throws at [monitorTransaction]; the executor runs three such
    attempts and the caller gets the ReferenceError. *)
Theorem transferTokens_submits_three_times
        transferDetails token fromAccount toAccount key tw :
  TokenId_fromString (tokenId transferDetails) = inr token ->
  AccountId_fromString (fromAccountId transferDetails) = inr fromAccount ->
  AccountId_fromString (toAccountId transferDetails) = inr toAccount ->
  PrivateKey_fromString (fromPrivateKey transferDetails) = inr key ->
  taking tw ->
  exists r1 r2 r3 tw1,
    transferTokens TokenId_fromString AccountId_fromString PrivateKey_fromString
                   Number_toString transferDetails tw
    = (Rejected (Rethrown monitorTransaction_unbound),
       three_attempts "monitorTransaction is not defined", tw1)
    /\ token_calls tw1
       = (token_calls tw
          ++ [ExecuteToken (transfer_of token fromAccount toAccount (amount transferDetails)
                                        (FileService.nonempty (memo transferDetails)) key);
              TokenReceiptOf r1;
              ExecuteToken (transfer_of token fromAccount toAccount (amount transferDetails)
                                        (FileService.nonempty (memo transferDetails)) key);
              TokenReceiptOf r2;
              ExecuteToken (transfer_of token fromAccount toAccount (amount transferDetails)
                                        (FileService.nonempty (memo transferDetails)) key);
              TokenReceiptOf r3])%list.
Proof.
  intros Htoken Hfrom Hto Hkey Htaking.
  destruct (@ContractExtras.three_failures _ _
              (transferTokens_operation TokenId_fromString AccountId_fromString
                                        PrivateKey_fromString Number_toString transferDetails)
              taking
              (fun tw tw1 =>
                 exists response,
                   token_calls tw1
                   = (token_calls tw
                      ++ [ExecuteToken (transfer_of token fromAccount toAccount
                                                    (amount transferDetails)
                                                    (FileService.nonempty (memo transferDetails))
                                                    key);
                          TokenReceiptOf response])%list
                   /\ token_retries tw1 = token_retries tw)
              monitorTransaction_unbound
              (fun w Hw => @transfer_attempt transferDetails token fromAccount toAccount key w
                             Htoken Hfrom Hto Hkey Hw)
              tw Htaking)
    as (tw1 & tw2 & tw3 & (r1 & Hc1 & _) & (r2 & Hc2 & _) & (r3 & Hc3 & _) & _ & Hrun).
  exists r1, r2, r3, tw3. split; [exact Hrun|].
  rewrite Hc3, Hc2, Hc1, <- !app_assoc. reflexivity.
Qed.

(** The transfer inside [mintTokenSupply], as awaited. *)
Lemma transfer_awaited transferDetails token fromAccount toAccount key tw :
  TokenId_fromString (tokenId transferDetails) = inr token ->
  AccountId_fromString (fromAccountId transferDetails) = inr fromAccount ->
  AccountId_fromString (toAccountId transferDetails) = inr toAccount ->
  PrivateKey_fromString (fromPrivateKey transferDetails) = inr key ->
  taking tw ->
  exists tw1 more,
    transferTokens_awaited TokenId_fromString AccountId_fromString PrivateKey_fromString
                           Number_toString transferDetails tw
    = (Rejected monitorTransaction_unbound, tw1)
    /\ token_calls tw1 = (token_calls tw ++ more)%list
    /\ filter is_mint more = []
    /\ filter is_transfer more
       = repeat (ExecuteToken (transfer_of token fromAccount toAccount (amount transferDetails)
                                           (FileService.nonempty (memo transferDetails)) key)) 3
    /\ taking tw1.
Proof.
  intros Htoken Hfrom Hto Hkey Htaking.
  destruct (@ContractExtras.three_failures _ _
              (transferTokens_operation TokenId_fromString AccountId_fromString
                                        PrivateKey_fromString Number_toString transferDetails)
              taking
              (fun tw tw1 =>
                 exists response,
                   token_calls tw1
                   = (token_calls tw
                      ++ [ExecuteToken (transfer_of token fromAccount toAccount
                                                    (amount transferDetails)
                                                    (FileService.nonempty (memo transferDetails))
                                                    key);
                          TokenReceiptOf response])%list
                   /\ token_retries tw1 = token_retries tw)
              monitorTransaction_unbound
              (fun w Hw => @transfer_attempt transferDetails token fromAccount toAccount key w
                             Htoken Hfrom Hto Hkey Hw)
              tw Htaking)
    as (tw1 & tw2 & tw3 & (r1 & Hc1 & _) & (r2 & Hc2 & _) & (r3 & Hc3 & _) & Htaking3 & Hrun).
  unfold transferTokens_awaited, transferTokens. rewrite Hrun.
  cbn [Services.thrown_value].
  eexists. eexists. split; [reflexivity|]. split; [|split; [|split]].
  - cbn [token_calls update_token_retries].
    rewrite Hc3, Hc2, Hc1, <- !app_assoc. cbn [app]. reflexivity.
  - reflexivity.
  - reflexivity.
  - exact Htaking3.
Qed.

Lemma new_Hbar_whole (amount : Q) :
  (inject_Z (Qfloor (amount * 100000000)) == amount * 100000000)%Q ->
  new_Hbar amount = inr amount.
Proof.
  intros Hwhole. unfold new_Hbar.
  now rewrite (proj2 (Qeq_bool_iff _ _) Hwhole).
Qed.

(** One attempt of [mintTokenSupply] for a recipient. *)
Lemma mint_attempt tokenId token amount recipient fromAccount toAccount key tw :
  (inject_Z (Qfloor (amount * 100000000)) == amount * 100000000)%Q ->
  recipient <> "" ->
  TokenId_fromString tokenId = inr token ->
  AccountId_fromString treasuryAccountId = inr fromAccount ->
  AccountId_fromString recipient = inr toAccount ->
  PrivateKey_fromString treasuryPrivateKey = inr key ->
  taking tw ->
  exists tw1,
    mintTokenSupply_operation TokenId_fromString AccountId_fromString PrivateKey_fromString
                              Number_toString treasuryAccountId treasuryPrivateKey
                              tokenId amount (Some recipient) tw
    = (Rejected monitorTransaction_unbound, tw1)
    /\ (exists more,
           token_calls tw1 = (token_calls tw ++ more)%list
           /\ filter is_mint more = [ExecuteToken (TokenMintTransaction token amount)]
           /\ filter is_transfer more
              = repeat (ExecuteToken (transfer_of token fromAccount toAccount amount None key)) 3)
    /\ taking tw1.
Proof.
  intros Hwhole Hrecipient Htoken Hfrom Hto Hkey Htaking.
  set (mint := TokenMintTransaction token amount).
  destruct (proj1 Htaking (token_calls tw) mint) as [response Hr].
  destruct (proj2 Htaking (token_calls tw ++ [ExecuteToken mint])%list response)
    as [receipt Hrc].
  set (tw2 := update_token_calls (fun l => (l ++ [TokenReceiptOf response])%list)
                (update_token_calls (fun l => (l ++ [ExecuteToken mint])%list) tw)).
  assert (Htaking2 : taking tw2) by exact Htaking.
  destruct (@transfer_awaited
              {| TokenService.tokenId := tokenId;
                 fromAccountId := treasuryAccountId;
                 fromPrivateKey := treasuryPrivateKey;
                 toAccountId := recipient;
                 TokenService.amount := amount;
                 memo := None |}
              token fromAccount toAccount key tw2 Htoken Hfrom Hto Hkey Htaking2)
    as (tw3 & more & Hrun & Hcalls & Hmints & Htransfers & Htaking3).
  assert (Htruthy : truthy (Some recipient) = true).
  { cbn [truthy]. destruct (String.eqb_spec recipient ""); [contradiction | reflexivity]. }
  unfold mintTokenSupply_operation. rewrite Htoken, (new_Hbar_whole Hwhole).
  unfold cbind at 1. cbn [parsed cret].
  unfold cbind at 1. cbn [parsed cret]. fold mint.
  unfold cbind at 1, execute_token at 1. rewrite Hr.
  unfold cbind at 1, get_token_receipt at 1.
  cbn [token_receipt token_calls update_token_calls]. rewrite Hrc. fold tw2.
  rewrite Htruthy. unfold cbind at 1. unfold cbind at 1. rewrite Hrun.
  exists tw3. split; [reflexivity|]. split; [|exact Htaking3].
  exists ([ExecuteToken mint; TokenReceiptOf response] ++ more)%list.
  split; [|split].
  - rewrite Hcalls. subst tw2. cbn [token_calls update_token_calls].
    rewrite <- !app_assoc. reflexivity.
  - rewrite filter_app, Hmints. reflexivity.
  - rewrite filter_app, Htransfers. reflexivity.
Qed.

(** X28. [mintTokenSupply] mints again at every retry. For an amount
    that is a whole number of tinybars (at most 8 decimals), which the
    [Hbar] constructor accepts: without a recipient, on a ledger that takes
    every transaction, it mints once and succeeds. With a recipient the transfer that follows the mint always
    rejects, so the executor runs the whole body three times: the supply is
    minted three times, the transfer is submitted nine times, and the call
    rejects. *)
Theorem mintTokenSupply_mints_three_times
        tokenId token amount recipient fromAccount toAccount key tw :
  (inject_Z (Qfloor (amount * 100000000)) == amount * 100000000)%Q ->
  TokenId_fromString tokenId = inr token ->
  taking tw ->
  (exists response tw1,
      mintTokenSupply TokenId_fromString AccountId_fromString PrivateKey_fromString
                      Number_toString treasuryAccountId treasuryPrivateKey
                      tokenId amount None tw
      = (Fulfilled {| mint_success := true;
                      mint_tokenId := tokenId;
                      amountMinted := amount;
                      mint_transactionId := transactionId response |}, [Invoke 1], tw1)
      /\ token_calls tw1
         = (token_calls tw
            ++ [ExecuteToken (TokenMintTransaction token amount);
                TokenReceiptOf response])%list)
  /\ (recipient <> "" ->
      AccountId_fromString treasuryAccountId = inr fromAccount ->
      AccountId_fromString recipient = inr toAccount ->
      PrivateKey_fromString treasuryPrivateKey = inr key ->
      exists tw1,
        mintTokenSupply TokenId_fromString AccountId_fromString PrivateKey_fromString
                        Number_toString treasuryAccountId treasuryPrivateKey
                        tokenId amount (Some recipient) tw
        = (Rejected (Rethrown monitorTransaction_unbound),
           three_attempts "monitorTransaction is not defined", tw1)
        /\ filter is_mint (token_calls_since tw tw1)
           = repeat (ExecuteToken (TokenMintTransaction token amount)) 3
        /\ filter is_transfer (token_calls_since tw tw1)
           = repeat (ExecuteToken (transfer_of token fromAccount toAccount amount None key)) 9).
Proof.
  intros Hwhole Htoken Htaking. split.
  - set (mint := TokenMintTransaction token amount).
    destruct (proj1 Htaking (token_calls tw) mint) as [response Hr].
    destruct (proj2 Htaking (token_calls tw ++ [ExecuteToken mint])%list response)
      as [receipt Hrc].
    exists response. eexists. split.
    + unfold mintTokenSupply. apply UploadExtras.retry_first_success.
      unfold mintTokenSupply_operation. rewrite Htoken, (new_Hbar_whole Hwhole).
      unfold cbind at 1. cbn [parsed cret].
      unfold cbind at 1. cbn [parsed cret]. fold mint.
      unfold cbind at 1, execute_token at 1. rewrite Hr.
      unfold cbind at 1, get_token_receipt at 1.
      cbn [token_receipt token_calls update_token_calls]. rewrite Hrc.
      reflexivity.
    + cbn [token_calls update_token_calls]. rewrite <- app_assoc. reflexivity.
  - intros Hrecipient Hfrom Hto Hkey.
    destruct (@ContractExtras.three_failures _ _
                (mintTokenSupply_operation
                   TokenId_fromString AccountId_fromString PrivateKey_fromString
                   Number_toString treasuryAccountId treasuryPrivateKey
                   tokenId amount (Some recipient))
                taking
                (fun tw tw1 =>
                   exists more,
                     token_calls tw1 = (token_calls tw ++ more)%list
                     /\ filter is_mint more = [ExecuteToken (TokenMintTransaction token amount)]
                     /\ filter is_transfer more
                        = repeat (ExecuteToken
                                    (transfer_of token fromAccount toAccount amount None key)) 3)
                monitorTransaction_unbound
                (fun w Hw => @mint_attempt tokenId token amount recipient fromAccount toAccount
                               key w Hwhole Hrecipient Htoken Hfrom Hto Hkey Hw)
                tw Htaking)
      as (tw1 & tw2 & tw3 & (m1 & Hc1 & Hm1 & Ht1) & (m2 & Hc2 & Hm2 & Ht2)
          & (m3 & Hc3 & Hm3 & Ht3) & _ & Hrun).
    exists tw3. split; [exact Hrun|].
    unfold token_calls_since.
    rewrite Hc3, Hc2, Hc1, <- !app_assoc, UploadExtras.skipn_length_app.
    rewrite !filter_app, Hm1, Hm2, Hm3, Ht1, Ht2, Ht3. split; reflexivity.
Qed.
End Service.

Lemma transferTokens_submits_three_times_witness :
  exists tw1,
    transferTokens MoreFixtures.parse_id MoreFixtures.parse_id MoreFixtures.parse_id
                   print_number a_payment open_ledger
    = (Rejected (Rethrown monitorTransaction_unbound),
       three_attempts "monitorTransaction is not defined", tw1)
    /\ List.length (filter is_transfer (token_calls tw1)) = 3%nat.
Proof.
  destruct (@transferTokens_submits_three_times
              MoreFixtures.parse_id MoreFixtures.parse_id MoreFixtures.parse_id
              print_number a_payment "0.0.3001" "0.0.1111" "0.0.2222" "302e..." open_ledger
              eq_refl eq_refl eq_refl eq_refl)
    as (r1 & r2 & r3 & tw1 & Hrun & Hcalls).
  - split; intros; eexists; reflexivity.
  - exists tw1. split; [exact Hrun|]. rewrite Hcalls. reflexivity.
Defined.

Lemma mintTokenSupply_mints_three_times_witness :
  exists tw1,
    mintTokenSupply MoreFixtures.parse_id MoreFixtures.parse_id MoreFixtures.parse_id
                    print_number "0.0.1000" "302e..." "0.0.3001" (inject_Z 500)
                    (Some "0.0.2222") open_ledger
    = (Rejected (Rethrown monitorTransaction_unbound),
       three_attempts "monitorTransaction is not defined", tw1)
    /\ List.length (filter is_mint (token_calls tw1)) = 3%nat
    /\ List.length (filter is_transfer (token_calls tw1)) = 9%nat.
Proof.
  destruct (@mintTokenSupply_mints_three_times
              MoreFixtures.parse_id MoreFixtures.parse_id MoreFixtures.parse_id
              print_number "0.0.1000" "302e..." "0.0.3001" "0.0.3001" (inject_Z 500)
              "0.0.2222" "0.0.1000" "0.0.2222" "302e..." open_ledger)
    as (_ & Hwith).
  - reflexivity.
  - reflexivity.
  - split; intros; eexists; reflexivity.
  - destruct (Hwith ltac:(discriminate) eq_refl eq_refl eq_refl)
      as (tw1 & Hrun & Hmints & Htransfers).
    exists tw1. split; [exact Hrun|].
    change (token_calls tw1) with (token_calls_since open_ledger tw1).
    rewrite Hmints, Htransfers. split; reflexivity.
Defined.

(** An amount with more than 8 decimals never reaches the ledger: the
    [Hbar] constructor throws in each of the three attempts. *)
Example mintTokenSupply_fractional_tinybars :
  mintTokenSupply MoreFixtures.parse_id MoreFixtures.parse_id MoreFixtures.parse_id
                  print_number "0.0.1000" "302e..." "0.0.3001" (1 # 1000000000)
                  None open_ledger
  = (Rejected (Rethrown (Error "Hbar in tinybars contains decimals")),
     three_attempts "Hbar in tinybars contains decimals", open_ledger).
Proof. vm_compute. reflexivity. Qed.

End TokenExtras.
